(** * Analytics route of be_Builder: time buckets, flow graph, health score

    Shallow embedding of [organizeData], [createSankeyData] and
    [createRadarChartData] (the analytics route plugin) together with the
    parts of the JavaScript run time and of date-fns they call.

    Conventions of the embedding.
    - A [Date] is its time value: milliseconds since the epoch, an integer.
      The host's local time zone is UTC, so the local calendar fields that
      date-fns reads and writes are the UTC ones of ECMA-262 (sec. 21.4.1).
      The range limit of JavaScript time values (8.64e15 ms either side of
      the epoch) is not modelled.
    - A plain object used as a map ([{}]) keeps its own properties and, on
      reads, falls back to the properties inherited from [Object.prototype].
    - A JavaScript number is an exact rational or one of NaN, +Infinity,
      -Infinity; rounding of doubles, overflow of a finite result to an
      infinity and the sign of zero are not modelled.
    - The timestamp [ts] of a log record is a whole number of seconds.

    In a time zone with daylight saving time the hour that a clock change
    repeats gives two hourly periods the same label; that case is outside
    the UTC model. *)

From Stdlib Require Import ZArith QArith Qround Qabs Lia List Bool Ascii String.
From Stdlib Require Import DecimalString DecimalPos DecimalN Permutation Sorted.
From stdpp Require Import base strings gmap list.

Local Open Scope Z_scope.

(* ===================================================================== *)
(** * Calendar arithmetic (ECMA-262, time zone UTC)                       *)
(* ===================================================================== *)

(** A date is its time value in milliseconds since 1970-01-01T00:00Z. *)
Definition Date := Z.

Definition msPerHour : Z := 3600000.
Definition msPerDay : Z := 86400000.

(** [Day(t)] and [TimeWithinDay(t)]. *)
Definition Day (t : Date) : Z := t / msPerDay.
Definition TimeWithinDay (t : Date) : Z := t mod msPerDay.

(** [DayFromYear(y)]: the day number of the first day of year [y]. *)
Definition DayFromYear (y : Z) : Z :=
  365 * (y - 1970) + (y - 1969) / 4 - (y - 1901) / 100 + (y - 1601) / 400.

Definition InLeapYear (y : Z) : bool :=
  ((y mod 4 =? 0) && negb (y mod 100 =? 0)) || (y mod 400 =? 0).

(** [YearFromTime]: the largest [y] with [DayFromYear y <= d]. It is found
    among the three years around the estimate [d / 365.2425]. *)
Definition YearFromDay (d : Z) : Z :=
  let y0 := 1970 + (d * 400) / 146097 in
  if d <? DayFromYear y0 then y0 - 1
  else if d <? DayFromYear (y0 + 1) then y0
  else y0 + 1.

(** Days before month [m] (0 = January) in a year. *)
Definition DaysBeforeMonth (m : Z) (leap : bool) : Z :=
  let l := if leap then 1 else 0 in
  if m <=? 0 then 0
  else if m =? 1 then 31
  else if m =? 2 then 59 + l
  else if m =? 3 then 90 + l
  else if m =? 4 then 120 + l
  else if m =? 5 then 151 + l
  else if m =? 6 then 181 + l
  else if m =? 7 then 212 + l
  else if m =? 8 then 243 + l
  else if m =? 9 then 273 + l
  else if m =? 10 then 304 + l
  else if m =? 11 then 334 + l
  else 365 + l.

(** Number of days of month [m] (0 = January). *)
Definition DaysInMonth (m : Z) (leap : bool) : Z :=
  DaysBeforeMonth (m + 1) leap - DaysBeforeMonth m leap.

(** [MonthFromTime] by the day within the year. *)
Definition MonthFromDayInYear (dy : Z) (leap : bool) : Z :=
  let l := if leap then 1 else 0 in
  if dy <? 31 then 0
  else if dy <? 59 + l then 1
  else if dy <? 90 + l then 2
  else if dy <? 120 + l then 3
  else if dy <? 151 + l then 4
  else if dy <? 181 + l then 5
  else if dy <? 212 + l then 6
  else if dy <? 243 + l then 7
  else if dy <? 273 + l then 8
  else if dy <? 304 + l then 9
  else if dy <? 334 + l then 10
  else 11.

(** Months are counted from year 0: month index [12 * y + m]. [MakeDay]
    of ECMA-262 normalises an out-of-range month the same way. *)
Definition MonthStart (mi : Z) : Z :=
  DayFromYear (mi / 12) + DaysBeforeMonth (mi mod 12) (InLeapYear (mi / 12)).

Definition MonthIndex (d : Z) : Z :=
  let y := YearFromDay d in
  12 * y + MonthFromDayInYear (d - DayFromYear y) (InLeapYear y).

Definition MakeDay (year month date : Z) : Z :=
  MonthStart (12 * year + month) + date - 1.

Definition MakeDate (day time : Z) : Date := day * msPerDay + time.

Definition getFullYear (t : Date) : Z := MonthIndex (Day t) / 12.
Definition getMonth (t : Date) : Z := MonthIndex (Day t) mod 12.
Definition getDate (t : Date) : Z := Day t - MonthStart (MonthIndex (Day t)) + 1.
Definition getDay (t : Date) : Z := (Day t + 4) mod 7.
Definition getHours (t : Date) : Z := TimeWithinDay t / msPerHour.
Definition getMinutes (t : Date) : Z := (TimeWithinDay t / 60000) mod 60.
Definition getSeconds (t : Date) : Z := (TimeWithinDay t / 1000) mod 60.
Definition getMilliseconds (t : Date) : Z := t mod 1000.

(** [d.setDate(n)], [d.setHours(0,0,0,0)], [d.setMinutes(0,0,0)],
    [d.setMonth(m, n)] and [d.setFullYear(y, m, n)]. *)
Definition setDate (t : Date) (n : Z) : Date :=
  MakeDate (MakeDay (getFullYear t) (getMonth t) n) (TimeWithinDay t).
Definition setHours0 (t : Date) : Date := MakeDate (Day t) 0.
Definition setMinutes0 (t : Date) : Date :=
  MakeDate (Day t) (getHours t * msPerHour).
Definition setMonth (t : Date) (m n : Z) : Date :=
  MakeDate (MakeDay (getFullYear t) m n) (TimeWithinDay t).
Definition setFullYear (t : Date) (y m n : Z) : Date :=
  MakeDate (MakeDay y m n) (TimeWithinDay t).

(* ===================================================================== *)
(** * date-fns                                                            *)
(* ===================================================================== *)

Definition isAfter (date dateToCompare : Date) : bool := dateToCompare <? date.
Definition isBefore (date dateToCompare : Date) : bool := date <? dateToCompare.

Definition startOfHour (date : Date) : Date := setMinutes0 date.
Definition startOfDay (date : Date) : Date := setHours0 date.

(** [startOfWeek(date, { weekStartsOn })]. *)
Definition startOfWeek (date : Date) (weekStartsOn : Z) : Date :=
  let day := getDay date in
  let diff := (if day <? weekStartsOn then 7 else 0) + day - weekStartsOn in
  setHours0 (setDate date (getDate date - diff)).

Definition startOfMonth (date : Date) : Date := setHours0 (setDate date 1).

Definition addMilliseconds (date : Date) (amount : Z) : Date := date + amount.
Definition addHours (date : Date) (amount : Z) : Date :=
  addMilliseconds date (amount * msPerHour).
Definition addDays (date : Date) (amount : Z) : Date :=
  if amount =? 0 then date else setDate date (getDate date + amount).
Definition addWeeks (date : Date) (amount : Z) : Date := addDays date (amount * 7).

(** [addMonths] keeps the day of the month unless the target month is
    shorter, in which case it returns the last day of the target month. *)
Definition addMonths (date : Date) (amount : Z) : Date :=
  if amount =? 0 then date
  else
    let dayOfMonth := getDate date in
    let endOfDesiredMonth := setMonth date (getMonth date + amount + 1) 0 in
    let daysInMonth := getDate endOfDesiredMonth in
    if daysInMonth <=? dayOfMonth then endOfDesiredMonth
    else setFullYear date (getFullYear endOfDesiredMonth)
                     (getMonth endOfDesiredMonth) dayOfMonth.

Definition subHours (date : Date) (amount : Z) : Date := addHours date (- amount).
Definition subDays (date : Date) (amount : Z) : Date := addDays date (- amount).
Definition subWeeks (date : Date) (amount : Z) : Date := addWeeks date (- amount).
Definition subMonths (date : Date) (amount : Z) : Date := addMonths date (- amount).

(** The Monday on or before day [d] (day 0 is a Thursday). *)
Definition weekStartDay (d : Z) : Z := d - (d + 3) mod 7.

(** ** [format]                                                          *)

(** [String(n)] for a non-negative integer. *)
Definition string_of_N (n : N) : string := NilZero.string_of_uint (N.to_uint n).

Fixpoint zeros (n : nat) : string :=
  match n with O => "" | S k => String "0" (zeros k) end.

(** [s.padStart(targetLength, "0")]. *)
Definition padStart0 (s : string) (targetLength : nat) : string :=
  zeros (targetLength - String.length s) +:+ s.

(** The decimal digits, and the strings made of them. *)
Definition isDigit (c : ascii) : bool :=
  existsb (Ascii.eqb c) ["0"; "1"; "2"; "3"; "4"; "5"; "6"; "7"; "8"; "9"]%char.

Fixpoint allDigits (s : string) : bool :=
  match s with
  | EmptyString => true
  | String c rest => isDigit c && allDigits rest
  end.

(** The strings in which the character [c] does not occur. *)
Fixpoint lacks (c : ascii) (s : string) : bool :=
  match s with
  | EmptyString => true
  | String a rest => negb (Ascii.eqb a c) && lacks c rest
  end.

(** Reading a decimal numeral back, leading zeros allowed. *)
Definition parseDecimal (s : string) : option N :=
  option_map N.of_uint (NilZero.uint_of_string s).

(** date-fns [addLeadingZeros(number, targetLength)]. *)
Definition addLeadingZeros (number : Z) (targetLength : nat) : string :=
  (if number <? 0 then "-" else "") +:+
  padStart0 (string_of_N (Z.to_N (Z.abs number))) targetLength.

(** Abbreviated month names of the default (en-US) locale. *)
Definition monthAbbr (m : Z) : string :=
  if m =? 0 then "Jan" else if m =? 1 then "Feb" else if m =? 2 then "Mar"
  else if m =? 3 then "Apr" else if m =? 4 then "May" else if m =? 5 then "Jun"
  else if m =? 6 then "Jul" else if m =? 7 then "Aug" else if m =? 8 then "Sep"
  else if m =? 9 then "Oct" else if m =? 10 then "Nov" else "Dec".

(** The tokens of the format strings that the program uses. *)
Definition format_yyyy (date : Date) : string :=
  let signedYear := getFullYear date in
  let year := if 0 <? signedYear then signedYear else 1 - signedYear in
  addLeadingZeros year 4.
Definition format_MM (date : Date) : string := addLeadingZeros (getMonth date + 1) 2.
Definition format_MMM (date : Date) : string := monthAbbr (getMonth date).
Definition format_dd (date : Date) : string := addLeadingZeros (getDate date) 2.
Definition format_HH (date : Date) : string := addLeadingZeros (getHours date) 2.
Definition format_mm (date : Date) : string := addLeadingZeros (getMinutes date) 2.
Definition format_ss (date : Date) : string := addLeadingZeros (getSeconds date) 2.
Definition format_SSS (date : Date) : string :=
  addLeadingZeros (getMilliseconds date) 3.
(** [X]: the offset of the local time zone, which is UTC. *)
Definition format_X (date : Date) : string := "Z".

Definition fmt_month : string := "MMM".
Definition fmt_hour : string := "HH:00".
Definition fmt_iso : string := "yyyy-MM-dd'T'HH:mm:ss.SSSX".

(** [format(date, formatStr)] on the three format strings of the program;
    other format strings are outside the model and give the empty string. *)
Definition format (date : Date) (formatStr : string) : string :=
  if String.eqb formatStr fmt_month then format_MMM date
  else if String.eqb formatStr fmt_hour then format_HH date +:+ ":00"
  else if String.eqb formatStr fmt_iso then
    format_yyyy date +:+ "-" +:+ format_MM date +:+ "-" +:+ format_dd date +:+
    "T" +:+ format_HH date +:+ ":" +:+ format_mm date +:+ ":" +:+
    format_ss date +:+ "." +:+ format_SSS date +:+ format_X date
  else "".

(* ===================================================================== *)
(** * Log records                                                         *)
(* ===================================================================== *)

Record Response := { status : Z }.
Record SessionAnalytics := { ip_address : string }.

(** A document of the [tx_logs] collection, with the fields that the
    analytics read. *)
Record TxLog := {
  ts : Z;
  hostname : string;
  path : string;
  method : string;
  response : Response;
  response_time : Q;
  session_analytics : SessionAnalytics
}.

(** [node_data.filter(p).length]. *)
Definition countWhere (p : TxLog -> bool) (node_data : list TxLog) : nat :=
  length (List.filter p node_data).

(* ===================================================================== *)
(** * TimeBucketAggregator: [organizeData]                                *)
(* ===================================================================== *)

Definition getStartOfPeriod (date : Date) (period : string) : Date :=
  if String.eqb period "hourly" then startOfHour date
  else if String.eqb period "daily" then startOfDay date
  else if String.eqb period "weekly" then startOfWeek date 1
  else if String.eqb period "monthly" then startOfMonth date
  else startOfMonth date.

(** The [switch] in the loop body of [getPreviousPeriods]. *)
Definition previousPeriod (current : Date) (period : string) : Date :=
  if String.eqb period "hourly" then subHours current 1
  else if String.eqb period "daily" then subDays current 1
  else if String.eqb period "weekly" then subWeeks current 1
  else if String.eqb period "monthly" then subMonths current 1
  else subMonths current 1.

(** The [for] loop of [getPreviousPeriods]: [count] iterations left. *)
Fixpoint getPreviousPeriods_loop (count : nat) (current : Date)
    (period : string) (periods : list Date) : list Date :=
  match count with
  | O => periods
  | S n =>
      getPreviousPeriods_loop n (previousPeriod current period) period
        (periods ++ [getStartOfPeriod current period])
  end.

Definition getPreviousPeriods (date : Date) (period : string) (count : nat)
    : list Date :=
  rev (getPreviousPeriods_loop count date period []).

(** The format string chosen by the conditional expression in the call of
    [format]: [period === 'monthly' ? ... : period === 'hourly' ? ... : ...]. *)
Definition labelFormat (period : string) : string :=
  if String.eqb period "monthly" then fmt_month
  else if String.eqb period "hourly" then fmt_hour
  else fmt_iso.

Record Bucket := { name : string; req : Z; error : Z }.

(** [dataMap]: an object whose own properties are enumerated in the order
    of their creation (the keys are labels, never array indices). Every read
    of [dataMap[key]] follows the write of that key, so no inherited
    property is ever read. *)
Definition DataMap := list (string * Bucket).

(** [dataMap[key] = b]: an existing property keeps its place. *)
Fixpoint dataMap_set (dataMap : DataMap) (key : string) (b : Bucket) : DataMap :=
  match dataMap with
  | [] => [(key, b)]
  | (k, v) :: rest =>
      if String.eqb k key then (k, b) :: rest
      else (k, v) :: dataMap_set rest key b
  end.

(** In-place update of the bucket stored at [dataMap[key]]. *)
Fixpoint dataMap_update (dataMap : DataMap) (key : string)
    (f : Bucket -> Bucket) : DataMap :=
  match dataMap with
  | [] => []
  | (k, v) :: rest =>
      if String.eqb k key then (k, f v) :: rest
      else (k, v) :: dataMap_update rest key f
  end.

(** [Object.values(dataMap)]. *)
Definition Object_values (dataMap : DataMap) : list Bucket := map snd dataMap.

(** The body of [node_data.forEach] for one record. *)
Definition countItem (key : string) (startOfPeriod endOfPeriod : Date)
    (dataMap : DataMap) (item : TxLog) : DataMap :=
  let date : Date := ts item * 1000 in
  if isAfter date startOfPeriod && isBefore date endOfPeriod then
    let dataMap :=
      dataMap_update dataMap key
        (fun b => {| name := name b; req := req b + 1; error := error b |}) in
    if 400 <=? status (response item) then
      dataMap_update dataMap key
        (fun b => {| name := name b; req := req b; error := error b + 1 |})
    else dataMap
  else dataMap.

(** The body of [periods.forEach] for the period at position [index].
    [endDate] is the value of the [new Date()] of that body. *)
Definition addPeriod (node_data : list TxLog) (period : string)
    (periods : list Date) (endDate : Date)
    (dataMap : DataMap) (index : nat) (startOfPeriod : Date) : DataMap :=
  let endOfPeriod :=
    if (index <? length periods - 1)%nat then nth (index + 1) periods 0
    else endDate in
  let key := format startOfPeriod (labelFormat period) in
  let dataMap := dataMap_set dataMap key {| name := key; req := 0; error := 0 |} in
  fold_left (countItem key startOfPeriod endOfPeriod) node_data dataMap.

(** [periods.forEach((startOfPeriod, index) => ...)] from position [index]. *)
Fixpoint forEachPeriod (node_data : list TxLog) (period : string)
    (periods : list Date) (endDate : Date)
    (rest : list Date) (index : nat) (dataMap : DataMap) : DataMap :=
  match rest with
  | [] => dataMap
  | startOfPeriod :: rest' =>
      forEachPeriod node_data period periods endDate rest' (S index)
        (addPeriod node_data period periods endDate dataMap index startOfPeriod)
  end.

(** [organizeData(node_data, period)]. The clock is read twice: [currentDate]
    is the [new Date()] of the first line, [endDate] the [new Date()] that
    closes the last period. *)
Definition organizeData (node_data : list TxLog) (period : string)
    (currentDate endDate : Date) : list Bucket :=
  let periods := getPreviousPeriods currentDate period 5 in
  Object_values
    (forEachPeriod node_data period periods endDate periods 0%nat []).

(** A sample record with a given timestamp and response status. *)
Definition mkLog (t : Z) (st : Z) : TxLog :=
  {| ts := t; hostname := "h"; path := "/p"; method := "GET";
     response := {| status := st |}; response_time := 1;
     session_analytics := {| ip_address := "1.2.3.4" |} |}.

(** ** What [organizeData] computes, in closed form *)

(** The alignment rule that a period value selects in both [switch]es. *)
Inductive Alignment := Hourly | Daily | Weekly | Monthly.

Definition alignment (period : string) : Alignment :=
  if String.eqb period "hourly" then Hourly
  else if String.eqb period "daily" then Daily
  else if String.eqb period "weekly" then Weekly
  else Monthly.

(** The start of the period [k] steps before the one of [now], in closed
    form (lemma [getPreviousPeriods_five]). *)
Definition periodStart (a : Alignment) (now : Date) (k : Z) : Date :=
  match a with
  | Hourly => (now / msPerHour - k) * msPerHour
  | Daily => (Day now - k) * msPerDay
  | Weekly => (weekStartDay (Day now) - 7 * k) * msPerDay
  | Monthly => MonthStart (MonthIndex (Day now) - k) * msPerDay
  end.

(** The label of a period start under the format of the period value. *)
Definition periodLabel (period : string) (now : Date) (k : Z) : string :=
  format (periodStart (alignment period) now k) (labelFormat period).


(** The membership test of [countItem]. *)
Definition inBucket (startOfPeriod endOfPeriod : Date) (item : TxLog) : bool :=
  isAfter (ts item * 1000) startOfPeriod && isBefore (ts item * 1000) endOfPeriod.

(** The error test of [countItem]. *)
Definition isError (item : TxLog) : bool := 400 <=? status (response item).

(** The end of the period at position [index]. *)
Definition bucketEnd (periods : list Date) (endDate : Date) (index : nat) : Date :=
  if (index <? length periods - 1)%nat then nth (index + 1) periods 0
  else endDate.

(** The bucket of one period over all records. *)
Definition bucketOf (key : string) (startOfPeriod endOfPeriod : Date)
    (node_data : list TxLog) : Bucket :=
  {| name := key;
     req := Z.of_nat (countWhere (inBucket startOfPeriod endOfPeriod) node_data);
     error :=
       Z.of_nat
         (countWhere
            (fun item => inBucket startOfPeriod endOfPeriod item && isError item)
            node_data) |}.

Fixpoint bucketsFrom (node_data : list TxLog) (period : string)
    (periods : list Date) (endDate : Date) (rest : list Date) (index : nat)
    : DataMap :=
  match rest with
  | [] => []
  | startOfPeriod :: rest' =>
      (format startOfPeriod (labelFormat period),
       bucketOf (format startOfPeriod (labelFormat period)) startOfPeriod
         (bucketEnd periods endDate index) node_data)
      :: bucketsFrom node_data period periods endDate rest' (S index)
  end.

(** Buckets whose error count is between 0 and the request count. *)
Definition bucketOk (b : Bucket) : Prop := 0 <= error b <= req b.

(** The sum of the request counts of a list of buckets. *)
Definition sumReq (buckets : list Bucket) : Z :=
  fold_right (fun b acc => req b + acc) 0 buckets.

Definition isKnownPeriod (period : string) : bool :=
  existsb (String.eqb period) ["hourly"; "daily"; "weekly"; "monthly"].
(* ===================================================================== *)
(** * FlowGraphBuilder: [createSankeyData]                                *)
(* ===================================================================== *)

(** The property names that every plain object inherits from
    [Object.prototype]. *)
Definition prototypeKeys : list string :=
  [ "constructor"; "__defineGetter__"; "__defineSetter__"; "hasOwnProperty";
    "__lookupGetter__"; "__lookupSetter__"; "isPrototypeOf";
    "propertyIsEnumerable"; "toString"; "valueOf"; "__proto__";
    "toLocaleString" ].

Definition isPrototypeKey (key : string) : bool :=
  existsb (String.eqb key) prototypeKeys.

(** The values that [getNodeIndex] can return: a number stored by the
    program, or the value of an inherited property. *)
Inductive jsval :=
  | JNum (n : nat)
  | JInherited (key : string).

(** The result of reading [obj[key]] where [obj] was created as [{}]. *)
Inductive lookup_result :=
  | Undefined
  | Found (v : jsval).

Definition obj_get (obj : gmap string nat) (key : string) : lookup_result :=
  match obj !! key with
  | Some n => Found (JNum n)
  | None => if isPrototypeKey key then Found (JInherited key) else Undefined
  end.

(** [String(v)]: a number in decimal, a built-in function as its source
    text, [Object.prototype] (the value of [__proto__]) as an object. *)
Definition jsval_to_string (v : jsval) : string :=
  match v with
  | JNum n => string_of_N (N.of_nat n)
  | JInherited key =>
      if String.eqb key "__proto__" then "[object Object]"
      else if String.eqb key "constructor" then "function Object() { [native code] }"
      else "function " +:+ key +:+ "() { [native code] }"
  end.

Record Node := { node_name : string; node_index : nat }.
Record Link := { source : jsval; target : jsval; value : Z }.

(** The four variables that the closures of [createSankeyData] share. *)
Record Sankey := {
  nodes : list Node;
  nodeIndex : gmap string nat;
  links : list Link;
  linkIndex : gmap string nat
}.

Definition emptySankey : Sankey :=
  {| nodes := []; nodeIndex := ∅; links := []; linkIndex := ∅ |}.

(** [getNodeIndex(name)]: the new state and the returned value. *)
Definition getNodeIndex (st : Sankey) (name : string) : Sankey * jsval :=
  match obj_get (nodeIndex st) name with
  | Undefined =>
      let n := length (nodes st) in
      ({| nodes := nodes st ++ [{| node_name := name; node_index := n |}];
          nodeIndex := <[name := n]> (nodeIndex st);
          links := links st;
          linkIndex := linkIndex st |}, JNum n)
  | Found v => (st, v)
  end.

(** The template literal [`${source}-${target}`]. *)
Definition linkKey (source target : jsval) : string :=
  jsval_to_string source +:+ "-" +:+ jsval_to_string target.

Definition bumpLink (l : Link) : Link :=
  {| source := source l; target := target l; value := value l + 1 |}.

(** [getLinkIndex(source, target)]; its result is not used by the caller.
    A key always contains a dash, so it is never an inherited property
    name (lemma [linkKey_not_inherited]) and the last case is not reached. *)
Definition getLinkIndex (st : Sankey) (source target : jsval) : Sankey :=
  let key := linkKey source target in
  match obj_get (linkIndex st) key with
  | Undefined =>
      {| nodes := nodes st;
         nodeIndex := nodeIndex st;
         links := links st ++ [{| source := source; target := target; value := 1 |}];
         linkIndex := <[key := length (links st)]> (linkIndex st) |}
  | Found (JNum i) =>
      {| nodes := nodes st;
         nodeIndex := nodeIndex st;
         links := alter bumpLink i (links st);
         linkIndex := linkIndex st |}
  | Found (JInherited _) => st
  end.

Definition apiType : string := "API - JSON".

(** The body of [node_data.forEach] in [createSankeyData]. *)
Definition addItem (st : Sankey) (item : TxLog) : Sankey :=
  let ip := ip_address (session_analytics item) in
  let '(st, ipIndex) := getNodeIndex st ip in
  let '(st, apiTypeIndex) := getNodeIndex st apiType in
  let '(st, hostnameIndex) := getNodeIndex st (hostname item) in
  let '(st, pathIndex) := getNodeIndex st (path item) in
  let '(st, methodIndex) := getNodeIndex st (method item) in
  let st := getLinkIndex st ipIndex apiTypeIndex in
  let st := getLinkIndex st apiTypeIndex hostnameIndex in
  let st := getLinkIndex st hostnameIndex pathIndex in
  getLinkIndex st pathIndex methodIndex.

(** The returned object [{ nodes, links }]. *)
Record SankeyData := { sankey_nodes : list Node; sankey_links : list Link }.

Definition createSankeyData (node_data : list TxLog) : SankeyData :=
  let st := fold_left addItem node_data emptySankey in
  {| sankey_nodes := nodes st; sankey_links := links st |}.

(** A sample record with the given labels. *)
Definition mkReq (ip host pth meth : string) : TxLog :=
  {| ts := 0; hostname := host; path := pth; method := meth;
     response := {| status := 200 |}; response_time := 1;
     session_analytics := {| ip_address := ip |} |}.

(** ** What [createSankeyData] computes, in terms of labels *)

Global Instance jsval_eq_dec : EqDecision jsval.
Proof. solve_decision. Defined.

(** The four transitions of a record, as pairs of labels. *)
Definition chain (item : TxLog) : list (string * string) :=
  [ (ip_address (session_analytics item), apiType);
    (apiType, hostname item);
    (hostname item, path item);
    (path item, method item) ].

(** The number of occurrences of the transition [(a, b)]. *)
Definition countPair (transitions : list (string * string)) (a b : string) : Z :=
  Z.of_nat
    (length
       (List.filter (fun p => String.eqb (fst p) a && String.eqb (snd p) b)
          transitions)).

(** The total weight of the links from [va] to [vb]. *)
Definition linkWeight (links : list Link) (va vb : jsval) : Z :=
  fold_right
    (fun l acc =>
       (if decide (source l = va /\ target l = vb) then value l else 0) + acc)
    0 links.

(** The value that stands for a label in the links of a graph: the index of
    the node with that name or, for a label that has no node because it is
    an inherited property name, the inherited value. *)
Definition labelValue (g : SankeyData) (label : string) : option jsval :=
  match List.find (fun nd => String.eqb (node_name nd) label) (sankey_nodes g) with
  | Some nd => Some (JNum (node_index nd))
  | None => if isPrototypeKey label then Some (JInherited label) else None
  end.

(** The weight of the edge that connects two labels. *)
Definition edgeWeight (g : SankeyData) (a b : string) : Z :=
  match labelValue g a, labelValue g b with
  | Some va, Some vb => linkWeight (sankey_links g) va vb
  | _, _ => 0
  end.

(** The values that [getNodeIndex] returns in a state with [n] nodes. *)
Definition jsval_ok (n : nat) (v : jsval) : Prop :=
  match v with
  | JNum i => (i < n)%nat
  | JInherited key => isPrototypeKey key = true
  end.

(** A node position, as the source or target of a link. *)
Definition isNodePosition (g : SankeyData) (v : jsval) : bool :=
  match v with
  | JNum i => (i <? length (sankey_nodes g))%nat
  | JInherited _ => false
  end.

(** Every node's index is its position; every link joins node positions. *)
Definition nodesWellFormed (g : SankeyData) : bool :=
  forallb (fun p => (node_index (snd p) =? fst p)%nat)
    (combine (seq 0 (length (sankey_nodes g))) (sankey_nodes g)).

Definition linksWellFormed (g : SankeyData) : bool :=
  forallb (fun l => isNodePosition g (source l) && isNodePosition g (target l))
    (sankey_links g).

(** The state of the builder and the transitions it has accounted for. *)
Record SankeyInv (st : Sankey) (transitions : list (string * string)) : Prop := {
  inv_bound : forall label i,
    nodeIndex st !! label = Some i -> (i < length (nodes st))%nat;
  inv_inj : forall a b i,
    nodeIndex st !! a = Some i -> nodeIndex st !! b = Some i -> a = b;
  inv_find : forall label,
    List.find (fun nd => String.eqb (node_name nd) label) (nodes st) =
    (fun i => {| node_name := label; node_index := i |}) <$> nodeIndex st !! label;
  inv_index : forall i nd, nodes st !! i = Some nd -> node_index nd = i;
  inv_ends : forall l, l ∈ links st ->
    jsval_ok (length (nodes st)) (source l) /\
    jsval_ok (length (nodes st)) (target l);
  inv_ends_label : forall l, l ∈ links st ->
    exists a b, In (a, b) transitions /\
      obj_get (nodeIndex st) a = Found (source l) /\
      obj_get (nodeIndex st) b = Found (target l);
  inv_linkIndex : forall key i,
    linkIndex st !! key = Some i ->
    exists l, links st !! i = Some l /\ linkKey (source l) (target l) = key;
  inv_links : forall i l,
    links st !! i = Some l ->
    linkIndex st !! linkKey (source l) (target l) = Some i;
  inv_seen : forall a b,
    In (a, b) transitions ->
    obj_get (nodeIndex st) a <> Undefined /\ obj_get (nodeIndex st) b <> Undefined;
  inv_weight : forall a b va vb,
    obj_get (nodeIndex st) a = Found va -> obj_get (nodeIndex st) b = Found vb ->
    linkWeight (links st) va vb = countPair transitions a b
}.

(** A record one of whose labels is an inherited property name. *)
Definition hasInheritedLabel (item : TxLog) : bool :=
  isPrototypeKey (ip_address (session_analytics item)) ||
  isPrototypeKey (hostname item) || isPrototypeKey (path item) ||
  isPrototypeKey (method item).

(** The state of the builder after [k] copies of one record whose four
    labels and the constant type label are five different strings, none of
    them an inherited property name. *)
Definition identicalState (ip host pth meth : string) (k : Z) : Sankey :=
  {| nodes :=
       [ {| node_name := ip; node_index := 0 |};
         {| node_name := apiType; node_index := 1 |};
         {| node_name := host; node_index := 2 |};
         {| node_name := pth; node_index := 3 |};
         {| node_name := meth; node_index := 4 |} ];
     nodeIndex :=
       <[meth := 4%nat]> (<[pth := 3%nat]> (<[host := 2%nat]>
         (<[apiType := 1%nat]> (<[ip := 0%nat]> ∅))));
     links :=
       [ {| source := JNum 0; target := JNum 1; value := k |};
         {| source := JNum 1; target := JNum 2; value := k |};
         {| source := JNum 2; target := JNum 3; value := k |};
         {| source := JNum 3; target := JNum 4; value := k |} ];
     linkIndex :=
       <["3-4" := 3%nat]> (<["2-3" := 2%nat]> (<["1-2" := 1%nat]>
         (<["0-1" := 0%nat]> ∅))) |}.
(* ===================================================================== *)
(** * JavaScript numbers                                                  *)
(* ===================================================================== *)

(** A number is finite (an exact rational here) or one of the three special
    values of IEEE 754. *)
Inductive num :=
  | Fin (q : Q)
  | PInf
  | NInf
  | NaN.

(** A finite result, kept in lowest terms. *)
Definition fin (q : Q) : num := Fin (Qred q).

Definition num_of_Z (z : Z) : num := Fin (inject_Z z).
Definition num_of_nat (n : nat) : num := num_of_Z (Z.of_nat n).

Definition num_neg (a : num) : num :=
  match a with
  | Fin q => fin (- q)%Q
  | PInf => NInf
  | NInf => PInf
  | NaN => NaN
  end.

(** [a + b]: opposite infinities add up to NaN. *)
Definition num_add (a b : num) : num :=
  match a, b with
  | NaN, _ | _, NaN => NaN
  | Fin x, Fin y => fin (x + y)%Q
  | PInf, NInf | NInf, PInf => NaN
  | PInf, _ | _, PInf => PInf
  | NInf, _ | _, NInf => NInf
  end.

Definition num_sub (a b : num) : num := num_add a (num_neg b).

(** The sign of a number: [Some Gt], [Some Eq], [Some Lt], or [None] for NaN. *)
Definition num_sign (a : num) : option comparison :=
  match a with
  | Fin q => Some (q ?= 0)%Q
  | PInf => Some Gt
  | NInf => Some Lt
  | NaN => None
  end.

(** [a * b]: infinity times zero is NaN. *)
Definition num_mul (a b : num) : num :=
  match a, b with
  | NaN, _ | _, NaN => NaN
  | Fin x, Fin y => fin (x * y)%Q
  | _, _ =>
      match num_sign a, num_sign b with
      | Some Eq, _ | _, Some Eq => NaN
      | Some Gt, Some Gt | Some Lt, Some Lt => PInf
      | _, _ => NInf
      end
  end.

(** [a / b]: a non-zero number over zero is an infinity, zero over zero and
    infinity over infinity are NaN, and nothing is raised. *)
Definition num_div (a b : num) : num :=
  match a, b with
  | NaN, _ | _, NaN => NaN
  | Fin x, Fin y =>
      if Qeq_bool y 0 then
        match (x ?= 0)%Q with Gt => PInf | Lt => NInf | Eq => NaN end
      else fin (x / y)%Q
  | Fin _, _ => Fin 0%Q
  | _, Fin y =>
      match num_sign a, (y ?= 0)%Q with
      | Some Gt, Lt | Some Lt, (Gt | Eq) => NInf
      | _, _ => PInf
      end
  | _, _ => NaN
  end.

(** [a > b]; false when either side is NaN. *)
Definition num_gt (a b : num) : bool :=
  match a, b with
  | NaN, _ | _, NaN => false
  | Fin x, Fin y => negb (Qle_bool x y)
  | PInf, PInf => false
  | PInf, _ => true
  | _, NInf => match a with NInf => false | _ => true end
  | _, _ => false
  end.

(** [a <= b]; false when either side is NaN. *)
Definition num_le (a b : num) : bool :=
  match a, b with
  | NaN, _ | _, NaN => false
  | _, _ => negb (num_gt a b)
  end.

Definition isFinite (a : num) : bool := match a with Fin _ => true | _ => false end.

(** [parseFloat(x.toFixed(digits))]: the nearest multiple of [10^-digits],
    ties away from zero; the special values are printed and read back. *)
Definition roundFixed (q : Q) (digits : nat) : Q :=
  let scale := inject_Z (10 ^ Z.of_nat digits) in
  let n := Qfloor (Qabs q * scale + (1 # 2))%Q in
  Qred ((if Qle_bool 0 q then inject_Z n else - inject_Z n) / scale)%Q.

Definition toFixed_value (a : num) (digits : nat) : num :=
  match a with
  | Fin q => Fin (roundFixed q digits)
  | _ => a
  end.

(** Text built from string pieces and printed numbers. How a number is
    printed ([String(x)], [x.toFixed(digits)]) is kept symbolic. *)
Inductive piece :=
  | Str (s : string)
  | NumStr (x : num)
  | FixedStr (x : num) (digits : nat).

Definition text := list piece.

(* ===================================================================== *)
(** * HealthScoreCalculator: [createRadarChartData]                       *)
(* ===================================================================== *)

(** [sera_settings.systemSettings.seraSettings.healthMetrics]. *)
Record HealthMetrics := {
  Builders : num;
  Inventory : num;
  Latency : num;
  RPS : num;
  Success : num;
  Uptime : num
}.

Record Metric := {
  subject : string;
  description : text;
  actual : text;
  metric_value : num;
  cap : num
}.

(** [node_data.reduce((acc, item) => acc + item.response_time, 0)]. *)
Definition sumResponseTime (node_data : list TxLog) : num :=
  fold_left (fun acc item => num_add acc (Fin (response_time item)))
    node_data (Fin 0%Q).

Definition hundred : num := Fin 100%Q.

(** [createRadarChartData(node_data, startTimestamp, endTimestamp,
    sera_settings)]; [healthMetrics] is the object
    [sera_settings.systemSettings.seraSettings.healthMetrics] that the
    function destructures, and [parseFloat] of a number is that number. *)
Definition createRadarChartData (node_data : list TxLog)
    (startTimestamp endTimestamp : Q) (healthMetrics : HealthMetrics)
    : list Metric :=
  let totalRequests := num_of_nat (length node_data) in
  let successfulRequests :=
    num_of_nat (countWhere (fun item => status (response item) =? 200) node_data) in
  let uptime :=
    num_mul
      (num_div
         (num_sub totalRequests
            (num_of_nat
               (countWhere (fun item => 400 <=? status (response item)) node_data)))
         totalRequests)
      hundred in
  let latency := num_div (sumResponseTime node_data) totalRequests in
  let timePeriodInSeconds := num_sub (Fin endTimestamp) (Fin startTimestamp) in
  let rps := num_mul (num_div totalRequests timePeriodInSeconds) hundred in
  let successRate := num_mul (num_div successfulRequests totalRequests) hundred in
  let '{| Builders := Builders; Inventory := Inventory; Latency := Latency;
          RPS := RPS; Success := Success; Uptime := Uptime |} := healthMetrics in
  [ {| subject := "RPS";
       description := [Str "Percent of overall RPS"];
       actual := [FixedStr rps 5; Str " rps"];
       metric_value := num_mul (num_div (toFixed_value rps 5) RPS) hundred;
       cap := hundred |};
    {| subject := "Uptime";
       description :=
         [Str "Percent of time since last restart that this has been available"];
       actual := [NumStr (num_mul (num_div uptime Uptime) hundred); Str "%"];
       metric_value := num_mul (num_div uptime Uptime) hundred;
       cap := hundred |};
    {| subject := "Success";
       description := [Str "Percent of responses that are 200 (Status Ok)"];
       actual := [NumStr successRate; Str "%"];
       metric_value := successRate;
       cap := hundred |};
    {| subject := "Inventory";
       description := [Str "Percent of OAS documentation that have descriptions"];
       actual := [Str "100%"];
       metric_value := hundred;
       cap := Inventory |};
    {| subject := "Builders";
       description := [Str "Percent of endpoints that have builders setup"];
       actual := [Str "100%"];
       metric_value := hundred;
       cap := Builders |};
    {| subject := "Latency";
       description :=
         [Str "Average Latency of requests that are above "; NumStr Latency;
          Str "ms"];
       actual := [FixedStr latency 2; Str "ms"];
       metric_value :=
         (let ratio := num_mul (num_div Latency latency) hundred in
          if num_gt ratio hundred then hundred else toFixed_value ratio 2);
       cap := hundred |} ].

(** A sample record with a given response status and response time. *)
Definition mkTimed (st : Z) (rt : Q) : TxLog :=
  {| ts := 0; hostname := "h"; path := "/p"; method := "GET";
     response := {| status := st |}; response_time := rt;
     session_analytics := {| ip_address := "1.2.3.4" |} |}.

(** Settings in which every threshold is [x]. *)
Definition mkMetrics (x : num) : HealthMetrics :=
  {| Builders := x; Inventory := x; Latency := x; RPS := x; Success := x;
     Uptime := x |}.

(** The value of the metric with a given subject. *)
Definition valueOf (subj : string) (metrics : list Metric) : option num :=
  option_map metric_value
    (List.find (fun m => String.eqb (subject m) subj) metrics).

(** [latency] of [createRadarChartData]: the mean response time. *)
Definition averageLatency (node_data : list TxLog) : num :=
  num_div (sumResponseTime node_data) (num_of_nat (length node_data)).

(** The display text of the metric with a given subject. *)
Definition actualOf (subj : string) (metrics : list Metric) : option text :=
  option_map actual
    (List.find (fun m => String.eqb (subject m) subj) metrics).

(** The Latency value as a function of the threshold and the mean. *)
Definition clampLatency (threshold latency : num) : num :=
  let ratio := num_mul (num_div threshold latency) hundred in
  if num_gt ratio hundred then hundred else toFixed_value ratio 2.

(** [rps] of [createRadarChartData]: requests per second, times 100. *)
Definition scaledRate (node_data : list TxLog) (startTimestamp endTimestamp : Q)
    : num :=
  num_mul
    (num_div (num_of_nat (length node_data))
       (num_sub (Fin endTimestamp) (Fin startTimestamp)))
    hundred.

(** The length of a period under an alignment, in milliseconds; a month
    has at most 31 days. *)
Definition periodLengthBound (a : Alignment) : Z :=
  match a with
  | Hourly => msPerHour
  | Daily => msPerDay
  | Weekly => 7 * msPerDay
  | Monthly => 31 * msPerDay
  end.

(** The sum of two buckets of the same period. *)
Definition mergeBuckets (b1 b2 : Bucket) : Bucket :=
  {| name := name b1; req := req b1 + req b2; error := error b1 + error b2 |}.

(** The labels for which [addItem] calls [getNodeIndex], in call order. *)
Definition labelsOf (item : TxLog) : list string :=
  [ ip_address (session_analytics item); apiType; hostname item; path item;
    method item ].

(** The two ends of a link, and the sum of the values of a list of links. *)
Definition linkEnds (l : Link) : jsval * jsval := (source l, target l).

Definition totalWeight (links : list Link) : Z :=
  fold_right (fun l acc => value l + acc) 0 links.

(** [Number.isNaN(a)]. *)
Definition isNaN (a : num) : bool :=
  match a with
  | NaN => true
  | _ => false
  end.

(* ===================================================================== *)
(** * The handler of [GET /manage/analytics]                              *)
(* ===================================================================== *)

(** [d.setHours(h)] and [d.setMonth(m)] with one argument: the other
    fields of the date are kept, and a day of the month that the target
    month does not have runs over into the next month. *)
Definition setHours (t : Date) (hour : Z) : Date :=
  MakeDate (Day t)
    (hour * msPerHour + getMinutes t * 60000 + getSeconds t * 1000 +
     getMilliseconds t).

Definition setMonth1 (t : Date) (m : Z) : Date := setMonth t m (getDate t).

(** [d.getTime() / 1000]. *)
Definition secondsOf (t : Date) : Q := inject_Z t / 1000.

(** [request.query]: each parameter is a string or is absent. *)
Record RequestQuery := {
  q_period : option string;
  q_host : option string;
  q_startDate : option string;
  q_endDate : option string
}.

(** The truth value of a query parameter: an absent parameter and the
    empty string are falsy. *)
Definition truthy (x : option string) : bool :=
  match x with
  | Some s => negb (String.eqb s "")
  | None => false
  end.

(** [String(x)], as [parseFloat] applies it to its argument. *)
Definition stringOf (x : option string) : string :=
  match x with
  | Some s => s
  | None => "undefined"
  end.

(** A [case] of the [switch]: strict equality with a string literal. *)
Definition periodIs (period : option string) (literal : string) : bool :=
  match period with
  | Some p => String.eqb p literal
  | None => false
  end.

(** The outcome of the [switch]: the two timestamps, or the reply that
    ends the request. *)
Inductive Selected :=
  | Window (startTimestamp endTimestamp : num)
  | BadRequest (message : string).

(** The [switch] of the handler. [currentDate] is the first reading of the
    clock and [now] the second one, of [endTimestamp]. *)
Definition selectWindow (parseFloat : string -> num) (query : RequestQuery)
    (currentDate now : Date) : Selected :=
  let period := q_period query in
  if periodIs period "hourly" then
    Window (Fin (secondsOf (setHours currentDate (getHours currentDate - 5))))
           (Fin (secondsOf now))
  else if periodIs period "daily" then
    Window (Fin (secondsOf (setDate currentDate (getDate currentDate - 5))))
           (Fin (secondsOf now))
  else if periodIs period "weekly" then
    Window (Fin (secondsOf (setDate currentDate (getDate currentDate - 7 * 5))))
           (Fin (secondsOf now))
  else if periodIs period "monthly" then
    Window (Fin (secondsOf (setMonth1 currentDate (getMonth currentDate - 5))))
           (Fin (secondsOf now))
  else if periodIs period "custom" then
    if negb (truthy (q_startDate query)) || negb (truthy (q_endDate query)) then
      BadRequest "Custom period requires startDate and endDate"
    else
      Window (parseFloat (stringOf (q_startDate query)))
             (parseFloat (stringOf (q_endDate query)))
  else
    Window (Fin (secondsOf (setMonth1 currentDate (getMonth currentDate - 1))))
           (Fin (secondsOf now)).

(** The filter [{ ts: { $gte, $lte }, hostname }] given to [TX_LOGS.find];
    [hostname] is set when [host] is truthy. *)
Record LogQuery := {
  ts_gte : Q;
  ts_lte : Q;
  hostname_is : option string
}.

Definition buildQuery (startTimestamp endTimestamp : Q) (host : option string)
    : LogQuery :=
  {| ts_gte := startTimestamp;
     ts_lte := endTimestamp;
     hostname_is := if truthy host then host else None |}.

Definition matchesQuery (query : LogQuery) (item : TxLog) : bool :=
  Qle_bool (ts_gte query) (inject_Z (ts item)) &&
  Qle_bool (inject_Z (ts item)) (ts_lte query) &&
  match hostname_is query with
  | Some h => String.eqb (hostname item) h
  | None => true
  end.

(** [TX_LOGS.find(query)] over the documents of the collection. *)
Definition TX_LOGS_find (collection : list TxLog) (query : LogQuery) : list TxLog :=
  List.filter (matchesQuery query) collection.

(** The period value that [organizeData] receives. It is compared with
    four non-empty literals only, so an absent value takes the branches
    of the empty string. *)
Definition periodArg (period : option string) : string :=
  match period with
  | Some p => p
  | None => ""
  end.

Inductive Reply :=
  | Charts (endpointAreaChart : list Bucket) (endpointSankeyChart : SankeyData)
      (endpointRadialChart : list Metric)
  | Status400 (message : string)
  | Status500.

(** The handler. [collection] holds the documents of [TX_LOGS];
    [sera_settings] is the health metrics of the settings document, [None]
    when [findOne] returns [null] or the document lacks them, in which case
    [createRadarChartData] throws and the [catch] replies 500 (the message,
    that of the error, is left out). The clock is read four times:
    [currentDate], [now], and the two readings of [organizeData]. The
    result is [None] for a custom window whose bounds are not finite
    numbers: what the query does then depends on the schema of [TX_LOGS]. *)
Definition handler (parseFloat : string -> num) (query : RequestQuery)
    (collection : list TxLog) (sera_settings : option HealthMetrics)
    (currentDate now areaDate areaEnd : Date) : option Reply :=
  match selectWindow parseFloat query currentDate now with
  | BadRequest message => Some (Status400 message)
  | Window (Fin startTimestamp) (Fin endTimestamp) =>
      let node_data :=
        TX_LOGS_find collection (buildQuery startTimestamp endTimestamp (q_host query)) in
      let endpointAreaChart :=
        organizeData node_data (periodArg (q_period query)) areaDate areaEnd in
      let endpointSankeyChart := createSankeyData node_data in
      match sera_settings with
      | Some healthMetrics =>
          Some (Charts endpointAreaChart endpointSankeyChart
                  (createRadarChartData node_data startTimestamp endTimestamp
                     healthMetrics))
      | None => Some Status500
      end
  | Window _ _ => None
  end.

(** The start of the window of a request whose period is not custom. *)
Definition windowStart (period : option string) (currentDate : Date) : Date :=
  if periodIs period "hourly" then setHours currentDate (getHours currentDate - 5)
  else if periodIs period "daily" then setDate currentDate (getDate currentDate - 5)
  else if periodIs period "weekly" then
    setDate currentDate (getDate currentDate - 7 * 5)
  else if periodIs period "monthly" then
    setMonth1 currentDate (getMonth currentDate - 5)
  else setMonth1 currentDate (getMonth currentDate - 1).
(* ===================================================================== *)
(** * Calendar lemmas                                                     *)
(* ===================================================================== *)

Lemma DayFromYear_succ y :
  DayFromYear (y + 1) = DayFromYear y + 365 + (if InLeapYear y then 1 else 0).
Proof.
  unfold DayFromYear, InLeapYear.
  replace (y + 1 - 1969) with (y - 1969 + 1) by lia.
  replace (y + 1 - 1901) with (y - 1901 + 1) by lia.
  replace (y + 1 - 1601) with (y - 1601 + 1) by lia.
  destruct (Z.eqb_spec (y mod 4) 0), (Z.eqb_spec (y mod 100) 0),
    (Z.eqb_spec (y mod 400) 0); simpl; Z.div_mod_to_equations; lia.
Qed.

Lemma YearFromDay_spec d :
  DayFromYear (YearFromDay d) <= d < DayFromYear (YearFromDay d + 1).
Proof.
  unfold YearFromDay.
  set (y0 := 1970 + d * 400 / 146097).
  assert (Hy : 146097 * (y0 - 1970) <= 400 * d < 146097 * (y0 - 1970) + 146097)
    by (unfold y0; Z.div_mod_to_equations; lia).
  clearbody y0.
  destruct (Z.ltb_spec d (DayFromYear y0)) as [H1|H1].
  - replace (y0 - 1 + 1) with y0 by lia. split; [|lia].
    unfold DayFromYear in *. Z.div_mod_to_equations. lia.
  - destruct (Z.ltb_spec d (DayFromYear (y0 + 1))) as [H2|H2]; [lia|].
    split; [lia|].
    unfold DayFromYear in *. Z.div_mod_to_equations. lia.
Qed.

Lemma DayFromYear_mono a b :
  a <= b -> DayFromYear a + 365 * (b - a) <= DayFromYear b.
Proof. intros H. unfold DayFromYear. Z.div_mod_to_equations. lia. Qed.

Lemma YearFromDay_unique y d :
  DayFromYear y <= d < DayFromYear (y + 1) -> YearFromDay d = y.
Proof.
  intros Hy. pose proof (YearFromDay_spec d) as Hs.
  destruct (Z.lt_trichotomy (YearFromDay d) y) as [Hlt|[Heq|Hgt]]; [|done|].
  - pose proof (DayFromYear_mono (YearFromDay d + 1) y ltac:(lia)). lia.
  - pose proof (DayFromYear_mono (y + 1) (YearFromDay d) ltac:(lia)). lia.
Qed.

Lemma MonthStart_succ mi :
  MonthStart (mi + 1) =
  MonthStart mi + DaysInMonth (mi mod 12) (InLeapYear (mi / 12)).
Proof.
  unfold MonthStart, DaysInMonth.
  assert (Hm : 0 <= mi mod 12 < 12) by (apply Z.mod_pos_bound; lia).
  destruct (Z.eq_dec (mi mod 12) 11) as [E|E].
  - assert (E1 : (mi + 1) / 12 = mi / 12 + 1) by (Z.div_mod_to_equations; lia).
    assert (E2 : (mi + 1) mod 12 = 0) by (Z.div_mod_to_equations; lia).
    rewrite E1, E2, E, DayFromYear_succ.
    unfold DaysBeforeMonth.
    destruct (InLeapYear (mi / 12)), (InLeapYear (mi / 12 + 1)); simpl; lia.
  - assert (E1 : (mi + 1) / 12 = mi / 12) by (Z.div_mod_to_equations; lia).
    assert (E2 : (mi + 1) mod 12 = mi mod 12 + 1) by (Z.div_mod_to_equations; lia).
    rewrite E1, E2. lia.
Qed.

Lemma DaysInMonth_bounds m leap :
  0 <= m < 12 -> 28 <= DaysInMonth m leap <= 31.
Proof.
  intros Hm. unfold DaysInMonth.
  assert (m = 0 \/ m = 1 \/ m = 2 \/ m = 3 \/ m = 4 \/ m = 5 \/ m = 6 \/
          m = 7 \/ m = 8 \/ m = 9 \/ m = 10 \/ m = 11) as Hc by lia.
  destruct leap; repeat (destruct Hc as [Hc|Hc]); subst m;
    unfold DaysBeforeMonth; simpl; lia.
Qed.

Lemma MonthStart_step mi : 28 <= MonthStart (mi + 1) - MonthStart mi <= 31.
Proof.
  rewrite MonthStart_succ.
  pose proof (DaysInMonth_bounds (mi mod 12) (InLeapYear (mi / 12))
                ltac:(apply Z.mod_pos_bound; lia)). lia.
Qed.

Lemma MonthStart_gap a n :
  0 <= n -> 28 * n <= MonthStart (a + n) - MonthStart a <= 31 * n.
Proof.
  revert n. apply (natlike_ind (fun n => 28 * n <= MonthStart (a + n) - MonthStart a <= 31 * n)).
  - rewrite Z.add_0_r. lia.
  - intros n Hn IH. replace (a + Z.succ n) with (a + n + 1) by lia.
    pose proof (MonthStart_step (a + n)). lia.
Qed.

Lemma MonthStart_lt a b : a < b -> MonthStart a < MonthStart b.
Proof.
  intros H. pose proof (MonthStart_gap a (b - a) ltac:(lia)) as Hg.
  replace (a + (b - a)) with b in Hg by lia. lia.
Qed.

Lemma MonthIndex_spec d :
  MonthStart (MonthIndex d) <= d < MonthStart (MonthIndex d + 1).
Proof.
  rewrite MonthStart_succ. unfold MonthIndex, MonthStart.
  pose proof (YearFromDay_spec d) as Hy.
  set (y := YearFromDay d) in *. clearbody y.
  rewrite DayFromYear_succ in Hy.
  set (dy := d - DayFromYear y) in *.
  assert (Hdy : 0 <= dy < 365 + (if InLeapYear y then 1 else 0)) by lia.
  assert (Hd : d = DayFromYear y + dy) by lia.
  clearbody dy. subst d.
  assert (Hb : 0 <= MonthFromDayInYear dy (InLeapYear y) < 12).
  { unfold MonthFromDayInYear.
    repeat match goal with |- context [if ?a <? ?b then _ else _] =>
      destruct (Z.ltb_spec a b) end; lia. }
  assert (E1 : (12 * y + MonthFromDayInYear dy (InLeapYear y)) / 12 = y)
    by (Z.div_mod_to_equations; lia).
  assert (E2 : (12 * y + MonthFromDayInYear dy (InLeapYear y)) mod 12 =
               MonthFromDayInYear dy (InLeapYear y))
    by (Z.div_mod_to_equations; lia).
  rewrite E1, E2. clear E1 E2 Hb.
  unfold MonthFromDayInYear, DaysInMonth.
  destruct (InLeapYear y); cbv zeta;
  repeat match goal with |- context [if ?a <? ?b then _ else _] =>
      destruct (Z.ltb_spec a b) end; unfold DaysBeforeMonth; simpl; lia.
Qed.

Lemma MonthIndex_unique m d :
  MonthStart m <= d < MonthStart (m + 1) -> MonthIndex d = m.
Proof.
  intros Hm. pose proof (MonthIndex_spec d) as Hs.
  destruct (Z.lt_trichotomy (MonthIndex d) m) as [Hlt|[Heq|Hgt]]; [|done|].
  - destruct (Z.eq_dec (MonthIndex d + 1) m) as [E|Hne].
    + rewrite E in Hs. lia.
    + pose proof (MonthStart_lt (MonthIndex d + 1) m ltac:(lia)). lia.
  - destruct (Z.eq_dec (m + 1) (MonthIndex d)) as [E|Hne].
    + rewrite E in Hm. lia.
    + pose proof (MonthStart_lt (m + 1) (MonthIndex d) ltac:(lia)). lia.
Qed.
(* ===================================================================== *)
(** * Strings of digits                                                   *)
(* ===================================================================== *)

Lemma allDigits_app s1 s2 :
  allDigits s1 = true -> allDigits s2 = true -> allDigits (s1 +:+ s2) = true.
Proof.
  induction s1 as [|c s1 IH]; simpl; [done|].
  intros [Hc H1]%andb_true_iff H2. rewrite Hc. simpl. by apply IH.
Qed.

Lemma allDigits_zeros n : allDigits (zeros n) = true.
Proof. induction n; simpl; done. Qed.

Lemma allDigits_uint d : allDigits (NilEmpty.string_of_uint d) = true.
Proof. induction d; simpl; done. Qed.

Lemma allDigits_string_of_N n : allDigits (string_of_N n) = true.
Proof.
  unfold string_of_N, NilZero.string_of_uint.
  destruct (N.to_uint n) eqn:E; try reflexivity;
    rewrite <- E; apply allDigits_uint.
Qed.

Lemma allDigits_addLeadingZeros n k :
  0 <= n -> allDigits (addLeadingZeros n k) = true.
Proof.
  intros Hn. unfold addLeadingZeros, padStart0.
  destruct (Z.ltb_spec n 0); [lia|].
  apply allDigits_app; [reflexivity|].
  apply allDigits_app; [apply allDigits_zeros|apply allDigits_string_of_N].
Qed.

(** Two strings without the character [c], each followed by [c]: the
    strings and the rests agree. *)
Lemma split_at_char c s1 s2 r1 r2 :
  lacks c s1 = true -> lacks c s2 = true ->
  s1 +:+ String c r1 = s2 +:+ String c r2 -> s1 = s2 /\ r1 = r2.
Proof.
  revert s2.
  induction s1 as [|a s1 IH]; intros [|b s2]; simpl; intros H1 H2 E.
  - by inversion E.
  - inversion E; subst. rewrite Ascii.eqb_refl in H2. discriminate H2.
  - inversion E; subst. rewrite Ascii.eqb_refl in H1. discriminate H1.
  - inversion E; subst.
    apply andb_true_iff in H1 as [_ H1]. apply andb_true_iff in H2 as [_ H2].
    destruct (IH s2 H1 H2 ltac:(assumption)) as [-> ->]. done.
Qed.

Lemma allDigits_lacks c s :
  isDigit c = false -> allDigits s = true -> lacks c s = true.
Proof.
  intros Hc. induction s as [|a s IH]; simpl; [done|].
  intros [Ha Hs]%andb_true_iff. rewrite IH by exact Hs.
  destruct (Ascii.eqb_spec a c) as [->|_]; [congruence|done].
Qed.

Lemma split_at_nondigit c s1 s2 r1 r2 :
  isDigit c = false -> allDigits s1 = true -> allDigits s2 = true ->
  s1 +:+ String c r1 = s2 +:+ String c r2 -> s1 = s2 /\ r1 = r2.
Proof.
  intros Hc H1 H2. apply split_at_char; by apply allDigits_lacks.
Qed.

Lemma lacks_app_false c s r : lacks c (s +:+ String c r) = false.
Proof.
  induction s as [|a s IH]; simpl.
  - by rewrite Ascii.eqb_refl.
  - rewrite IH. apply andb_false_r.
Qed.

Lemma N_to_uint_nonnil n : N.to_uint n <> Decimal.Nil.
Proof.
  destruct n; simpl; [discriminate|apply DecimalPos.Unsigned.to_uint_nonnil].
Qed.

Lemma iter_D0_nonnil k d :
  d <> Decimal.Nil -> Nat.iter k Decimal.D0 d <> Decimal.Nil.
Proof. destruct k; simpl; [done|discriminate]. Qed.

Lemma NilZero_NilEmpty d :
  d <> Decimal.Nil -> NilZero.string_of_uint d = NilEmpty.string_of_uint d.
Proof. destruct d; done. Qed.

Lemma zeros_uint k d :
  d <> Decimal.Nil ->
  zeros k +:+ NilZero.string_of_uint d =
  NilZero.string_of_uint (Nat.iter k Decimal.D0 d).
Proof.
  intros Hd. induction k as [|k IH]; [done|].
  change (zeros (S k) +:+ NilZero.string_of_uint d)
    with (String "0" (zeros k +:+ NilZero.string_of_uint d)).
  rewrite IH, (NilZero_NilEmpty _ (iter_D0_nonnil k d Hd)). reflexivity.
Qed.

Lemma of_uint_zeros k d : N.of_uint (Nat.iter k Decimal.D0 d) = N.of_uint d.
Proof. induction k; simpl; done. Qed.

Lemma parseDecimal_padStart0 n k :
  parseDecimal (padStart0 (string_of_N n) k) = Some n.
Proof.
  unfold parseDecimal, padStart0, string_of_N.
  rewrite zeros_uint by apply N_to_uint_nonnil.
  rewrite NilZero.usu.
  - simpl. by rewrite of_uint_zeros, DecimalN.Unsigned.of_to.
  - apply iter_D0_nonnil, N_to_uint_nonnil.
Qed.

Lemma addLeadingZeros_inj n m k :
  0 <= n -> 0 <= m -> addLeadingZeros n k = addLeadingZeros m k -> n = m.
Proof.
  intros Hn Hm. unfold addLeadingZeros.
  destruct (Z.ltb_spec n 0); [lia|]. destruct (Z.ltb_spec m 0); [lia|].
  intros E.
  change (padStart0 (string_of_N (Z.to_N (Z.abs n))) k =
          padStart0 (string_of_N (Z.to_N (Z.abs m))) k) in E.
  apply (f_equal parseDecimal) in E. rewrite !parseDecimal_padStart0 in E.
  inversion E. lia.
Qed.

Lemma parseDecimal_string_of_N n : parseDecimal (string_of_N n) = Some n.
Proof. exact (parseDecimal_padStart0 n 0). Qed.

Lemma string_of_N_inj n m : string_of_N n = string_of_N m -> n = m.
Proof.
  intros E. apply (f_equal parseDecimal) in E.
  rewrite !parseDecimal_string_of_N in E. by inversion E.
Qed.
(* ===================================================================== *)
(** * date-fns in closed form                                             *)
(* ===================================================================== *)

Lemma Day_MakeDate day time :
  0 <= time < msPerDay -> Day (MakeDate day time) = day.
Proof.
  intros H. unfold Day, MakeDate, msPerDay in *. Z.div_mod_to_equations. lia.
Qed.

Lemma TimeWithinDay_MakeDate day time :
  0 <= time < msPerDay -> TimeWithinDay (MakeDate day time) = time.
Proof.
  intros H. unfold TimeWithinDay, MakeDate, msPerDay in *.
  Z.div_mod_to_equations. lia.
Qed.

Lemma TimeWithinDay_bounds t : 0 <= TimeWithinDay t < msPerDay.
Proof. unfold TimeWithinDay. apply Z.mod_pos_bound. reflexivity. Qed.

Lemma Day_TimeWithinDay t : t = Day t * msPerDay + TimeWithinDay t.
Proof. unfold Day, TimeWithinDay, msPerDay. Z.div_mod_to_equations. lia. Qed.

Lemma MonthIndex_MonthStart m : MonthIndex (MonthStart m) = m.
Proof. apply MonthIndex_unique. pose proof (MonthStart_step m). lia. Qed.

Lemma MakeDay_of_date t n :
  MakeDay (getFullYear t) (getMonth t) n = MonthStart (MonthIndex (Day t)) + n - 1.
Proof.
  unfold MakeDay, getFullYear, getMonth.
  replace (12 * (MonthIndex (Day t) / 12) + MonthIndex (Day t) mod 12)
    with (MonthIndex (Day t)) by (Z.div_mod_to_equations; lia).
  reflexivity.
Qed.

Lemma setDate_eq t n :
  setDate t n =
  MakeDate (MonthStart (MonthIndex (Day t)) + n - 1) (TimeWithinDay t).
Proof. unfold setDate. by rewrite MakeDay_of_date. Qed.

Lemma addDays_eq t a : addDays t a = t + a * msPerDay.
Proof.
  unfold addDays. destruct (Z.eqb_spec a 0) as [->|_]; [lia|].
  rewrite setDate_eq. unfold getDate, MakeDate.
  rewrite (Day_TimeWithinDay t) at 5. lia.
Qed.

Lemma subDays_eq t : subDays t 1 = t - msPerDay.
Proof. unfold subDays. rewrite addDays_eq. lia. Qed.

Lemma subWeeks_eq t : subWeeks t 1 = t - 7 * msPerDay.
Proof. unfold subWeeks, addWeeks. rewrite addDays_eq. lia. Qed.

Lemma subHours_eq t : subHours t 1 = t - msPerHour.
Proof. unfold subHours, addHours, addMilliseconds. lia. Qed.

Lemma startOfDay_eq t : startOfDay t = Day t * msPerDay.
Proof. unfold startOfDay, setHours0, MakeDate. lia. Qed.

Lemma startOfHour_eq t : startOfHour t = t / msPerHour * msPerHour.
Proof.
  unfold startOfHour, setMinutes0, MakeDate, getHours, Day, TimeWithinDay,
    msPerDay, msPerHour.
  Z.div_mod_to_equations. lia.
Qed.

Lemma startOfMonth_eq t :
  startOfMonth t = MonthStart (MonthIndex (Day t)) * msPerDay.
Proof.
  unfold startOfMonth, setHours0. rewrite setDate_eq.
  rewrite Day_MakeDate by apply TimeWithinDay_bounds.
  unfold MakeDate. lia.
Qed.

Lemma startOfWeek_eq t : startOfWeek t 1 = weekStartDay (Day t) * msPerDay.
Proof.
  unfold startOfWeek, setHours0. rewrite setDate_eq.
  rewrite Day_MakeDate by apply TimeWithinDay_bounds.
  unfold getDate, getDay, MakeDate, weekStartDay, msPerDay.
  destruct (Z.ltb_spec ((Day t + 4) mod 7) 1); Z.div_mod_to_equations; lia.
Qed.

(** [subMonths date 1] lies in the month before the month of [date]. *)
Lemma subMonths_MonthIndex t :
  MonthIndex (Day (subMonths t 1)) = MonthIndex (Day t) - 1.
Proof.
  unfold subMonths, addMonths. change (- (1)) with (-1).
  change (-1 =? 0) with false. cbv iota zeta.
  set (mi := MonthIndex (Day t)).
  assert (Hend : setMonth t (getMonth t + -1 + 1) 0 =
                 MakeDate (MonthStart mi - 1) (TimeWithinDay t)).
  { unfold setMonth. replace (getMonth t + -1 + 1) with (getMonth t) by lia.
    rewrite MakeDay_of_date. unfold mi. f_equal. lia. }
  rewrite Hend.
  pose proof (TimeWithinDay_bounds t) as Hb.
  pose proof (MonthStart_step (mi - 1)) as Hstep.
  replace (mi - 1 + 1) with mi in Hstep by lia.
  assert (HmiE : MonthIndex (MonthStart mi - 1) = mi - 1).
  { apply MonthIndex_unique. replace (mi - 1 + 1) with mi by lia. lia. }
  assert (HgdE : getDate (MakeDate (MonthStart mi - 1) (TimeWithinDay t)) =
                 MonthStart mi - MonthStart (mi - 1)).
  { unfold getDate. rewrite Day_MakeDate by exact Hb. rewrite HmiE. lia. }
  rewrite HgdE.
  destruct (Z.leb_spec (MonthStart mi - MonthStart (mi - 1)) (getDate t)) as [Hle|Hgt].
  - rewrite Day_MakeDate by exact Hb. exact HmiE.
  - unfold setFullYear.
    rewrite MakeDay_of_date, Day_MakeDate by exact Hb.
    rewrite Day_MakeDate by exact Hb. rewrite HmiE.
    apply MonthIndex_unique. replace (mi - 1 + 1) with mi by lia.
    pose proof (MonthIndex_spec (Day t)) as Hs. fold mi in Hs.
    unfold getDate in Hgt |- *. fold mi in Hgt |- *. lia.
Qed.
(* ===================================================================== *)
(** * The five period starts                                              *)
(* ===================================================================== *)

Lemma alignment_cases period :
  (period = "hourly" /\ alignment period = Hourly /\ labelFormat period = fmt_hour) \/
  (period = "daily" /\ alignment period = Daily /\ labelFormat period = fmt_iso) \/
  (period = "weekly" /\ alignment period = Weekly /\ labelFormat period = fmt_iso) \/
  (period = "monthly" /\ alignment period = Monthly /\ labelFormat period = fmt_month) \/
  (period <> "hourly" /\ period <> "daily" /\ period <> "weekly" /\
   period <> "monthly" /\ alignment period = Monthly /\
   labelFormat period = fmt_iso).
Proof.
  unfold alignment, labelFormat.
  destruct (String.eqb_spec period "hourly") as [->|Hh]; [by left|].
  destruct (String.eqb_spec period "daily") as [->|Hd]; [by right; left|].
  destruct (String.eqb_spec period "weekly") as [->|Hw]; [by right; right; left|].
  destruct (String.eqb_spec period "monthly") as [->|Hm];
    [by right; right; right; left|].
  by right; right; right; right.
Qed.

Lemma getStartOfPeriod_alignment date period :
  getStartOfPeriod date period =
  match alignment period with
  | Hourly => startOfHour date
  | Daily => startOfDay date
  | Weekly => startOfWeek date 1
  | Monthly => startOfMonth date
  end.
Proof.
  unfold getStartOfPeriod, alignment.
  repeat match goal with |- context [String.eqb ?a ?b] =>
    destruct (String.eqb a b) end; reflexivity.
Qed.

Lemma previousPeriod_alignment current period :
  previousPeriod current period =
  match alignment period with
  | Hourly => subHours current 1
  | Daily => subDays current 1
  | Weekly => subWeeks current 1
  | Monthly => subMonths current 1
  end.
Proof.
  unfold previousPeriod, alignment.
  repeat match goal with |- context [String.eqb ?a ?b] =>
    destruct (String.eqb a b) end; reflexivity.
Qed.

Lemma getPreviousPeriods_loop_spec n current period acc :
  getPreviousPeriods_loop n current period acc =
  acc ++ map (fun j => getStartOfPeriod
                         (Nat.iter j (fun c => previousPeriod c period) current)
                         period)
             (seq 0 n).
Proof.
  revert current acc. induction n as [|n IH]; intros current acc; simpl.
  - by rewrite app_nil_r.
  - rewrite IH, <- app_assoc. simpl. do 2 f_equal.
    rewrite <- seq_shift, map_map. apply map_ext. intros j.
    f_equal. clear. induction j; simpl; [done|]. by rewrite IHj.
Qed.

(** The start of the period reached after [k] steps back. *)
Lemma getStartOfPeriod_iter period now (k : nat) :
  getStartOfPeriod (Nat.iter k (fun c => previousPeriod c period) now) period =
  periodStart (alignment period) now (Z.of_nat k).
Proof.
  rewrite getStartOfPeriod_alignment.
  destruct (alignment period) eqn:Ea.
  - assert (Hit : Nat.iter k (fun c => previousPeriod c period) now =
                  now - Z.of_nat k * msPerHour).
    { induction k as [|k IH]; [simpl; lia|].
      rewrite Nat.iter_succ, IH, previousPeriod_alignment, Ea, subHours_eq. lia. }
    rewrite Hit, startOfHour_eq. unfold periodStart. f_equal.
    unfold msPerHour. Z.div_mod_to_equations. lia.
  - assert (Hit : Nat.iter k (fun c => previousPeriod c period) now =
                  now - Z.of_nat k * msPerDay).
    { induction k as [|k IH]; [simpl; lia|].
      rewrite Nat.iter_succ, IH, previousPeriod_alignment, Ea, subDays_eq. lia. }
    rewrite Hit, startOfDay_eq. unfold periodStart. f_equal.
    unfold Day, msPerDay. Z.div_mod_to_equations. lia.
  - assert (Hit : Nat.iter k (fun c => previousPeriod c period) now =
                  now - 7 * Z.of_nat k * msPerDay).
    { induction k as [|k IH]; [simpl; lia|].
      rewrite Nat.iter_succ, IH, previousPeriod_alignment, Ea, subWeeks_eq. lia. }
    rewrite Hit, startOfWeek_eq. unfold periodStart. f_equal.
    unfold weekStartDay, Day, msPerDay. Z.div_mod_to_equations. lia.
  - assert (Hit : MonthIndex (Day (Nat.iter k (fun c => previousPeriod c period) now)) =
                  MonthIndex (Day now) - Z.of_nat k).
    { induction k as [|k IH]; [simpl; lia|].
      rewrite Nat.iter_succ, previousPeriod_alignment, Ea, subMonths_MonthIndex, IH.
      lia. }
    rewrite startOfMonth_eq, Hit. reflexivity.
Qed.

Lemma getPreviousPeriods_five now period :
  getPreviousPeriods now period 5 =
  map (periodStart (alignment period) now) [4; 3; 2; 1; 0].
Proof.
  unfold getPreviousPeriods. rewrite getPreviousPeriods_loop_spec.
  rewrite (map_ext _ (fun j => periodStart (alignment period) now (Z.of_nat j)))
    by (intros; apply getStartOfPeriod_iter).
  reflexivity.
Qed.

(** Each step back gives a strictly earlier start. *)
Lemma periodStart_lt a now j k :
  j < k -> periodStart a now k < periodStart a now j.
Proof.
  intros H. destruct a; unfold periodStart.
  - unfold msPerHour. lia.
  - unfold msPerDay. lia.
  - unfold msPerDay. lia.
  - pose proof (MonthStart_lt (MonthIndex (Day now) - k)
                  (MonthIndex (Day now) - j) ltac:(lia)).
    unfold msPerDay. lia.
Qed.
(* ===================================================================== *)
(** * The labels of the five periods are distinct                         *)
(* ===================================================================== *)

Lemma Day_mul d : Day (d * msPerDay) = d.
Proof. unfold Day, msPerDay. Z.div_mod_to_equations. lia. Qed.

Lemma getHours_mul h : getHours (h * msPerHour) = h mod 24.
Proof.
  unfold getHours, TimeWithinDay, msPerDay, msPerHour.
  Z.div_mod_to_equations. lia.
Qed.

Lemma getMonth_bounds t : 0 <= getMonth t < 12.
Proof. unfold getMonth. apply Z.mod_pos_bound. reflexivity. Qed.

Lemma getDate_pos t : 1 <= getDate t.
Proof. unfold getDate. pose proof (MonthIndex_spec (Day t)). lia. Qed.

Lemma getHours_bounds t : 0 <= getHours t < 24.
Proof.
  unfold getHours, TimeWithinDay, msPerDay, msPerHour.
  Z.div_mod_to_equations. lia.
Qed.

Lemma monthAbbr_inj a b :
  0 <= a < 12 -> 0 <= b < 12 -> monthAbbr a = monthAbbr b -> a = b.
Proof.
  intros Ha Hb.
  assert (Hca : a = 0 \/ a = 1 \/ a = 2 \/ a = 3 \/ a = 4 \/ a = 5 \/ a = 6 \/
                a = 7 \/ a = 8 \/ a = 9 \/ a = 10 \/ a = 11) by lia.
  assert (Hcb : b = 0 \/ b = 1 \/ b = 2 \/ b = 3 \/ b = 4 \/ b = 5 \/ b = 6 \/
                b = 7 \/ b = 8 \/ b = 9 \/ b = 10 \/ b = 11) by lia.
  repeat (destruct Hca as [Hca|Hca]); subst a;
    repeat (destruct Hcb as [Hcb|Hcb]); subst b;
    first [reflexivity | discriminate].
Qed.

Lemma format_iso_unfold t :
  format t fmt_iso =
  format_yyyy t +:+ String "-" (format_MM t +:+ String "-" (format_dd t +:+
    String "T" (format_HH t +:+ ":" +:+ format_mm t +:+ ":" +:+
      format_ss t +:+ "." +:+ format_SSS t +:+ format_X t))).
Proof. reflexivity. Qed.

Lemma format_hour_unfold t :
  format t fmt_hour = format_HH t +:+ String ":" "00".
Proof. reflexivity. Qed.

Lemma format_month_unfold t : format t fmt_month = monthAbbr (getMonth t).
Proof. reflexivity. Qed.

Lemma allDigits_yyyy t : allDigits (format_yyyy t) = true.
Proof.
  unfold format_yyyy. apply allDigits_addLeadingZeros.
  destruct (Z.ltb_spec 0 (getFullYear t)); lia.
Qed.

(** Equal ISO labels have the same month and day of the month. *)
Lemma format_iso_fields a b :
  format a fmt_iso = format b fmt_iso ->
  getMonth a = getMonth b /\ getDate a = getDate b.
Proof.
  rewrite !format_iso_unfold. intros E.
  pose proof (getMonth_bounds a). pose proof (getMonth_bounds b).
  pose proof (getDate_pos a). pose proof (getDate_pos b).
  apply split_at_nondigit in E as [_ E];
    [|reflexivity|apply allDigits_yyyy..].
  apply split_at_nondigit in E as [Em E];
    [|reflexivity|apply allDigits_addLeadingZeros; lia..].
  apply split_at_nondigit in E as [Ed _];
    [|reflexivity|apply allDigits_addLeadingZeros; lia..].
  apply addLeadingZeros_inj in Em; [|lia..].
  apply addLeadingZeros_inj in Ed; [|lia..].
  lia.
Qed.

Lemma format_hour_fields a b :
  format a fmt_hour = format b fmt_hour -> getHours a = getHours b.
Proof.
  rewrite !format_hour_unfold. intros E.
  pose proof (getHours_bounds a). pose proof (getHours_bounds b).
  apply split_at_nondigit in E as [E _];
    [|reflexivity|apply allDigits_addLeadingZeros; lia..].
  apply addLeadingZeros_inj in E; lia.
Qed.

(** Two days less than 336 days apart with the same month of the year and
    the same day of the month are the same day. *)
Lemma same_month_date d1 d2 :
  MonthIndex d1 mod 12 = MonthIndex d2 mod 12 ->
  d1 - MonthStart (MonthIndex d1) = d2 - MonthStart (MonthIndex d2) ->
  Z.abs (d1 - d2) < 336 -> d1 = d2.
Proof.
  intros Hm Hd Habs.
  destruct (Z.lt_trichotomy (MonthIndex d1) (MonthIndex d2)) as [Hlt|[Heq|Hgt]].
  - assert (MonthIndex d1 + 12 <= MonthIndex d2) by (Z.div_mod_to_equations; lia).
    pose proof (MonthStart_gap (MonthIndex d1) (MonthIndex d2 - MonthIndex d1)
                  ltac:(lia)) as Hg.
    replace (MonthIndex d1 + (MonthIndex d2 - MonthIndex d1))
      with (MonthIndex d2) in Hg by lia. lia.
  - rewrite Heq in Hd. lia.
  - assert (MonthIndex d2 + 12 <= MonthIndex d1) by (Z.div_mod_to_equations; lia).
    pose proof (MonthStart_gap (MonthIndex d2) (MonthIndex d1 - MonthIndex d2)
                  ltac:(lia)) as Hg.
    replace (MonthIndex d2 + (MonthIndex d1 - MonthIndex d2))
      with (MonthIndex d1) in Hg by lia. lia.
Qed.

Lemma iso_labels_of_days d1 d2 :
  Z.abs (d1 - d2) < 336 ->
  format (d1 * msPerDay) fmt_iso = format (d2 * msPerDay) fmt_iso -> d1 = d2.
Proof.
  intros Habs [Hm Hd]%format_iso_fields.
  unfold getMonth, getDate in *. rewrite !Day_mul in *.
  apply same_month_date; [exact Hm|lia|exact Habs].
Qed.

Lemma hour_labels_inj h j k :
  0 <= j <= 4 -> 0 <= k <= 4 ->
  format ((h - j) * msPerHour) fmt_hour = format ((h - k) * msPerHour) fmt_hour ->
  j = k.
Proof.
  intros Hj Hk E%format_hour_fields. rewrite !getHours_mul in E.
  Z.div_mod_to_equations. lia.
Qed.

Lemma month_labels_inj m j k :
  0 <= j <= 4 -> 0 <= k <= 4 ->
  format (MonthStart (m - j) * msPerDay) fmt_month =
  format (MonthStart (m - k) * msPerDay) fmt_month ->
  j = k.
Proof.
  intros Hj Hk. rewrite !format_month_unfold.
  intros E%monthAbbr_inj; [|apply getMonth_bounds..].
  unfold getMonth in E. rewrite !Day_mul, !MonthIndex_MonthStart in E.
  Z.div_mod_to_equations. lia.
Qed.

Lemma month_iso_labels_inj m j k :
  0 <= j <= 4 -> 0 <= k <= 4 ->
  format (MonthStart (m - j) * msPerDay) fmt_iso =
  format (MonthStart (m - k) * msPerDay) fmt_iso ->
  j = k.
Proof.
  intros Hj Hk E%iso_labels_of_days.
  - destruct (Z.lt_trichotomy j k) as [Hlt|[Heq|Hgt]]; [|done|].
    + pose proof (MonthStart_lt (m - k) (m - j) ltac:(lia)). lia.
    + pose proof (MonthStart_lt (m - j) (m - k) ltac:(lia)). lia.
  - destruct (Z.le_gt_cases j k) as [Hle|Hgt].
    + pose proof (MonthStart_gap (m - k) (k - j) ltac:(lia)) as Hg.
      replace (m - k + (k - j)) with (m - j) in Hg by lia. lia.
    + pose proof (MonthStart_gap (m - j) (j - k) ltac:(lia)) as Hg.
      replace (m - j + (j - k)) with (m - k) in Hg by lia. lia.
Qed.

Lemma periodLabel_inj period now j k :
  0 <= j <= 4 -> 0 <= k <= 4 ->
  periodLabel period now j = periodLabel period now k -> j = k.
Proof.
  intros Hj Hk. unfold periodLabel.
  destruct (alignment_cases period)
    as [(_ & -> & ->)|[(_ & -> & ->)|[(_ & -> & ->)|[(_ & -> & ->)|
        (_ & _ & _ & _ & -> & ->)]]]]; unfold periodStart.
  - by apply hour_labels_inj.
  - intros E%iso_labels_of_days; lia.
  - intros E%iso_labels_of_days; lia.
  - by apply month_labels_inj.
  - by apply month_iso_labels_inj.
Qed.
(* ===================================================================== *)
(** * TimeBucketAggregator: properties                                    *)
(* ===================================================================== *)

Lemma dataMap_set_fresh (dm : DataMap) key b :
  ~ In key (map fst dm) -> dataMap_set dm key b = (dm ++ [(key, b)]).
Proof.
  induction dm as [|[k v] dm IH]; simpl; intros Hin; [done|].
  destruct (String.eqb_spec k key) as [->|Hne]; [tauto|].
  rewrite IH; tauto.
Qed.

Lemma dataMap_update_last (dm : DataMap) key b f :
  ~ In key (map fst dm) ->
  dataMap_update (dm ++ [(key, b)]) key f = (dm ++ [(key, f b)]).
Proof.
  induction dm as [|[k v] dm IH]; simpl; intros Hin.
  - by rewrite String.eqb_refl.
  - destruct (String.eqb_spec k key) as [->|Hne]; [tauto|].
    rewrite IH; tauto.
Qed.

Lemma fold_countItem (dm : DataMap) key s e rs b :
  ~ In key (map fst dm) ->
  fold_left (countItem key s e) rs (dm ++ [(key, b)]) =
  (dm ++ [(key, {| name := name b;
                   req := req b + Z.of_nat (countWhere (inBucket s e) rs);
                   error := error b +
                     Z.of_nat (countWhere
                       (fun item => inBucket s e item && isError item) rs) |})]).
Proof.
  intros Hin. revert b.
  induction rs as [|r rs IH]; intros b.
  - simpl. rewrite !Z.add_0_r. by destruct b.
  - cbn [fold_left]. unfold countItem at 2. unfold countWhere. cbn [List.filter].
    fold (inBucket s e r). fold (isError r).
    destruct (inBucket s e r) eqn:Ein.
    + rewrite dataMap_update_last by exact Hin.
      destruct (isError r) eqn:Eerr.
      * rewrite dataMap_update_last by exact Hin. rewrite IH.
        cbn [name req error andb length]. unfold countWhere.
        do 3 f_equal. f_equal; lia.
      * rewrite IH. cbn [name req error andb length]. unfold countWhere.
        do 3 f_equal. f_equal; lia.
    + rewrite IH. cbn [andb]. reflexivity.
Qed.

Lemma addPeriod_fresh rs period periods endDate (dm : DataMap) index p :
  ~ In (format p (labelFormat period)) (map fst dm) ->
  addPeriod rs period periods endDate dm index p =
  (dm ++ [(format p (labelFormat period),
           bucketOf (format p (labelFormat period)) p
             (bucketEnd periods endDate index) rs)]).
Proof.
  intros Hin. unfold addPeriod. cbv zeta.
  rewrite dataMap_set_fresh by exact Hin.
  rewrite fold_countItem by exact Hin. reflexivity.
Qed.

Lemma forEachPeriod_spec rs period periods endDate rest index (dm : DataMap) :
  NoDup (map fst dm ++ map (fun p => format p (labelFormat period)) rest) ->
  forEachPeriod rs period periods endDate rest index dm =
  (dm ++ bucketsFrom rs period periods endDate rest index).
Proof.
  revert index dm. induction rest as [|p rest IH]; intros index dm Hnd.
  - simpl. by rewrite app_nil_r.
  - cbn [forEachPeriod bucketsFrom].
    assert (Hfresh : ~ In (format p (labelFormat period)) (map fst dm)).
    { intros Hin. apply NoDup_app in Hnd as (_ & Hd & _).
      apply (Hd (format p (labelFormat period))).
      - by apply list_elem_of_In.
      - simpl. left. }
    rewrite addPeriod_fresh by exact Hfresh.
    rewrite IH.
    + by rewrite <- app_assoc.
    + rewrite map_app. simpl. rewrite <- app_assoc. exact Hnd.
Qed.

Lemma periodLabels_NoDup period now :
  NoDup (map (fun p => format p (labelFormat period))
             (getPreviousPeriods now period 5)).
Proof.
  rewrite getPreviousPeriods_five, map_map.
  change (fun x => format (periodStart (alignment period) now x) (labelFormat period))
    with (periodLabel period now).
  assert (Hinj : forall j k, 0 <= j <= 4 -> 0 <= k <= 4 -> j <> k ->
                 periodLabel period now j <> periodLabel period now k).
  { intros j k Hj Hk Hne E. by apply Hne, (periodLabel_inj period now). }
  repeat (apply NoDup_cons_2;
          [ rewrite list_elem_of_In; simpl;
            intros Hin;
            repeat (destruct Hin as [Hin|Hin]; [by apply Hinj in Hin|]);
            exact Hin
          | ]).
  apply NoDup_nil_2.
Qed.

(** [organizeData] in closed form: one bucket per period, in the order of
    the periods, each with the counts of the records strictly inside it. *)
Lemma organizeData_closed rs period now endDate :
  organizeData rs period now endDate =
  map snd
    (bucketsFrom rs period (getPreviousPeriods now period 5) endDate
       (getPreviousPeriods now period 5) 0).
Proof.
  unfold organizeData, Object_values. cbv zeta.
  rewrite forEachPeriod_spec; [done|]. apply periodLabels_NoDup.
Qed.

Lemma inBucket_iff s e r :
  inBucket s e r = true <-> s < ts r * 1000 < e.
Proof.
  unfold inBucket, isAfter, isBefore.
  rewrite andb_true_iff, !Z.ltb_lt. tauto.
Qed.

Lemma countWhere_cons_false (p : TxLog -> bool) r rs :
  p r = false -> countWhere p (r :: rs) = countWhere p rs.
Proof. intros H. unfold countWhere. simpl. by rewrite H. Qed.

Lemma bucketOf_cons_outside key s e r rs :
  inBucket s e r = false -> bucketOf key s e (r :: rs) = bucketOf key s e rs.
Proof.
  intros H. unfold bucketOf.
  rewrite !countWhere_cons_false; [done|by rewrite H|done].
Qed.

Lemma organizeData_five rs period now endDate :
  organizeData rs period now endDate =
  [ bucketOf (periodLabel period now 4) (periodStart (alignment period) now 4)
      (periodStart (alignment period) now 3) rs;
    bucketOf (periodLabel period now 3) (periodStart (alignment period) now 3)
      (periodStart (alignment period) now 2) rs;
    bucketOf (periodLabel period now 2) (periodStart (alignment period) now 2)
      (periodStart (alignment period) now 1) rs;
    bucketOf (periodLabel period now 1) (periodStart (alignment period) now 1)
      (periodStart (alignment period) now 0) rs;
    bucketOf (periodLabel period now 0) (periodStart (alignment period) now 0)
      endDate rs ].
Proof. rewrite organizeData_closed, getPreviousPeriods_five. reflexivity. Qed.

Lemma organizeData_length rs period now endDate :
  length (organizeData rs period now endDate) = 5%nat.
Proof. by rewrite organizeData_five. Qed.

Lemma organizeData_names rs period now endDate :
  map name (organizeData rs period now endDate) =
  map (fun p => format p (labelFormat period)) (getPreviousPeriods now period 5).
Proof. rewrite organizeData_five, getPreviousPeriods_five. reflexivity. Qed.

Lemma organizeData_nth rs period now endDate i :
  (i < 5)%nat ->
  nth_error (organizeData rs period now endDate) i =
  Some (bucketOf
          (format (nth i (getPreviousPeriods now period 5) 0) (labelFormat period))
          (nth i (getPreviousPeriods now period 5) 0)
          (bucketEnd (getPreviousPeriods now period 5) endDate i) rs).
Proof.
  intros Hi. rewrite organizeData_five, getPreviousPeriods_five.
  do 5 (destruct i as [|i]; [reflexivity|]). lia.
Qed.

Lemma periodStart_le_now a now : periodStart a now 0 <= now.
Proof.
  destruct a; unfold periodStart; rewrite Z.sub_0_r.
  - unfold msPerHour. Z.div_mod_to_equations. lia.
  - unfold Day, msPerDay. Z.div_mod_to_equations. lia.
  - unfold weekStartDay, Day, msPerDay. Z.div_mod_to_equations. lia.
  - pose proof (MonthIndex_spec (Day now)) as [Hs _].
    pose proof (Day_TimeWithinDay now). pose proof (TimeWithinDay_bounds now).
    unfold msPerDay in *. lia.
Qed.

Lemma periodStarts_sorted a now :
  periodStart a now 4 < periodStart a now 3 /\
  periodStart a now 3 < periodStart a now 2 /\
  periodStart a now 2 < periodStart a now 1 /\
  periodStart a now 1 < periodStart a now 0.
Proof. repeat split; apply periodStart_lt; lia. Qed.

Lemma countWhere_cons (p : TxLog -> bool) r rs :
  Z.of_nat (countWhere p (r :: rs)) = Z.b2z (p r) + Z.of_nat (countWhere p rs).
Proof. unfold countWhere. simpl. destruct (p r); simpl; lia. Qed.

(** Five predicates of which at most one holds of a record count at most
    the records; they count all of them when exactly one holds of each. *)
Lemma counts_disjoint_le (p4 p3 p2 p1 p0 : TxLog -> bool) rs :
  (forall r, Z.b2z (p4 r) + Z.b2z (p3 r) + Z.b2z (p2 r) + Z.b2z (p1 r) +
             Z.b2z (p0 r) <= 1) ->
  Z.of_nat (countWhere p4 rs) + Z.of_nat (countWhere p3 rs) +
  Z.of_nat (countWhere p2 rs) + Z.of_nat (countWhere p1 rs) +
  Z.of_nat (countWhere p0 rs) <= Z.of_nat (length rs).
Proof.
  intros H. induction rs as [|r rs IH]; [unfold countWhere; simpl; lia|].
  rewrite !countWhere_cons. specialize (H r). simpl length. lia.
Qed.

Lemma counts_cover_eq (p4 p3 p2 p1 p0 : TxLog -> bool) rs :
  (forall r, In r rs ->
             Z.b2z (p4 r) + Z.b2z (p3 r) + Z.b2z (p2 r) + Z.b2z (p1 r) +
             Z.b2z (p0 r) = 1) ->
  Z.of_nat (countWhere p4 rs) + Z.of_nat (countWhere p3 rs) +
  Z.of_nat (countWhere p2 rs) + Z.of_nat (countWhere p1 rs) +
  Z.of_nat (countWhere p0 rs) = Z.of_nat (length rs).
Proof.
  intros H. induction rs as [|r rs IH]; [unfold countWhere; simpl; lia|].
  rewrite !countWhere_cons. pose proof (H r (or_introl eq_refl)).
  assert (forall r', In r' rs ->
            Z.b2z (p4 r') + Z.b2z (p3 r') + Z.b2z (p2 r') + Z.b2z (p1 r') +
            Z.b2z (p0 r') = 1) as H' by (intros; apply H; by right).
  specialize (IH H'). simpl length. lia.
Qed.

Lemma b2z_inBucket s e r :
  (Z.b2z (inBucket s e r) = 1 /\ s < ts r * 1000 < e) \/
  (Z.b2z (inBucket s e r) = 0 /\ ~ (s < ts r * 1000 < e)).
Proof.
  destruct (inBucket s e r) eqn:E.
  - left. split; [done|]. by apply inBucket_iff.
  - right. split; [done|]. rewrite <- inBucket_iff. congruence.
Qed.

(** C2 (as stated it fails): hourly periods, the clock at 2024-03-15
    12:30:00Z, one record at 11:00:00Z sharp. The record lies strictly
    between the start of the first bucket (08:00) and the clock, yet no
    bucket counts it. *)
Lemma boundary_record_not_counted :
  let out := organizeData [mkLog 1710500400 200] "hourly" 1710505800000 1710505800000 in
  nth 0 (getPreviousPeriods 1710505800000 "hourly" 5) 0 < 1710500400 * 1000
    < 1710505800000 /\
  length out = 5%nat /\ sumReq out = 0 /\
  Z.of_nat (length [mkLog 1710500400 200]) = 1.
Proof. vm_compute. repeat split. Qed.

(** C2 (amended): [organizeData] returns exactly 5 buckets, one per period
    start and in their order, oldest first; the request counts sum to at
    most the number of records, and to exactly that number when every
    record's timestamp lies strictly between the first bucket's start and
    the end of the last bucket and is none of the five bucket starts. *)
Theorem five_buckets_oldest_first rs period now endDate :
  let out := organizeData rs period now endDate in
  let starts := getPreviousPeriods now period 5 in
  length out = 5%nat /\
  map name out = map (fun p => format p (labelFormat period)) starts /\
  StronglySorted Z.lt starts /\
  sumReq out <= Z.of_nat (length rs) /\
  ((forall r, In r rs ->
      nth 0 starts 0 < ts r * 1000 < endDate /\ ~ In (ts r * 1000) starts) ->
   sumReq out = Z.of_nat (length rs)).
Proof.
  cbv zeta. rewrite organizeData_five, getPreviousPeriods_five.
  pose proof (periodStarts_sorted (alignment period) now) as (H43 & H32 & H21 & H10).
  set (s4 := periodStart (alignment period) now 4) in *.
  set (s3 := periodStart (alignment period) now 3) in *.
  set (s2 := periodStart (alignment period) now 2) in *.
  set (s1 := periodStart (alignment period) now 1) in *.
  set (s0 := periodStart (alignment period) now 0) in *.
  split; [reflexivity|]. split; [reflexivity|]. split; [|split].
  - cbn [map]. fold s4 s3 s2 s1 s0.
    repeat (apply SSorted_cons; [|repeat (apply Forall_cons_2; [lia|]); apply Forall_nil_2]).
    apply SSorted_nil.
  - unfold sumReq. cbn [fold_right bucketOf req].
    pose proof (counts_disjoint_le (inBucket s4 s3) (inBucket s3 s2)
                  (inBucket s2 s1) (inBucket s1 s0) (inBucket s0 endDate) rs) as Hle.
    cut (forall r,
           Z.b2z (inBucket s4 s3 r) + Z.b2z (inBucket s3 s2 r) +
           Z.b2z (inBucket s2 s1 r) + Z.b2z (inBucket s1 s0 r) +
           Z.b2z (inBucket s0 endDate r) <= 1); [intros Hc; specialize (Hle Hc); lia|].
    intros r.
    destruct (b2z_inBucket s4 s3 r) as [[-> ?]|[-> ?]],
             (b2z_inBucket s3 s2 r) as [[-> ?]|[-> ?]],
             (b2z_inBucket s2 s1 r) as [[-> ?]|[-> ?]],
             (b2z_inBucket s1 s0 r) as [[-> ?]|[-> ?]],
             (b2z_inBucket s0 endDate r) as [[-> ?]|[-> ?]]; lia.
  - intros Hall. unfold sumReq. cbn [fold_right bucketOf req].
    pose proof (counts_cover_eq (inBucket s4 s3) (inBucket s3 s2)
                  (inBucket s2 s1) (inBucket s1 s0) (inBucket s0 endDate) rs) as Heq.
    cut (forall r, In r rs ->
           Z.b2z (inBucket s4 s3 r) + Z.b2z (inBucket s3 s2 r) +
           Z.b2z (inBucket s2 s1 r) + Z.b2z (inBucket s1 s0 r) +
           Z.b2z (inBucket s0 endDate r) = 1); [intros Hc; specialize (Heq Hc); lia|].
    intros r Hr. destruct (Hall r Hr) as [Hin Hnot].
    cbn [map nth] in Hin, Hnot. fold s4 s3 s2 s1 s0 in Hin, Hnot.
    cbn [In] in Hnot.
    destruct (b2z_inBucket s4 s3 r) as [[-> ?]|[-> ?]],
             (b2z_inBucket s3 s2 r) as [[-> ?]|[-> ?]],
             (b2z_inBucket s2 s1 r) as [[-> ?]|[-> ?]],
             (b2z_inBucket s1 s0 r) as [[-> ?]|[-> ?]],
             (b2z_inBucket s0 endDate r) as [[-> ?]|[-> ?]]; lia.
Qed.

Lemma five_buckets_witness :
  sumReq (organizeData [mkLog 1710500401 500; mkLog 1710505700 200] "hourly"
            1710505800000 1710505800000) = 2.
Proof.
  refine (proj2 (proj2 (proj2 (proj2
    (five_buckets_oldest_first [mkLog 1710500401 500; mkLog 1710505700 200]
       "hourly" 1710505800000 1710505800000)))) _).
  intros r [<-|[<-|[]]]; vm_compute; (split; [done|]);
    intros H; repeat (destruct H as [H|H]; [discriminate H|]); exact H.
Defined.

(** C3: the bucket at position [i] counts exactly the records whose
    timestamp is strictly after the bucket's start and strictly before its
    end; a record whose timestamp is a bucket start is counted in neither
    adjacent bucket (in no bucket at all), and neither is a record whose
    timestamp is the end of the last bucket. *)
Theorem bucket_membership_exclusive rs period now endDate :
  let starts := getPreviousPeriods now period 5 in
  (forall i, (i < 5)%nat ->
     nth_error (organizeData rs period now endDate) i =
     Some (bucketOf (format (nth i starts 0) (labelFormat period))
             (nth i starts 0) (bucketEnd starts endDate i) rs)) /\
  (forall s e r, inBucket s e r = true <-> s < ts r * 1000 < e) /\
  (forall r, In (ts r * 1000) starts ->
     organizeData (r :: rs) period now endDate =
     organizeData rs period now endDate) /\
  (forall r, now <= endDate -> ts r * 1000 = endDate ->
     organizeData (r :: rs) period now endDate =
     organizeData rs period now endDate).
Proof.
  cbv zeta.
  pose proof (periodStarts_sorted (alignment period) now) as (H43 & H32 & H21 & H10).
  pose proof (periodStart_le_now (alignment period) now) as H0.
  split; [|split; [|split]].
  - intros i Hi. by apply organizeData_nth.
  - apply inBucket_iff.
  - intros r Hin. rewrite !organizeData_five.
    rewrite getPreviousPeriods_five in Hin. cbn [map In] in Hin.
    rewrite !bucketOf_cons_outside; [reflexivity|..];
      apply not_true_is_false; rewrite inBucket_iff; lia.
  - intros r Hclock Hin. rewrite !organizeData_five.
    rewrite !bucketOf_cons_outside; [reflexivity|..];
      apply not_true_is_false; rewrite inBucket_iff; lia.
Qed.

Lemma bucket_membership_witness :
  organizeData [mkLog 1710500400 200; mkLog 1710500401 500] "hourly"
    1710505800000 1710505800000 =
  organizeData [mkLog 1710500401 500] "hourly" 1710505800000 1710505800000.
Proof.
  refine (proj1 (proj2 (proj2
    (bucket_membership_exclusive [mkLog 1710500401 500] "hourly"
       1710505800000 1710505800000))) (mkLog 1710500400 200) _).
  vm_compute. tauto.
Defined.

Lemma dataMap_set_ok (dm : DataMap) key b :
  Forall (fun kv => bucketOk (snd kv)) dm -> bucketOk b ->
  Forall (fun kv => bucketOk (snd kv)) (dataMap_set dm key b).
Proof.
  intros Hdm Hb. induction dm as [|[k v] dm IH]; simpl.
  - by constructor.
  - inversion Hdm; subst. destruct (String.eqb k key); constructor; auto.
Qed.

Lemma dataMap_update_ok (dm : DataMap) key f :
  (forall b, bucketOk b -> bucketOk (f b)) ->
  Forall (fun kv => bucketOk (snd kv)) dm ->
  Forall (fun kv => bucketOk (snd kv)) (dataMap_update dm key f).
Proof.
  intros Hf Hdm. induction dm as [|[k v] dm IH]; simpl; [done|].
  inversion Hdm; subst. destruct (String.eqb k key); constructor; auto.
  simpl. by apply Hf.
Qed.

Lemma dataMap_update_twice (dm : DataMap) key f g :
  dataMap_update (dataMap_update dm key f) key g =
  dataMap_update dm key (fun b => g (f b)).
Proof.
  induction dm as [|[k v] dm IH]; simpl; [done|].
  destruct (String.eqb k key) eqn:E; simpl; rewrite E; [done|].
  by rewrite IH.
Qed.

Lemma countItem_ok key s e (dm : DataMap) item :
  Forall (fun kv => bucketOk (snd kv)) dm ->
  Forall (fun kv => bucketOk (snd kv)) (countItem key s e dm item).
Proof.
  intros Hdm. unfold countItem. cbv zeta.
  destruct (isAfter _ _ && isBefore _ _); [|done].
  destruct (400 <=? status (response item)).
  - rewrite dataMap_update_twice. apply dataMap_update_ok; [|done].
    intros b. unfold bucketOk. simpl. lia.
  - apply dataMap_update_ok; [|done].
    intros b. unfold bucketOk. simpl. lia.
Qed.

Lemma fold_countItem_ok key s e rs (dm : DataMap) :
  Forall (fun kv => bucketOk (snd kv)) dm ->
  Forall (fun kv => bucketOk (snd kv)) (fold_left (countItem key s e) rs dm).
Proof.
  revert dm. induction rs as [|r rs IH]; intros dm Hdm; [done|].
  simpl. apply IH. by apply countItem_ok.
Qed.

Lemma forEachPeriod_ok rs period periods endDate rest index (dm : DataMap) :
  Forall (fun kv => bucketOk (snd kv)) dm ->
  Forall (fun kv => bucketOk (snd kv))
    (forEachPeriod rs period periods endDate rest index dm).
Proof.
  revert index dm. induction rest as [|p rest IH]; intros index dm Hdm; [done|].
  simpl. apply IH. unfold addPeriod. cbv zeta.
  apply fold_countItem_ok, dataMap_set_ok; [done|].
  unfold bucketOk. simpl. lia.
Qed.

(** C4: in every bucket the counts are non-negative and the request count
    is at least the error count; the error count of a bucket is the number
    of the records counted in it whose response status is at least 400. *)
Theorem bucket_counts_invariant rs period now endDate :
  Forall (fun b => 0 <= error b /\ 0 <= req b /\ error b <= req b)
    (organizeData rs period now endDate) /\
  (forall i b, nth_error (organizeData rs period now endDate) i = Some b ->
     let s := nth i (getPreviousPeriods now period 5) 0 in
     let e := bucketEnd (getPreviousPeriods now period 5) endDate i in
     req b = Z.of_nat (countWhere (inBucket s e) rs) /\
     error b =
       Z.of_nat (countWhere
         (fun r => inBucket s e r && (400 <=? status (response r))) rs)).
Proof.
  split.
  - unfold organizeData, Object_values. cbv zeta.
    pose proof (forEachPeriod_ok rs period (getPreviousPeriods now period 5)
                  endDate (getPreviousPeriods now period 5) 0 [] (Forall_nil_2 _)) as H.
    rewrite Forall_map. eapply Forall_impl; [exact H|].
    intros [k b]. unfold bucketOk. simpl. lia.
  - intros i b Hb. cbv zeta.
    destruct (Nat.lt_ge_cases i 5) as [Hi|Hi].
    + rewrite (organizeData_nth rs period now endDate i Hi) in Hb.
      inversion Hb; subst. split; reflexivity.
    + assert (Hlt : (i < length (organizeData rs period now endDate))%nat)
        by (apply nth_error_Some; congruence).
      rewrite organizeData_length in Hlt. lia.
Qed.

Lemma bucket_counts_witness :
  req {| name := "11:00"; req := 1; error := 1 |} =
    Z.of_nat
      (countWhere (inBucket 1710500400000 1710504000000)
         [mkLog 1710500400 200; mkLog 1710500401 500]) /\
  error {| name := "11:00"; req := 1; error := 1 |} =
    Z.of_nat
      (countWhere
         (fun r => inBucket 1710500400000 1710504000000 r &&
                   (400 <=? status (response r)))
         [mkLog 1710500400 200; mkLog 1710500401 500]).
Proof.
  exact (proj2 (bucket_counts_invariant
                  [mkLog 1710500400 200; mkLog 1710500401 500] "hourly"
                  1710505800000 1710505800000)
           3%nat {| name := "11:00"; req := 1; error := 1 |} eq_refl).
Defined.

(** C5 (as stated it fails): with the unrecognized period value "yearly"
    the buckets are the monthly ones, but their labels are full ISO-8601
    timestamps, not abbreviated month names. *)
Lemma unknown_period_labels_are_iso :
  map name (organizeData [] "yearly" 1710505800000 1710505800000) =
    ["2023-11-01T00:00:00.000Z"; "2023-12-01T00:00:00.000Z";
     "2024-01-01T00:00:00.000Z"; "2024-02-01T00:00:00.000Z";
     "2024-03-01T00:00:00.000Z"] /\
  map name (organizeData [] "monthly" 1710505800000 1710505800000) =
    ["Nov"; "Dec"; "Jan"; "Feb"; "Mar"].
Proof. vm_compute. split; reflexivity. Qed.

(** C5 (amended): for a period value outside hourly, daily, weekly and
    monthly, the alignment follows the monthly rules (bucket starts are
    firsts of months and each step back subtracts one month, so the starts
    are those of the monthly period), while the labels use the full
    ISO-8601 timestamp format of the daily and weekly periods. *)
Theorem unknown_period_monthly_alignment_iso_labels rs period now endDate :
  isKnownPeriod period = false ->
  (forall date, getStartOfPeriod date period = startOfMonth date) /\
  (forall current, previousPeriod current period = subMonths current 1) /\
  getPreviousPeriods now period 5 = getPreviousPeriods now "monthly" 5 /\
  labelFormat period = labelFormat "daily" /\
  map name (organizeData rs period now endDate) =
  map (fun p => format p fmt_iso) (getPreviousPeriods now "monthly" 5).
Proof.
  unfold isKnownPeriod. cbn [existsb]. rewrite !orb_false_iff.
  intros (Hh & Hd & Hw & Hm & _).
  assert (Ha : alignment period = Monthly)
    by (unfold alignment; by rewrite Hh, Hd, Hw).
  assert (Hf : labelFormat period = fmt_iso)
    by (unfold labelFormat; by rewrite Hm, Hh).
  assert (Hp : getPreviousPeriods now period 5 = getPreviousPeriods now "monthly" 5)
    by (rewrite !getPreviousPeriods_five, Ha; reflexivity).
  split; [|split; [|split; [|split]]].
  - intros date. unfold getStartOfPeriod. by rewrite Hh, Hd, Hw, Hm.
  - intros current. unfold previousPeriod. by rewrite Hh, Hd, Hw, Hm.
  - exact Hp.
  - rewrite Hf. reflexivity.
  - rewrite organizeData_names, Hf, Hp. reflexivity.
Qed.

Lemma unknown_period_witness :
  getPreviousPeriods 1710505800000 "yearly" 5 =
  getPreviousPeriods 1710505800000 "monthly" 5.
Proof.
  exact (proj1 (proj2 (proj2
    (unknown_period_monthly_alignment_iso_labels [] "yearly"
       1710505800000 1710505800000 eq_refl)))).
Defined.
(* ===================================================================== *)
(** * FlowGraphBuilder: keys                                              *)
(* ===================================================================== *)

Lemma isPrototypeKey_In key : isPrototypeKey key = true <-> In key prototypeKeys.
Proof.
  unfold isPrototypeKey. rewrite existsb_exists. split.
  - intros (k & Hk & E). apply String.eqb_eq in E. by subst.
  - intros H. exists key. split; [done|apply String.eqb_refl].
Qed.

(** No inherited property name contains a dash, and neither does the text
    of an inherited value. *)
Lemma prototypeKeys_strings :
  forallb (fun k =>
    lacks "-" k && lacks "-" (jsval_to_string (JInherited k)) &&
    negb (allDigits (jsval_to_string (JInherited k))) &&
    forallb (fun k' =>
      implb (String.eqb (jsval_to_string (JInherited k))
                        (jsval_to_string (JInherited k')))
            (String.eqb k k'))
      prototypeKeys)
    prototypeKeys = true.
Proof. vm_compute. reflexivity. Qed.

Lemma prototypeKey_facts k :
  isPrototypeKey k = true ->
  lacks "-" k = true /\ lacks "-" (jsval_to_string (JInherited k)) = true /\
  allDigits (jsval_to_string (JInherited k)) = false /\
  forall k', isPrototypeKey k' = true ->
    jsval_to_string (JInherited k) = jsval_to_string (JInherited k') -> k = k'.
Proof.
  intros Hk%isPrototypeKey_In.
  pose proof prototypeKeys_strings as H. rewrite forallb_forall in H.
  specialize (H k Hk).
  apply andb_true_iff in H as [H Hinj]. apply andb_true_iff in H as [H Hnd].
  apply andb_true_iff in H as [Hl1 Hl2].
  repeat split; [done|done|by apply negb_true_iff|].
  intros k' Hk'%isPrototypeKey_In E.
  rewrite forallb_forall in Hinj. specialize (Hinj k' Hk').
  rewrite E, String.eqb_refl in Hinj. simpl in Hinj. by apply String.eqb_eq.
Qed.

Lemma jsval_to_string_lacks_dash n v :
  jsval_ok n v -> lacks "-" (jsval_to_string v) = true.
Proof.
  destruct v as [i|k]; simpl.
  - intros _. apply allDigits_lacks; [reflexivity|apply allDigits_string_of_N].
  - intros Hk. by apply prototypeKey_facts in Hk as (_ & H & _).
Qed.

Lemma jsval_to_string_inj n m v w :
  jsval_ok n v -> jsval_ok m w -> jsval_to_string v = jsval_to_string w -> v = w.
Proof.
  destruct v as [i|k], w as [j|k']; simpl; intros Hv Hw E.
  - apply string_of_N_inj in E. f_equal. lia.
  - apply prototypeKey_facts in Hw as (_ & _ & Hd & _).
    change (allDigits (jsval_to_string (JInherited k')) = false) in Hd.
    simpl in Hd. rewrite <- E, allDigits_string_of_N in Hd. discriminate Hd.
  - apply prototypeKey_facts in Hv as (_ & _ & Hd & _).
    simpl in Hd. rewrite E, allDigits_string_of_N in Hd. discriminate Hd.
  - f_equal. apply prototypeKey_facts in Hv as (_ & _ & _ & Hinj).
    by apply Hinj.
Qed.

(** The key of a link determines its source and target. *)
Lemma linkKey_inj n s t s' t' :
  jsval_ok n s -> jsval_ok n t -> jsval_ok n s' -> jsval_ok n t' ->
  linkKey s t = linkKey s' t' -> s = s' /\ t = t'.
Proof.
  intros Hs Ht Hs' Ht' E. unfold linkKey in E.
  change (jsval_to_string s +:+ String "-" (jsval_to_string t) =
          jsval_to_string s' +:+ String "-" (jsval_to_string t')) in E.
  apply split_at_char in E as [E1 E2];
    [|by eapply jsval_to_string_lacks_dash..].
  split; by eapply jsval_to_string_inj.
Qed.

(** A link key is never the name of an inherited property. *)
Lemma linkKey_not_inherited s t : isPrototypeKey (linkKey s t) = false.
Proof.
  destruct (isPrototypeKey (linkKey s t)) eqn:E; [|done].
  apply prototypeKey_facts in E as (Hl & _).
  unfold linkKey in Hl.
  change (lacks "-" (jsval_to_string s +:+ String "-" (jsval_to_string t)) = true)
    in Hl.
  by rewrite lacks_app_false in Hl.
Qed.

Lemma obj_get_linkKey (obj : gmap string nat) s t :
  obj_get obj (linkKey s t) =
  match obj !! linkKey s t with Some i => Found (JNum i) | None => Undefined end.
Proof. unfold obj_get. by rewrite linkKey_not_inherited. Qed.

(* ===================================================================== *)
(** * FlowGraphBuilder: the invariant of the builder state                *)
(* ===================================================================== *)

Lemma linkWeight_app links l va vb :
  linkWeight (links ++ [l]) va vb =
  linkWeight links va vb +
  (if decide (source l = va /\ target l = vb) then value l else 0).
Proof.
  unfold linkWeight. induction links as [|x links IH]; simpl; [lia|].
  rewrite IH. lia.
Qed.

Lemma linkWeight_alter links i l va vb :
  links !! i = Some l ->
  linkWeight (alter bumpLink i links) va vb =
  linkWeight links va vb +
  (if decide (source l = va /\ target l = vb) then 1 else 0).
Proof.
  unfold linkWeight. revert i.
  induction links as [|x links IH]; intros [|i] H; try done.
  - injection H as ->. simpl. repeat case_decide; try tauto; lia.
  - specialize (IH i H). simpl in *. rewrite <- Z.add_assoc, <- IH. reflexivity.
Qed.

Lemma linkWeight_none links va vb :
  (forall l, l ∈ links -> ~ (source l = va /\ target l = vb)) ->
  linkWeight links va vb = 0.
Proof.
  unfold linkWeight. induction links as [|x links IH]; simpl; [done|].
  intros H. rewrite IH.
  - destruct (decide _) as [Hd|_]; [|done].
    exfalso. apply (H x); [left|done].
  - intros l Hl. apply H. by right.
Qed.

Lemma countPair_app T a b a' b' :
  countPair (T ++ [(a, b)]) a' b' =
  countPair T a' b' + (if decide (a = a' /\ b = b') then 1 else 0).
Proof.
  unfold countPair. rewrite List.filter_app, length_app, Nat2Z.inj_add.
  f_equal. simpl.
  destruct (String.eqb_spec a a'), (String.eqb_spec b b'); simpl;
    destruct (decide _) as [[? ?]|Hn]; try done; try tauto.
Qed.

Lemma countPair_none T a b : ~ In (a, b) T -> countPair T a b = 0.
Proof.
  unfold countPair. induction T as [|[x y] T IH]; simpl; [done|].
  intros H.
  destruct (String.eqb_spec x a), (String.eqb_spec y b); simpl;
    try (apply IH; tauto).
  subst. tauto.
Qed.

Lemma find_app_last {A} (p : A -> bool) l x :
  List.find p (l ++ [x]) =
  match List.find p l with
  | Some y => Some y
  | None => if p x then Some x else None
  end.
Proof.
  induction l as [|a l IH]; simpl; [done|].
  destruct (p a); [done|exact IH].
Qed.

Lemma obj_get_insert (obj : gmap string nat) label n x :
  obj_get obj label = Undefined ->
  obj_get (<[label := n]> obj) x =
  if decide (x = label) then Found (JNum n) else obj_get obj x.
Proof.
  intros _. unfold obj_get. destruct (decide (x = label)) as [->|Hne].
  - by rewrite lookup_insert_eq.
  - by rewrite lookup_insert_ne.
Qed.

Lemma obj_get_Undefined (obj : gmap string nat) label :
  obj_get obj label = Undefined ->
  obj !! label = None /\ isPrototypeKey label = false.
Proof.
  unfold obj_get. destruct (obj !! label); [done|].
  destruct (isPrototypeKey label); done.
Qed.

Lemma obj_get_ok st T label v :
  SankeyInv st T -> obj_get (nodeIndex st) label = Found v ->
  jsval_ok (length (nodes st)) v.
Proof.
  intros Hinv. unfold obj_get.
  destruct (nodeIndex st !! label) as [i|] eqn:E.
  - intros [= <-]. simpl. by eapply inv_bound.
  - destruct (isPrototypeKey label) eqn:Ep; [|done]. by intros [= <-].
Qed.

(** Distinct labels stand for distinct values. *)
Lemma obj_get_inj st T a b v :
  SankeyInv st T ->
  obj_get (nodeIndex st) a = Found v -> obj_get (nodeIndex st) b = Found v ->
  a = b.
Proof.
  intros Hinv. unfold obj_get.
  destruct (nodeIndex st !! a) as [i|] eqn:Ea,
           (nodeIndex st !! b) as [j|] eqn:Eb.
  - intros [= <-] [= <-]. by eapply inv_inj.
  - intros [= <-]. destruct (isPrototypeKey b); done.
  - destruct (isPrototypeKey a); [|done]. by intros [= <-].
  - destruct (isPrototypeKey a); [|done]. intros [= <-].
    destruct (isPrototypeKey b); [|done]. by intros [= <-].
Qed.

Lemma jsval_ok_mono n m v : (n <= m)%nat -> jsval_ok n v -> jsval_ok m v.
Proof. destruct v; simpl; [lia|done]. Qed.

Lemma SankeyInv_empty : SankeyInv emptySankey [].
Proof.
  split; simpl; try done; intros l Hl; by apply elem_of_nil in Hl.
Qed.

(** [getNodeIndex] keeps the invariant, returns the value that stands for
    the label from now on, and changes the value of no other label. *)
Lemma getNodeIndex_inv st T label :
  SankeyInv st T ->
  SankeyInv (getNodeIndex st label).1 T /\
  obj_get (nodeIndex (getNodeIndex st label).1) label =
    Found (getNodeIndex st label).2 /\
  (forall x w, obj_get (nodeIndex st) x = Found w ->
               obj_get (nodeIndex (getNodeIndex st label).1) x = Found w).
Proof.
  intros Hinv. unfold getNodeIndex.
  destruct (obj_get (nodeIndex st) label) as [|v] eqn:E; [|by simpl].
  pose proof (obj_get_Undefined _ _ E) as [Hnone Hproto].
  cbn [fst snd nodeIndex].
  assert (Hstable : forall x w, obj_get (nodeIndex st) x = Found w ->
            obj_get (<[label:=length (nodes st)]> (nodeIndex st)) x = Found w).
  { intros x w Hx. rewrite obj_get_insert by exact E.
    destruct (decide (x = label)) as [->|_]; [congruence|done]. }
  split; [|split; [|exact Hstable]].
  2: { rewrite obj_get_insert by exact E. by rewrite decide_True. }
  split; cbn [nodes nodeIndex links linkIndex].
  - intros x i. rewrite lookup_insert, length_app. simpl.
    destruct (decide (label = x)) as [<-|_].
    + intros [= <-]. lia.
    + intros Hx. pose proof (inv_bound _ _ Hinv _ _ Hx). lia.
  - intros a b i. rewrite !lookup_insert.
    destruct (decide (label = a)) as [<-|Ha], (decide (label = b)) as [<-|Hb];
      try done.
    + intros [= <-] Hb'. pose proof (inv_bound _ _ Hinv _ _ Hb'). lia.
    + intros Ha' [= <-]. pose proof (inv_bound _ _ Hinv _ _ Ha'). lia.
    + apply (inv_inj _ _ Hinv).
  - intros x. rewrite find_app_last, (inv_find _ _ Hinv x), lookup_insert.
    cbn [node_name].
    destruct (decide (label = x)) as [<-|Hne].
    + rewrite Hnone. simpl. by rewrite String.eqb_refl.
    + destruct (nodeIndex st !! x); simpl; [done|].
      destruct (String.eqb_spec label x); done.
  - intros i nd. rewrite lookup_app_Some. intros [Hi|[Hlen Hi]].
    + by apply (inv_index _ _ Hinv).
    + destruct (i - length (nodes st))%nat as [|k] eqn:Ek; [|done].
      injection Hi as <-. simpl. lia.
  - intros l Hl. rewrite length_app. simpl.
    destruct (inv_ends _ _ Hinv l Hl) as [Hs Ht].
    split; eapply jsval_ok_mono; try eassumption; lia.
  - intros l Hl. destruct (inv_ends_label _ _ Hinv l Hl) as (a & b & Hab & Hsa & Htb).
    exists a, b. split; [done|]. split; by apply Hstable.
  - apply (inv_linkIndex _ _ Hinv).
  - apply (inv_links _ _ Hinv).
  - intros a b Hab. destruct (inv_seen _ _ Hinv a b Hab) as [Ha Hb].
    rewrite !obj_get_insert by exact E.
    split; case_decide; done.
  - intros a b va vb. rewrite !obj_get_insert by exact E.
    assert (Hunseen_l : forall y, countPair T label y = 0).
    { intros y. apply countPair_none. intros Hin.
      by destruct (inv_seen _ _ Hinv _ _ Hin) as [? _]. }
    assert (Hunseen_r : forall y, countPair T y label = 0).
    { intros y. apply countPair_none. intros Hin.
      by destruct (inv_seen _ _ Hinv _ _ Hin) as [_ ?]. }
    destruct (decide (a = label)) as [->|Ha].
    + intros [= <-] _. rewrite Hunseen_l. apply linkWeight_none.
      intros l Hl [Hs _]. destruct (inv_ends _ _ Hinv l Hl) as [Hok _].
      rewrite Hs in Hok. simpl in Hok. lia.
    + destruct (decide (b = label)) as [->|Hb].
      * intros _ [= <-]. rewrite Hunseen_r. apply linkWeight_none.
        intros l Hl [_ Ht]. destruct (inv_ends _ _ Hinv l Hl) as [_ Hok].
        rewrite Ht in Hok. simpl in Hok. lia.
      * apply (inv_weight _ _ Hinv).
Qed.

(** [getLinkIndex] on the values of two labels accounts for one more
    transition between them. *)
Lemma getLinkIndex_inv st T a b va vb :
  SankeyInv st T ->
  obj_get (nodeIndex st) a = Found va -> obj_get (nodeIndex st) b = Found vb ->
  SankeyInv (getLinkIndex st va vb) (T ++ [(a, b)]) /\
  nodeIndex (getLinkIndex st va vb) = nodeIndex st.
Proof.
  intros Hinv Ha Hb.
  pose proof (obj_get_ok _ _ _ _ Hinv Ha) as Hoka.
  pose proof (obj_get_ok _ _ _ _ Hinv Hb) as Hokb.
  assert (Hpair : forall x y vx vy,
            obj_get (nodeIndex st) x = Found vx ->
            obj_get (nodeIndex st) y = Found vy ->
            (va = vx /\ vb = vy) <-> (a = x /\ b = y)).
  { intros x y vx vy Hx Hy. split.
    - intros [-> ->]. split; eapply obj_get_inj; eauto.
    - intros [-> ->]. split; congruence. }
  assert (Hseen : forall x y, In (x, y) (T ++ [(a, b)]) ->
            obj_get (nodeIndex st) x <> Undefined /\
            obj_get (nodeIndex st) y <> Undefined).
  { intros x y [Hin|Hin]%in_app_or.
    - by apply (inv_seen _ _ Hinv).
    - destruct Hin as [[= <- <-]|[]]. split; congruence. }
  unfold getLinkIndex. cbv zeta. rewrite obj_get_linkKey.
  destruct (linkIndex st !! linkKey va vb) as [i|] eqn:E.
  - destruct (inv_linkIndex _ _ Hinv _ _ E) as (l & Hl & Hkey).
    destruct (inv_ends _ _ Hinv l (list_elem_of_lookup_2 _ _ _ Hl)) as [Hls Hlt].
    apply (linkKey_inj _ _ _ _ _ Hls Hlt Hoka Hokb) in Hkey as [Hsrc Htgt].
    split; [|done].
    split; cbn [nodes nodeIndex links linkIndex];
      try solve [apply Hinv]; try exact Hseen.
    + intros l' [j Hj]%list_elem_of_lookup_1.
      rewrite list_lookup_alter in Hj.
      destruct (decide (i = j)) as [->|_].
      * destruct (links st !! j) as [l0|] eqn:E0; [|done].
        injection Hj as <-. simpl.
        apply (inv_ends _ _ Hinv l0), (list_elem_of_lookup_2 _ _ _ E0).
      * apply (inv_ends _ _ Hinv l'), (list_elem_of_lookup_2 _ _ _ Hj).
    + intros l' [j Hj]%list_elem_of_lookup_1.
      rewrite list_lookup_alter in Hj.
      assert (exists l0, l0 ∈ links st /\ source l0 = source l' /\
                         target l0 = target l') as (l0 & Hl0 & <- & <-).
      { destruct (decide (i = j)) as [->|_].
        - destruct (links st !! j) as [l0|] eqn:E0; [|done].
          injection Hj as <-. exists l0.
          split; [by eapply list_elem_of_lookup_2|done].
        - exists l'. split; [by eapply list_elem_of_lookup_2|done]. }
      destruct (inv_ends_label _ _ Hinv l0 Hl0) as (x & y & Hxy & Hx & Hy).
      exists x, y. split; [apply in_or_app; by left|done].
    + intros key j Hkj.
      destruct (inv_linkIndex _ _ Hinv _ _ Hkj) as (l0 & Hl0 & Hk0).
      rewrite list_lookup_alter.
      destruct (decide (i = j)) as [->|_].
      * rewrite Hl0. simpl. eexists. split; [done|]. exact Hk0.
      * eauto.
    + intros j l'. rewrite list_lookup_alter.
      destruct (decide (i = j)) as [->|_].
      * destruct (links st !! j) as [l0|] eqn:E0; [|done].
        intros [= <-]. simpl. by apply (inv_links _ _ Hinv).
      * apply (inv_links _ _ Hinv).
    + intros x y vx vy Hx Hy.
      rewrite (linkWeight_alter _ _ _ _ _ Hl), countPair_app.
      rewrite (inv_weight _ _ Hinv _ _ _ _ Hx Hy), Hsrc, Htgt.
      pose proof (Hpair x y vx vy Hx Hy).
      repeat case_decide; tauto || lia.
  - split; [|done].
    split; cbn [nodes nodeIndex links linkIndex];
      try solve [apply Hinv]; try exact Hseen.
    + intros l' [Hl'|Hl']%elem_of_app.
      * by apply (inv_ends _ _ Hinv).
      * apply list_elem_of_singleton in Hl'. subst l'. done.
    + intros l' [Hl'|Hl']%elem_of_app.
      * destruct (inv_ends_label _ _ Hinv l' Hl') as (x & y & Hxy & Hx & Hy).
        exists x, y. split; [apply in_or_app; by left|done].
      * apply list_elem_of_singleton in Hl'. subst l'.
        exists a, b. split; [apply in_or_app; right; by left|done].
    + intros key j. rewrite lookup_insert.
      destruct (decide (linkKey va vb = key)) as [<-|_].
      * intros [= <-]. exists {| source := va; target := vb; value := 1 |}.
        split; [|reflexivity]. by apply list_lookup_middle.
      * intros Hkj. destruct (inv_linkIndex _ _ Hinv _ _ Hkj) as (l0 & Hl0 & Hk0).
        exists l0. split; [|done]. by apply lookup_app_l_Some.
    + intros j l'. rewrite lookup_app_Some. intros [Hj|[Hlen Hj]].
      * pose proof (inv_links _ _ Hinv _ _ Hj) as Hold.
        rewrite lookup_insert_ne; [done|]. congruence.
      * destruct (j - length (links st))%nat as [|k] eqn:Ek; [|done].
        injection Hj as <-. simpl.
        replace j with (length (links st)) by lia. apply lookup_insert_eq.
    + intros x y vx vy Hx Hy.
      rewrite linkWeight_app, countPair_app. cbn [source target value].
      rewrite (inv_weight _ _ Hinv _ _ _ _ Hx Hy).
      pose proof (Hpair x y vx vy Hx Hy).
      repeat case_decide; tauto || lia.
Qed.

Lemma addItem_inv st T item :
  SankeyInv st T -> SankeyInv (addItem st item) (T ++ chain item).
Proof.
  intros Hinv. unfold addItem.
  pose proof (getNodeIndex_inv st T (ip_address (session_analytics item)) Hinv)
    as (I1 & G1 & S1).
  destruct (getNodeIndex st (ip_address (session_analytics item))) as [st1 v1].
  cbn [fst snd] in I1, G1, S1.
  pose proof (getNodeIndex_inv st1 T apiType I1) as (I2 & G2 & S2).
  destruct (getNodeIndex st1 apiType) as [st2 v2]. cbn [fst snd] in I2, G2, S2.
  pose proof (getNodeIndex_inv st2 T (hostname item) I2) as (I3 & G3 & S3).
  destruct (getNodeIndex st2 (hostname item)) as [st3 v3].
  cbn [fst snd] in I3, G3, S3.
  pose proof (getNodeIndex_inv st3 T (path item) I3) as (I4 & G4 & S4).
  destruct (getNodeIndex st3 (path item)) as [st4 v4].
  cbn [fst snd] in I4, G4, S4.
  pose proof (getNodeIndex_inv st4 T (method item) I4) as (I5 & G5 & S5).
  destruct (getNodeIndex st4 (method item)) as [st5 v5].
  cbn [fst snd] in I5, G5, S5.
  assert (V1 : obj_get (nodeIndex st5) (ip_address (session_analytics item)) =
               Found v1) by auto.
  assert (V2 : obj_get (nodeIndex st5) apiType = Found v2) by auto.
  assert (V3 : obj_get (nodeIndex st5) (hostname item) = Found v3) by auto.
  assert (V4 : obj_get (nodeIndex st5) (path item) = Found v4) by auto.
  destruct (getLinkIndex_inv st5 T _ _ v1 v2 I5 V1 V2) as (J1 & N1).
  rewrite <- N1 in V2, V3, V4, G5.
  destruct (getLinkIndex_inv _ _ _ _ v2 v3 J1 V2 V3) as (J2 & N2).
  rewrite <- N2 in V3, V4, G5.
  destruct (getLinkIndex_inv _ _ _ _ v3 v4 J2 V3 V4) as (J3 & N3).
  rewrite <- N3 in V4, G5.
  destruct (getLinkIndex_inv _ _ _ _ v4 v5 J3 V4 G5) as (J4 & _).
  rewrite <- !app_assoc in J4. exact J4.
Qed.

Lemma fold_addItem_inv rs st T :
  SankeyInv st T -> SankeyInv (fold_left addItem rs st) (T ++ flat_map chain rs).
Proof.
  revert st T. induction rs as [|r rs IH]; intros st T Hinv;
    cbn [fold_left flat_map].
  - by rewrite app_nil_r.
  - rewrite app_assoc. apply IH, addItem_inv, Hinv.
Qed.

Lemma createSankeyData_inv rs :
  SankeyInv (fold_left addItem rs emptySankey) (flat_map chain rs).
Proof. apply (fold_addItem_inv rs emptySankey []), SankeyInv_empty. Qed.

(* ===================================================================== *)
(** * FlowGraphBuilder: properties                                        *)
(* ===================================================================== *)

Lemma labelValue_obj_get rs label :
  labelValue (createSankeyData rs) label =
  match obj_get (nodeIndex (fold_left addItem rs emptySankey)) label with
  | Found v => Some v
  | Undefined => None
  end.
Proof.
  unfold labelValue, createSankeyData. cbn [sankey_nodes].
  rewrite (inv_find _ _ (createSankeyData_inv rs)). unfold obj_get.
  destruct (nodeIndex _ !! label); simpl; [done|].
  destruct (isPrototypeKey label); done.
Qed.

(** The weight of the edge between two labels is the number of times the
    records produced that transition. *)
Lemma edgeWeight_counts rs a b :
  edgeWeight (createSankeyData rs) a b = countPair (flat_map chain rs) a b.
Proof.
  pose proof (createSankeyData_inv rs) as Hinv.
  unfold edgeWeight. rewrite !labelValue_obj_get.
  destruct (obj_get _ a) as [|va] eqn:Ea.
  - symmetry. apply countPair_none. intros Hin.
    by destruct (inv_seen _ _ Hinv _ _ Hin) as [? _].
  - destruct (obj_get _ b) as [|vb] eqn:Eb.
    + symmetry. apply countPair_none. intros Hin.
      by destruct (inv_seen _ _ Hinv _ _ Hin) as [_ ?].
    + exact (inv_weight _ _ Hinv _ _ _ _ Ea Eb).
Qed.

Lemma countPair_Permutation T T' a b :
  Permutation T T' -> countPair T a b = countPair T' a b.
Proof.
  intros H. unfold countPair. f_equal.
  induction H as [|x l l' _ IH|x y l|l l' l'' _ IH1 _ IH2]; simpl.
  - done.
  - destruct (_ && _); simpl; by rewrite IH.
  - destruct (String.eqb (fst x) a && String.eqb (snd x) b),
             (String.eqb (fst y) a && String.eqb (snd y) b); reflexivity.
  - by rewrite IH1, IH2.
Qed.

(** C7: on a permutation of the records the builder produces the same
    weighted transitions: for every ordered pair of labels the weight of the
    edge that connects them is the same in both runs. *)
Theorem sankey_weights_permutation_invariant rs rs' :
  Permutation rs rs' ->
  forall a b,
    edgeWeight (createSankeyData rs) a b = edgeWeight (createSankeyData rs') a b.
Proof.
  intros Hperm a b. rewrite !edgeWeight_counts.
  apply countPair_Permutation, Permutation_flat_map, Hperm.
Qed.

Lemma sankey_weights_permutation_witness :
  edgeWeight
    (createSankeyData [mkReq "10.0.0.1" "a.example" "/p" "GET";
                       mkReq "10.0.0.2" "a.example" "/q" "GET"])
    apiType "a.example" =
  edgeWeight
    (createSankeyData [mkReq "10.0.0.2" "a.example" "/q" "GET";
                       mkReq "10.0.0.1" "a.example" "/p" "GET"])
    apiType "a.example".
Proof.
  exact (sankey_weights_permutation_invariant _ _
           (perm_swap (mkReq "10.0.0.2" "a.example" "/q" "GET")
              (mkReq "10.0.0.1" "a.example" "/p" "GET") [])
           apiType "a.example").
Defined.

Lemma forallb_positions (l : list Node) k :
  (forall i nd, l !! i = Some nd -> node_index nd = (k + i)%nat) ->
  forallb (fun p => (node_index (snd p) =? fst p)%nat)
    (combine (seq k (length l)) l) = true.
Proof.
  revert k. induction l as [|x l IH]; intros k H; simpl; [done|].
  rewrite (H 0%nat x eq_refl), Nat.add_0_r, Nat.eqb_refl. simpl.
  apply IH. intros i nd Hi. rewrite (H (S i) nd Hi). lia.
Qed.

(** The node half of well-formedness holds for every record list. *)
Lemma node_index_is_position rs : nodesWellFormed (createSankeyData rs) = true.
Proof.
  unfold nodesWellFormed, createSankeyData. cbn [sankey_nodes].
  apply forallb_positions. intros i nd Hi.
  by rewrite (inv_index _ _ (createSankeyData_inv rs) i nd Hi).
Qed.

Lemma chain_labels_not_inherited rs a b :
  forallb (fun item => negb (hasInheritedLabel item)) rs = true ->
  In (a, b) (flat_map chain rs) ->
  isPrototypeKey a = false /\ isPrototypeKey b = false.
Proof.
  rewrite forallb_forall. intros Hall (r & Hr & Hab)%in_flat_map.
  specialize (Hall r Hr). apply negb_true_iff in Hall.
  unfold hasInheritedLabel in Hall. rewrite !orb_false_iff in Hall.
  destruct Hall as [[[H1 H2] H3] H4].
  unfold chain in Hab. cbn [In] in Hab.
  destruct Hab as [[= <- <-]|[[= <- <-]|[[= <- <-]|[[= <- <-]|[]]]]]; done.
Qed.

(** The link half of well-formedness holds when no record has a label
    that is an inherited property name. *)
Lemma links_wellformed_without_inherited rs :
  forallb (fun item => negb (hasInheritedLabel item)) rs = true ->
  linksWellFormed (createSankeyData rs) = true.
Proof.
  intros Hall. pose proof (createSankeyData_inv rs) as Hinv.
  unfold linksWellFormed, createSankeyData. cbn [sankey_nodes sankey_links].
  apply forallb_forall. intros l Hl%list_elem_of_In.
  destruct (inv_ends_label _ _ Hinv l Hl) as (a & b & Hab & Ha & Hb).
  destruct (chain_labels_not_inherited rs a b Hall Hab) as [Hpa Hpb].
  assert (Hnum : forall x v,
            isPrototypeKey x = false ->
            obj_get (nodeIndex (fold_left addItem rs emptySankey)) x = Found v ->
            isNodePosition
              {| sankey_nodes := nodes (fold_left addItem rs emptySankey);
                 sankey_links := links (fold_left addItem rs emptySankey) |} v
            = true).
  { intros x v Hx. unfold obj_get. rewrite Hx.
    destruct (nodeIndex _ !! x) as [i|] eqn:E; [|done].
    intros [= <-]. simpl. apply Nat.ltb_lt. by eapply inv_bound. }
  by rewrite (Hnum a _ Hpa Ha), (Hnum b _ Hpb Hb).
Qed.

Lemma getNodeIndex_own st label i :
  nodeIndex st !! label = Some i -> getNodeIndex st label = (st, JNum i).
Proof. intros H. unfold getNodeIndex, obj_get. by rewrite H. Qed.

Lemma getNodeIndex_new st label :
  nodeIndex st !! label = None -> isPrototypeKey label = false ->
  getNodeIndex st label =
  ({| nodes := nodes st ++
               [{| node_name := label; node_index := length (nodes st) |}];
      nodeIndex := <[label := length (nodes st)]> (nodeIndex st);
      links := links st;
      linkIndex := linkIndex st |}, JNum (length (nodes st))).
Proof. intros H Hp. unfold getNodeIndex, obj_get. by rewrite H, Hp. Qed.

Lemma getLinkIndex_own st s t i :
  linkIndex st !! linkKey s t = Some i ->
  getLinkIndex st s t =
  {| nodes := nodes st; nodeIndex := nodeIndex st;
     links := alter bumpLink i (links st); linkIndex := linkIndex st |}.
Proof. intros H. unfold getLinkIndex. cbv zeta. by rewrite obj_get_linkKey, H. Qed.

Lemma getLinkIndex_new st s t :
  linkIndex st !! linkKey s t = None ->
  getLinkIndex st s t =
  {| nodes := nodes st; nodeIndex := nodeIndex st;
     links := links st ++ [{| source := s; target := t; value := 1 |}];
     linkIndex := <[linkKey s t := length (links st)]> (linkIndex st) |}.
Proof. intros H. unfold getLinkIndex. cbv zeta. by rewrite obj_get_linkKey, H. Qed.

Section IdenticalRecords.

Variable r : TxLog.
Let ip := ip_address (session_analytics r).
Let host := hostname r.
Let pth := path r.
Let meth := method r.

Hypothesis labels_distinct : NoDup [ip; apiType; host; pth; meth].
Hypothesis labels_own :
  isPrototypeKey ip = false /\ isPrototypeKey host = false /\
  isPrototypeKey pth = false /\ isPrototypeKey meth = false.

Local Ltac lookup_known :=
  cbn [nodeIndex];
  repeat (rewrite lookup_insert_ne by congruence);
  first [apply lookup_insert_eq | apply lookup_empty].

Local Ltac node_step :=
  first [ erewrite getNodeIndex_own by lookup_known
        | rewrite getNodeIndex_new by (first [lookup_known | tauto | reflexivity]) ];
  cbv beta iota; cbn [nodes nodeIndex links linkIndex length app].

Local Ltac link_step :=
  match goal with
  | |- context [getLinkIndex
                  {| nodes := ?n; nodeIndex := ?ni; links := ?l;
                     linkIndex := ?li |} ?s ?t] =>
      first
        [ rewrite (getLinkIndex_new
                     {| nodes := n; nodeIndex := ni; links := l;
                        linkIndex := li |} s t)
            by (vm_compute; reflexivity)
        | erewrite (getLinkIndex_own
                      {| nodes := n; nodeIndex := ni; links := l;
                         linkIndex := li |} s t)
            by (vm_compute; reflexivity) ]
  end;
  cbn [nodes nodeIndex links linkIndex length app alter list_alter bumpLink
       source target value].

Lemma labels_pairwise_distinct :
  ip <> apiType /\ ip <> host /\ ip <> pth /\ ip <> meth /\
  apiType <> host /\ apiType <> pth /\ apiType <> meth /\
  host <> pth /\ host <> meth /\ pth <> meth.
Proof.
  pose proof labels_distinct as H.
  repeat match goal with
  | H : NoDup (_ :: _) |- _ => apply NoDup_cons in H as [? H]
  end.
  repeat match goal with
  | H : _ ∉ _ |- _ => rewrite !not_elem_of_cons in H
  end.
  intuition congruence.
Qed.

Lemma addItem_first : addItem emptySankey r = identicalState ip host pth meth 1.
Proof.
  destruct labels_pairwise_distinct
    as (? & ? & ? & ? & ? & ? & ? & ? & ? & ?).
  unfold addItem, emptySankey. fold ip host pth meth.
  do 5 node_step. do 4 link_step. reflexivity.
Qed.

Lemma addItem_next k :
  addItem (identicalState ip host pth meth k) r =
  identicalState ip host pth meth (k + 1).
Proof.
  destruct labels_pairwise_distinct
    as (? & ? & ? & ? & ? & ? & ? & ? & ? & ?).
  unfold addItem, identicalState. fold ip host pth meth.
  do 5 node_step. do 4 link_step. reflexivity.
Qed.

Lemma fold_addItem_identical n k :
  fold_left addItem (repeat r n) (identicalState ip host pth meth k) =
  identicalState ip host pth meth (k + Z.of_nat n).
Proof.
  revert k. induction n as [|n IH]; intros k.
  - simpl. by rewrite Z.add_0_r.
  - cbn [repeat fold_left]. rewrite addItem_next, IH. f_equal. lia.
Qed.

(** When no label is an inherited property name, [N >= 1] copies of one
    record give 5 nodes and 4 edges, each of weight [N]. *)
Lemma identical_records_graph N :
  (1 <= N)%nat ->
  createSankeyData (repeat r N) =
  {| sankey_nodes := nodes (identicalState ip host pth meth (Z.of_nat N));
     sankey_links := links (identicalState ip host pth meth (Z.of_nat N)) |}.
Proof.
  intros HN. destruct N as [|n]; [lia|].
  unfold createSankeyData. cbn [repeat fold_left].
  rewrite addItem_first, fold_addItem_identical.
  replace (1 + Z.of_nat n) with (Z.of_nat (S n)) by lia. reflexivity.
Qed.

End IdenticalRecords.

(** C6 (the code fails the claim): two copies of a record whose hostname
    is "toString". The five labels are different strings, yet the graph has
    only 4 nodes: no node is created for the hostname, and the links around
    it carry the inherited function instead of a node index. *)
Theorem inherited_hostname_gets_no_node :
  let r := mkReq "10.0.0.1" "toString" "/p" "GET" in
  createSankeyData [r; r] =
  {| sankey_nodes :=
       [ {| node_name := "10.0.0.1"; node_index := 0 |};
         {| node_name := "API - JSON"; node_index := 1 |};
         {| node_name := "/p"; node_index := 2 |};
         {| node_name := "GET"; node_index := 3 |} ];
     sankey_links :=
       [ {| source := JNum 0; target := JNum 1; value := 2 |};
         {| source := JNum 1; target := JInherited "toString"; value := 2 |};
         {| source := JInherited "toString"; target := JNum 2; value := 2 |};
         {| source := JNum 2; target := JNum 3; value := 2 |} ] |}.
Proof. vm_compute. reflexivity. Qed.

(** C10 (the code fails the claim): one record whose hostname is
    "constructor". Every node's index is its position, but two links have an
    end that is not a node position. *)
Theorem inherited_label_breaks_links :
  let g := createSankeyData [mkReq "10.0.0.1" "constructor" "/p" "GET"] in
  nodesWellFormed g = true /\
  sankey_links g =
    [ {| source := JNum 0; target := JNum 1; value := 1 |};
      {| source := JNum 1; target := JInherited "constructor"; value := 1 |};
      {| source := JInherited "constructor"; target := JNum 2; value := 1 |};
      {| source := JNum 2; target := JNum 3; value := 1 |} ] /\
  linksWellFormed g = false.
Proof. vm_compute. repeat split. Qed.
(* ===================================================================== *)
(** * HealthScoreCalculator: properties                                   *)
(* ===================================================================== *)

Lemma num_gt_fin_false q r :
  (q <= r)%Q -> num_gt (fin q) (Fin r) = false.
Proof.
  intros H. unfold fin, num_gt.
  apply negb_false_iff, Qle_bool_iff. now rewrite Qred_correct.
Qed.

Lemma sumResponseTime_finite rs : isFinite (sumResponseTime rs) = true.
Proof.
  unfold sumResponseTime. generalize 0%Q.
  induction rs as [|r rs IH]; intros q; simpl; [done|]. apply IH.
Qed.

Lemma roundFixed_le_100 q :
  (q <= 100)%Q -> (roundFixed q 2 <= 100)%Q.
Proof.
  intros H. unfold roundFixed. rewrite Qred_correct.
  change (inject_Z (10 ^ Z.of_nat 2)) with (inject_Z 100).
  apply Qle_shift_div_r; [reflexivity|].
  destruct (Qle_bool 0 q) eqn:E.
  - apply Qle_bool_iff in E. rewrite Qabs_pos by exact E.
    change (100 * inject_Z 100)%Q with (inject_Z 10000).
    rewrite <- Zle_Qle.
    assert (Hf : (Qfloor (q * inject_Z 100 + (1 # 2)) <=
                  Qfloor (100 * inject_Z 100 + (1 # 2)))%Z).
    { apply Qfloor_resp_le, Qplus_le_l.
      apply Qmult_le_compat_r; [exact H|discriminate]. }
    exact Hf.
  - assert (Hn : (0 <= Qfloor (Qabs q * inject_Z 100 + (1 # 2)))%Z).
    { change 0%Z with (Qfloor 0). apply Qfloor_resp_le.
      apply Qle_trans with (Qabs q * inject_Z 100)%Q.
      - apply Qmult_le_0_compat; [apply Qabs_nonneg|discriminate].
      - rewrite <- (Qplus_0_r (Qabs q * inject_Z 100)) at 1.
        apply Qplus_le_r. discriminate. }
    apply Qle_trans with 0%Q; [|discriminate].
    rewrite <- (Qopp_involutive 0). apply Qopp_le_compat.
    change (- 0)%Q with (inject_Z 0). now rewrite <- Zle_Qle.
Qed.

(** The clamp of the Latency metric: its value is never above 100. *)
Lemma clamp_not_above ratio :
  num_gt (if num_gt ratio hundred then hundred else toFixed_value ratio 2)
         hundred = false.
Proof.
  destruct (num_gt ratio hundred) eqn:E; [reflexivity|].
  destruct ratio as [q| | |]; simpl in *; try done.
  apply negb_false_iff, Qle_bool_iff, roundFixed_le_100.
  now apply negb_false_iff, Qle_bool_iff in E.
Qed.

Lemma num_gt_false_le a b :
  num_gt a b = false -> a = NaN \/ b = NaN \/ num_le a b = true.
Proof.
  intros H. destruct a, b; auto; right; right; unfold num_le; rewrite H; done.
Qed.

Lemma count_le_length (p : TxLog -> bool) rs : (countWhere p rs <= length rs)%nat.
Proof. unfold countWhere. apply List.filter_length_le. Qed.

(** A ratio [k / n * 100] with [k <= n] is never above 100. *)
Lemma percent_not_above (k n : nat) :
  (k <= n)%nat ->
  num_gt (num_mul (num_div (num_of_nat k) (num_of_nat n)) hundred) hundred = false.
Proof.
  intros Hkn. unfold num_of_nat, num_of_Z, num_div.
  destruct (Qeq_bool (inject_Z (Z.of_nat n)) 0) eqn:E.
  - apply Qeq_bool_iff in E.
    assert (n = 0%nat) as ->.
    { unfold Qeq in E. simpl in E. lia. }
    assert (k = 0%nat) as -> by lia. reflexivity.
  - assert (Hn : (0 < n)%nat).
    { destruct n; [discriminate E|lia]. }
    unfold fin, num_mul, hundred. apply num_gt_fin_false.
    rewrite Qred_correct.
    assert (Hq : (inject_Z (Z.of_nat k) / inject_Z (Z.of_nat n) <= 1)%Q).
    { apply Qle_shift_div_r.
      - change 0%Q with (inject_Z 0). rewrite <- Zlt_Qlt. lia.
      - rewrite Qmult_1_l, <- Zle_Qle. lia. }
    apply Qle_trans with (1 * 100)%Q; [|discriminate].
    apply Qmult_le_compat_r; [exact Hq|discriminate].
Qed.

Lemma latency_value rs s e th :
  valueOf "Latency" (createRadarChartData rs s e th) =
  Some (clampLatency (Latency th) (averageLatency rs)).
Proof. destruct th. reflexivity. Qed.

Lemma success_value rs s e th :
  valueOf "Success" (createRadarChartData rs s e th) =
  Some (num_mul
          (num_div
             (num_of_nat
                (countWhere (fun item => status (response item) =? 200) rs))
             (num_of_nat (length rs)))
          hundred).
Proof. destruct th. reflexivity. Qed.

Lemma rps_value rs s e th :
  valueOf "RPS" (createRadarChartData rs s e th) =
  Some (num_mul (num_div (toFixed_value (scaledRate rs s e) 5) (RPS th)) hundred).
Proof. destruct th. reflexivity. Qed.

Lemma rps_actual rs s e th :
  actualOf "RPS" (createRadarChartData rs s e th) =
  Some [FixedStr (scaledRate rs s e) 5; Str " rps"].
Proof. destruct th. reflexivity. Qed.

Lemma uptime_value rs s e th :
  valueOf "Uptime" (createRadarChartData rs s e th) =
  Some (num_mul
          (num_div
             (num_mul
                (num_div
                   (num_sub (num_of_nat (length rs))
                      (num_of_nat
                         (countWhere
                            (fun item => 400 <=? status (response item)) rs)))
                   (num_of_nat (length rs)))
                hundred)
             (Uptime th))
          hundred).
Proof. destruct th. reflexivity. Qed.

Lemma averageLatency_nonempty rs :
  rs <> [] -> exists a, averageLatency rs = Fin a.
Proof.
  intros Hne. unfold averageLatency.
  pose proof (sumResponseTime_finite rs) as Hs.
  destruct (sumResponseTime rs) as [x| | |]; try discriminate Hs.
  unfold num_of_nat, num_of_Z, num_div.
  destruct (Qeq_bool (inject_Z (Z.of_nat (length rs))) 0) eqn:E.
  - apply Qeq_bool_iff in E. unfold Qeq in E. simpl in E.
    destruct rs; [done|simpl in E; lia].
  - eexists. reflexivity.
Qed.

(** With a finite non-zero threshold and a finite mean the clamped value is
    a number, and it is at most 100. *)
Lemma clampLatency_le q a :
  ~ (q == 0)%Q -> num_le (clampLatency (Fin q) (Fin a)) hundred = true.
Proof.
  intros Hq.
  pose proof (clamp_not_above (num_mul (num_div (Fin q) (Fin a)) hundred)) as Hc.
  fold (clampLatency (Fin q) (Fin a)) in Hc.
  apply num_gt_false_le in Hc as [Hc|[Hc|Hc]]; [|discriminate Hc|exact Hc].
  exfalso. revert Hc. unfold clampLatency, num_div.
  destruct (Qeq_bool a 0).
  - destruct (q ?= 0)%Q eqn:E; [|done|done].
    apply Qeq_alt in E. done.
  - unfold fin, num_mul, hundred, fin.
    match goal with |- context [num_gt ?x ?y] => destruct (num_gt x y) end; done.
Qed.

Lemma num_sub_self_zero s e :
  (s == e)%Q -> exists z, num_sub (Fin e) (Fin s) = Fin z /\ Qeq_bool z 0 = true.
Proof.
  intros H. eexists. split; [reflexivity|].
  apply Qeq_bool_iff. rewrite !Qred_correct. rewrite H. ring.
Qed.

Lemma scaledRate_zero_window rs s e :
  rs <> [] -> (s == e)%Q -> scaledRate rs s e = PInf.
Proof.
  intros Hne Hse. unfold scaledRate.
  destruct (num_sub_self_zero s e Hse) as (z & -> & Hz).
  unfold num_of_nat, num_of_Z, num_div. rewrite Hz.
  assert (Hpos : (inject_Z (Z.of_nat (length rs)) ?= 0)%Q = Gt).
  { apply Qgt_alt. change 0%Q with (inject_Z 0). rewrite <- Zlt_Qlt.
    destruct rs; [done|simpl; lia]. }
  rewrite Hpos. reflexivity.
Qed.

Lemma scaledRate_negative_window rs s e :
  rs <> [] -> (e < s)%Q -> exists q, scaledRate rs s e = Fin q /\ (q < 0)%Q.
Proof.
  intros Hne Hse. unfold scaledRate, num_sub, num_neg, num_add, fin.
  unfold num_of_nat, num_of_Z, num_div.
  set (n := inject_Z (Z.of_nat (length rs))).
  assert (Hn : (0 < n)%Q).
  { unfold n. change 0%Q with (inject_Z 0). rewrite <- Zlt_Qlt.
    destruct rs; [done|simpl; lia]. }
  set (w := Qred (e + Qred (- s))).
  assert (Hw : (w < 0)%Q).
  { unfold w. rewrite !Qred_correct.
    apply Qplus_lt_l with (z := s). ring_simplify. exact Hse. }
  destruct (Qeq_bool w 0) eqn:E.
  - apply Qeq_bool_iff in E. rewrite E in Hw. discriminate Hw.
  - unfold fin, num_mul, hundred, fin. eexists. split; [reflexivity|].
    rewrite !Qred_correct.
    assert (Hinv : (/ w < 0)%Q).
    { destruct w as [[|p|p] d]; unfold Qlt, Qinv in *; simpl in *; lia. }
    assert (Hd : (n / w < 0)%Q).
    { unfold Qdiv. apply Qlt_le_trans with (n * 0)%Q.
      - apply Qmult_lt_l; assumption.
      - rewrite Qmult_0_r. apply Qle_refl. }
    apply Qlt_le_trans with (0 * 100)%Q.
    + apply Qmult_lt_r; [reflexivity|exact Hd].
    + discriminate.
Qed.

(** C1 (as stated it fails): for an empty record list the call returns
    normally, and the Uptime, Success and Latency values are NaN. *)
Lemma radar_empty_returns_NaN :
  map metric_value (createRadarChartData [] 0 10 (mkMetrics hundred)) =
  [Fin 0; NaN; NaN; hundred; hundred; NaN].
Proof. reflexivity. Qed.

(** C1 (amended): [createRadarChartData] raises no error on degenerate
    input. It always returns the six metrics. For an empty record list the
    Uptime, Success and Latency values are NaN. For a non-empty list and a
    window of zero duration the RPS value is not finite. For a non-empty
    list and a window of negative duration nothing is divided by zero: the
    scaled rate shown in the RPS metric is not NaN and not above zero. *)
Theorem radar_degenerate_input_no_error rs s e th :
  let out := createRadarChartData rs s e th in
  length out = 6%nat /\
  (rs = [] ->
   valueOf "Uptime" out = Some NaN /\ valueOf "Success" out = Some NaN /\
   valueOf "Latency" out = Some NaN) /\
  (rs <> [] -> (s == e)%Q ->
   exists v, valueOf "RPS" out = Some v /\ isFinite v = false) /\
  (rs <> [] -> (e < s)%Q ->
   exists v, actualOf "RPS" out = Some [FixedStr v 5; Str " rps"] /\
             num_le v (Fin 0) = true).
Proof.
  cbv zeta. split; [destruct th; reflexivity|]. split; [|split].
  - intros ->. rewrite uptime_value, success_value, latency_value.
    split; [|split].
    + destruct (Uptime th); reflexivity.
    + reflexivity.
    + destruct (Latency th); reflexivity.
  - intros Hne Hse. rewrite rps_value, (scaledRate_zero_window rs s e Hne Hse).
    eexists. split; [reflexivity|].
    destruct (RPS th) as [y| | |]; simpl; try reflexivity.
    destruct (y ?= 0)%Q; reflexivity.
  - intros Hne Hse. rewrite rps_actual.
    destruct (scaledRate_negative_window rs s e Hne Hse) as (q & -> & Hq).
    exists (Fin q). split; [reflexivity|].
    unfold num_le, num_gt. rewrite negb_involutive.
    by apply Qle_bool_iff, Qlt_le_weak.
Qed.

Lemma radar_degenerate_input_witness :
  valueOf "Uptime" (createRadarChartData [] 0 10 (mkMetrics hundred)) = Some NaN /\
  valueOf "Success" (createRadarChartData [] 0 10 (mkMetrics hundred)) = Some NaN /\
  valueOf "Latency" (createRadarChartData [] 0 10 (mkMetrics hundred)) = Some NaN.
Proof.
  exact (proj1 (proj2 (radar_degenerate_input_no_error [] 0 10 (mkMetrics hundred)))
           eq_refl).
Defined.

(** C8 (as stated it fails): with a Latency threshold of 0 and a mean
    response time of 0 the Latency value is NaN, which is not at most 100;
    and the Success value never exceeds 100, whatever the input. *)
Lemma latency_value_can_be_NaN_success_bounded :
  (valueOf "Latency"
     (createRadarChartData [mkTimed 200 0] 0 1 (mkMetrics (Fin 0))) = Some NaN /\
   num_le NaN hundred = false) /\
  (forall rs s e th,
     exists v, valueOf "Success" (createRadarChartData rs s e th) = Some v /\
               num_gt v hundred = false).
Proof.
  split; [split; reflexivity|].
  intros rs s e th. rewrite success_value. eexists. split; [reflexivity|].
  apply percent_not_above, count_le_length.
Qed.

(** C8 (amended): the Latency value is never above 100: it is at most 100
    or NaN, and it is at most 100 whenever the record list is non-empty and
    the Latency threshold is a finite non-zero number. The RPS and Uptime
    values are not clamped and exceed 100 on some valid input. The Success
    value is not clamped either, but it never exceeds 100 because the
    number of successful requests is at most the number of requests. With
    a Latency threshold of 100 and a mean latency of 50 the Latency value is
    exactly 100. *)
Theorem latency_clamped_rps_uptime_not :
  (forall rs s e th,
     exists v, valueOf "Latency" (createRadarChartData rs s e th) = Some v /\
               num_gt v hundred = false /\
               (v = NaN \/ num_le v hundred = true)) /\
  (forall rs s e th q,
     rs <> [] -> Latency th = Fin q -> ~ (q == 0)%Q ->
     exists v, valueOf "Latency" (createRadarChartData rs s e th) = Some v /\
               num_le v hundred = true) /\
  (exists rs s e th v,
     rs <> [] /\ (s < e)%Q /\
     valueOf "RPS" (createRadarChartData rs s e th) = Some v /\
     num_gt v hundred = true) /\
  (exists rs s e th v,
     rs <> [] /\ (s < e)%Q /\
     valueOf "Uptime" (createRadarChartData rs s e th) = Some v /\
     num_gt v hundred = true) /\
  (forall rs s e th,
     exists v, valueOf "Success" (createRadarChartData rs s e th) = Some v /\
               num_gt v hundred = false) /\
  (forall rs s e th,
     Latency th = hundred -> averageLatency rs = Fin 50 ->
     valueOf "Latency" (createRadarChartData rs s e th) = Some hundred).
Proof.
  split; [|split; [|split; [|split; [|split]]]].
  - intros rs s e th. rewrite latency_value. eexists. split; [reflexivity|].
    pose proof (clamp_not_above
      (num_mul (num_div (Latency th) (averageLatency rs)) hundred)) as Hc.
    fold (clampLatency (Latency th) (averageLatency rs)) in Hc.
    split; [exact Hc|].
    apply num_gt_false_le in Hc as [Hc|[Hc|Hc]]; [by left|discriminate Hc|by right].
  - intros rs s e th q Hne Hth Hq. rewrite latency_value, Hth.
    destruct (averageLatency_nonempty rs Hne) as [a ->].
    eexists. split; [reflexivity|]. by apply clampLatency_le.
  - exists [mkTimed 200 50], 0%Q, 1%Q, (mkMetrics (Fin 1)). eexists.
    split; [done|]. split; [reflexivity|]. split; reflexivity.
  - exists [mkTimed 200 50], 0%Q, 1%Q, (mkMetrics (Fin 50)). eexists.
    split; [done|]. split; [reflexivity|]. split; reflexivity.
  - intros rs s e th. rewrite success_value. eexists. split; [reflexivity|].
    apply percent_not_above, count_le_length.
  - intros rs s e th Hth Havg. rewrite latency_value, Hth, Havg. reflexivity.
Qed.

Lemma latency_clamped_witness :
  valueOf "Latency"
    (createRadarChartData [mkTimed 200 50; mkTimed 500 50] 0 7 (mkMetrics hundred))
  = Some hundred.
Proof.
  exact (proj2 (proj2 (proj2 (proj2 (proj2 latency_clamped_rps_uptime_not))))
           [mkTimed 200 50; mkTimed 500 50] 0%Q 7%Q (mkMetrics hundred)
           eq_refl eq_refl).
Defined.

(** C9: two settings objects that differ only in the Success threshold give
    the same output on the same records and window. *)
Theorem success_threshold_unused rs s e b i l r u (s1 s2 : num) :
  createRadarChartData rs s e
    {| Builders := b; Inventory := i; Latency := l; RPS := r; Success := s1;
       Uptime := u |} =
  createRadarChartData rs s e
    {| Builders := b; Inventory := i; Latency := l; RPS := r; Success := s2;
       Uptime := u |}.
Proof. reflexivity. Qed.
(* ===================================================================== *)
(** * Period starts: further properties                                   *)
(* ===================================================================== *)

Lemma MonthIndex_mono d1 d2 : d1 <= d2 -> MonthIndex d1 <= MonthIndex d2.
Proof.
  intros H. destruct (Z.le_gt_cases (MonthIndex d1) (MonthIndex d2)) as [|Hgt]; [done|].
  pose proof (MonthIndex_spec d1) as [H1 _].
  pose proof (MonthIndex_spec d2) as [_ H2].
  destruct (Z.eq_dec (MonthIndex d2 + 1) (MonthIndex d1)) as [E|Hne].
  - rewrite E in H2. lia.
  - pose proof (MonthStart_lt (MonthIndex d2 + 1) (MonthIndex d1) ltac:(lia)). lia.
Qed.

Lemma Day_mono t1 t2 : t1 <= t2 -> Day t1 <= Day t2.
Proof. intros H. unfold Day, msPerDay. Z.div_mod_to_equations. lia. Qed.

Lemma MonthStart_le a b : a <= b -> MonthStart a <= MonthStart b.
Proof.
  intros H. destruct (Z.eq_dec a b) as [->|Hne]; [lia|].
  pose proof (MonthStart_lt a b ltac:(lia)). lia.
Qed.

Lemma getStartOfPeriod_closed date period :
  getStartOfPeriod date period = periodStart (alignment period) date 0.
Proof. exact (getStartOfPeriod_iter period date 0). Qed.

(** X1: the start of the period of a date is at or before the date and
    less than one period length before it; taking the start twice changes
    nothing; a later date never has an earlier start. *)
Theorem getStartOfPeriod_floor date period :
  getStartOfPeriod date period <= date /\
  date - getStartOfPeriod date period < periodLengthBound (alignment period) /\
  getStartOfPeriod (getStartOfPeriod date period) period =
    getStartOfPeriod date period /\
  (forall later, date <= later ->
     getStartOfPeriod date period <= getStartOfPeriod later period).
Proof.
  rewrite !getStartOfPeriod_closed.
  split; [apply periodStart_le_now|].
  split; [|split].
  - destruct (alignment period); unfold periodStart, periodLengthBound;
      rewrite Z.sub_0_r.
    + unfold msPerHour. Z.div_mod_to_equations. lia.
    + unfold Day, msPerDay. Z.div_mod_to_equations. lia.
    + unfold weekStartDay, Day, msPerDay. Z.div_mod_to_equations. lia.
    + pose proof (MonthIndex_spec (Day date)) as [_ Hs].
      pose proof (MonthStart_step (MonthIndex (Day date))).
      pose proof (Day_TimeWithinDay date). pose proof (TimeWithinDay_bounds date).
      unfold msPerDay in *. lia.
  - destruct (alignment period); unfold periodStart; rewrite !Z.sub_0_r.
    + f_equal. unfold msPerHour. Z.div_mod_to_equations. lia.
    + by rewrite Day_mul.
    + rewrite Day_mul. f_equal. unfold weekStartDay. Z.div_mod_to_equations. lia.
    + by rewrite Day_mul, MonthIndex_MonthStart.
  - intros later Hl. rewrite getStartOfPeriod_closed.
    pose proof (Day_mono _ _ Hl) as Hd.
    destruct (alignment period); unfold periodStart; rewrite !Z.sub_0_r.
    + unfold msPerHour. Z.div_mod_to_equations. lia.
    + unfold msPerDay. lia.
    + assert (weekStartDay (Day date) <= weekStartDay (Day later))
        by (unfold weekStartDay; Z.div_mod_to_equations; lia).
      unfold msPerDay. lia.
    + pose proof (MonthStart_le _ _ (MonthIndex_mono _ _ Hd)).
      unfold msPerDay. lia.
Qed.

Lemma getStartOfPeriod_floor_witness :
  getStartOfPeriod 1710505800000 "weekly" <= getStartOfPeriod 1710505800001 "weekly".
Proof.
  apply (proj2 (proj2 (proj2 (getStartOfPeriod_floor 1710505800000 "weekly")))).
  vm_compute. discriminate.
Defined.

(** X2: what each alignment means on the calendar. An hourly start is the
    top of the hour of the date; a daily start is midnight of its day; a
    weekly start is midnight of a Monday, at most six days back; a monthly
    start, and the start for an unrecognized period value, is midnight of
    the first day of the date's month. *)
Theorem getStartOfPeriod_calendar date :
  (let s := getStartOfPeriod date "hourly" in
   Day s = Day date /\ getHours s = getHours date /\
   s mod msPerHour = 0) /\
  (let s := getStartOfPeriod date "daily" in
   Day s = Day date /\ TimeWithinDay s = 0) /\
  (let s := getStartOfPeriod date "weekly" in
   getDay s = 1 /\ TimeWithinDay s = 0 /\ 0 <= Day date - Day s <= 6) /\
  (forall period, alignment period = Monthly ->
   let s := getStartOfPeriod date period in
   getDate s = 1 /\ TimeWithinDay s = 0 /\
   getMonth s = getMonth date /\ getFullYear s = getFullYear date).
Proof.
  split; [|split; [|split]]; cbv zeta.
  - rewrite getStartOfPeriod_closed. change (alignment "hourly") with Hourly.
    unfold periodStart, getHours, Day, TimeWithinDay, msPerDay, msPerHour.
    rewrite Z.sub_0_r. repeat split; Z.div_mod_to_equations; lia.
  - rewrite getStartOfPeriod_closed. change (alignment "daily") with Daily.
    unfold periodStart. rewrite Z.sub_0_r, Day_mul. split; [done|].
    unfold TimeWithinDay, msPerDay. Z.div_mod_to_equations. lia.
  - rewrite getStartOfPeriod_closed. change (alignment "weekly") with Weekly.
    unfold periodStart. rewrite Z.sub_0_r. unfold getDay. rewrite Day_mul.
    unfold weekStartDay, TimeWithinDay, msPerDay.
    repeat split; Z.div_mod_to_equations; lia.
  - intros period Ha. rewrite getStartOfPeriod_closed, Ha.
    unfold periodStart. rewrite Z.sub_0_r.
    unfold getDate, getMonth, getFullYear.
    rewrite Day_mul, MonthIndex_MonthStart.
    repeat split; try lia.
    unfold TimeWithinDay, msPerDay. Z.div_mod_to_equations. lia.
Qed.

Lemma getStartOfPeriod_calendar_witness :
  getDate (getStartOfPeriod 1710505800000 "quarterly") = 1.
Proof.
  exact (proj1 (proj2 (proj2 (proj2 (getStartOfPeriod_calendar 1710505800000)))
                 "quarterly" eq_refl)).
Defined.

Lemma getPreviousPeriods_closed date period n :
  getPreviousPeriods date period n =
  rev (map (fun j => periodStart (alignment period) date (Z.of_nat j)) (seq 0 n)).
Proof.
  unfold getPreviousPeriods. rewrite getPreviousPeriods_loop_spec. simpl app.
  f_equal. apply map_ext. intros j. apply getStartOfPeriod_iter.
Qed.

Lemma getPreviousPeriods_nth date period n i :
  (i < n)%nat ->
  nth i (getPreviousPeriods date period n) 0 =
  periodStart (alignment period) date (Z.of_nat n - 1 - Z.of_nat i).
Proof.
  intros Hi. rewrite getPreviousPeriods_closed.
  rewrite rev_nth by (rewrite length_map, length_seq; lia).
  rewrite length_map, length_seq.
  rewrite (nth_indep _ 0 (periodStart (alignment period) date (Z.of_nat 0)))
    by (rewrite length_map, length_seq; lia).
  rewrite (map_nth (fun j => periodStart (alignment period) date (Z.of_nat j))).
  rewrite seq_nth by lia. f_equal. lia.
Qed.

Lemma getPreviousPeriods_length date period n :
  length (getPreviousPeriods date period n) = n.
Proof.
  rewrite getPreviousPeriods_closed.
  by rewrite length_rev, length_map, length_seq.
Qed.

(** X3: for every count, [getPreviousPeriods] returns that many period
    starts, strictly increasing (oldest first), none after the date; the
    last one is the start of the date's own period. *)
Theorem getPreviousPeriods_chronological date period n :
  length (getPreviousPeriods date period n) = n /\
  StronglySorted Z.lt (getPreviousPeriods date period n) /\
  Forall (fun p => p <= date) (getPreviousPeriods date period n) /\
  (forall k, n = S k ->
     nth k (getPreviousPeriods date period n) 0 = getStartOfPeriod date period).
Proof.
  split; [apply getPreviousPeriods_length|]. split; [|split].
  - rewrite getPreviousPeriods_closed.
    induction n as [|n IH]; [constructor|].
    rewrite seq_S, map_app, rev_app_distr. simpl.
    constructor; [exact IH|].
    apply List.Forall_forall. intros x Hx%in_rev.
    apply in_map_iff in Hx as (j & <- & Hj%in_seq).
    apply periodStart_lt. lia.
  - rewrite getPreviousPeriods_closed.
    apply List.Forall_forall. intros x Hx%in_rev.
    apply in_map_iff in Hx as (j & <- & Hj%in_seq).
    pose proof (periodStart_le_now (alignment period) date).
    destruct (Z.eq_dec (Z.of_nat j) 0) as [->|Hne]; [done|].
    pose proof (periodStart_lt (alignment period) date 0 (Z.of_nat j) ltac:(lia)).
    lia.
  - intros k ->. rewrite getPreviousPeriods_nth by lia.
    rewrite getStartOfPeriod_closed. f_equal. lia.
Qed.

Lemma getPreviousPeriods_chronological_witness :
  nth 2 (getPreviousPeriods 1710505800000 "daily" 3) 0 =
  getStartOfPeriod 1710505800000 "daily".
Proof.
  exact (proj2 (proj2 (proj2
    (getPreviousPeriods_chronological 1710505800000 "daily" 3))) 2%nat eq_refl).
Defined.

(** X4: consecutive period starts are exactly one period apart: an hour, a
    day or seven days; for the monthly alignment (and an unrecognized
    period value) they are the firsts of consecutive months, 28 to 31 days
    apart. The periods tile the time line without gaps. *)
Theorem getPreviousPeriods_contiguous date period n i :
  (i + 1 < n)%nat ->
  let gap := nth (i + 1) (getPreviousPeriods date period n) 0 -
             nth i (getPreviousPeriods date period n) 0 in
  match alignment period with
  | Hourly => gap = msPerHour
  | Daily => gap = msPerDay
  | Weekly => gap = 7 * msPerDay
  | Monthly =>
      28 * msPerDay <= gap <= 31 * msPerDay /\
      getDate (nth i (getPreviousPeriods date period n) 0) = 1 /\
      MonthIndex (Day (nth (i + 1) (getPreviousPeriods date period n) 0)) =
      MonthIndex (Day (nth i (getPreviousPeriods date period n) 0)) + 1
  end.
Proof.
  intros Hi. cbv zeta. rewrite !getPreviousPeriods_nth by lia.
  destruct (alignment period); unfold periodStart.
  - unfold msPerHour. lia.
  - unfold msPerDay. lia.
  - unfold msPerDay. lia.
  - set (m := MonthIndex (Day date) - (Z.of_nat n - 1 - Z.of_nat i)).
    replace (MonthIndex (Day date) - (Z.of_nat n - 1 - Z.of_nat (i + 1)))
      with (m + 1) by (unfold m; lia).
    pose proof (MonthStart_step m).
    unfold getDate. rewrite !Day_mul, !MonthIndex_MonthStart.
    unfold msPerDay. lia.
Qed.

Lemma getPreviousPeriods_contiguous_witness :
  nth 1 (getPreviousPeriods 1710505800000 "weekly" 5) 0 -
  nth 0 (getPreviousPeriods 1710505800000 "weekly" 5) 0 = 7 * msPerDay.
Proof.
  apply (getPreviousPeriods_contiguous 1710505800000 "weekly" 5 0).
  vm_compute. lia.
Defined.

(* ===================================================================== *)
(** * [organizeData]: further properties                                  *)
(* ===================================================================== *)

Lemma countWhere_app (p : TxLog -> bool) rs1 rs2 :
  countWhere p (rs1 ++ rs2) = (countWhere p rs1 + countWhere p rs2)%nat.
Proof. unfold countWhere. by rewrite List.filter_app, length_app. Qed.

Lemma countWhere_Permutation (p : TxLog -> bool) rs rs' :
  Permutation rs rs' -> countWhere p rs = countWhere p rs'.
Proof.
  intros H. unfold countWhere.
  induction H as [|x l l' _ IH|x y l|l l' l'' _ IH1 _ IH2]; simpl.
  - done.
  - destruct (p x); simpl; by rewrite IH.
  - destruct (p x), (p y); reflexivity.
  - by rewrite IH1, IH2.
Qed.

Lemma bucketOf_app key s e rs1 rs2 :
  bucketOf key s e (rs1 ++ rs2) =
  mergeBuckets (bucketOf key s e rs1) (bucketOf key s e rs2).
Proof.
  unfold bucketOf, mergeBuckets. cbn [name req error].
  rewrite !countWhere_app, !Nat2Z.inj_add. reflexivity.
Qed.

Lemma bucketOf_Permutation key s e rs rs' :
  Permutation rs rs' -> bucketOf key s e rs = bucketOf key s e rs'.
Proof.
  intros H. unfold bucketOf.
  by rewrite (countWhere_Permutation _ _ _ H), (countWhere_Permutation _ _ _ H).
Qed.

(** X5: with no records, [organizeData] still returns the five buckets,
    labelled by the five period starts, every count zero. *)
Theorem organizeData_no_records period now endDate :
  organizeData [] period now endDate =
  map (fun p => {| name := format p (labelFormat period); req := 0; error := 0 |})
      (getPreviousPeriods now period 5).
Proof. rewrite organizeData_five, getPreviousPeriods_five. reflexivity. Qed.

(** X6: the buckets of two lists of records put together are the sums,
    bucket by bucket, of the buckets of each list. *)
Theorem organizeData_app rs1 rs2 period now endDate :
  organizeData (rs1 ++ rs2) period now endDate =
  map (fun bb => mergeBuckets (fst bb) (snd bb))
      (combine (organizeData rs1 period now endDate)
               (organizeData rs2 period now endDate)).
Proof.
  rewrite !organizeData_five. cbn [combine map fst snd].
  by rewrite !bucketOf_app.
Qed.

(** X7: the order of the records does not matter: a permutation of the
    records gives the same buckets. *)
Theorem organizeData_Permutation rs rs' period now endDate :
  Permutation rs rs' ->
  organizeData rs period now endDate = organizeData rs' period now endDate.
Proof.
  intros H. rewrite !organizeData_five.
  by rewrite !(bucketOf_Permutation _ _ _ _ _ H).
Qed.

Lemma organizeData_Permutation_witness :
  organizeData [mkLog 1710500401 500; mkLog 1710505700 200] "hourly"
    1710505800000 1710505800000 =
  organizeData [mkLog 1710505700 200; mkLog 1710500401 500] "hourly"
    1710505800000 1710505800000.
Proof.
  exact (organizeData_Permutation _ _ "hourly" 1710505800000 1710505800000
           (perm_swap (mkLog 1710505700 200) (mkLog 1710500401 500) [])).
Defined.

(** X8: the labels of the five period starts are pairwise distinct,
    whatever the period value and the clock, so no bucket overwrites
    another in [dataMap]: five buckets are returned, and their names are
    the labels of the five period starts, oldest first. *)
Theorem organizeData_labels_distinct rs period now endDate :
  let labels :=
    map (fun p => format p (labelFormat period)) (getPreviousPeriods now period 5) in
  NoDup labels /\
  length labels = 5%nat /\
  length (organizeData rs period now endDate) = 5%nat /\
  map name (organizeData rs period now endDate) = labels.
Proof.
  cbv zeta. split; [apply periodLabels_NoDup|].
  split; [by rewrite getPreviousPeriods_five|].
  split; [apply organizeData_length|apply organizeData_names].
Qed.

(* ===================================================================== *)
(** * [createSankeyData]: further properties                              *)
(* ===================================================================== *)

(** X9: [getNodeIndex] is get-or-create: asking again for the same label
    returns the same value and leaves the state as it is, whatever the
    state; and no label loses the value it had. *)
Theorem getNodeIndex_idempotent st label :
  getNodeIndex (getNodeIndex st label).1 label = getNodeIndex st label /\
  (forall other w, obj_get (nodeIndex st) other = Found w ->
     obj_get (nodeIndex (getNodeIndex st label).1) other = Found w).
Proof.
  unfold getNodeIndex at 2 3 4.
  destruct (obj_get (nodeIndex st) label) as [|v] eqn:E; cbn [fst snd].
  - split.
    + unfold getNodeIndex, obj_get. cbn [nodeIndex].
      by rewrite lookup_insert_eq.
    + intros other w Ho. cbn [nodeIndex].
      rewrite (obj_get_insert _ _ _ _ E). case_decide as Hd; [|done].
      subst other. congruence.
  - split; [|done]. unfold getNodeIndex. by rewrite E.
Qed.

(** The builder as a composition of its nine calls. *)
Lemma addItem_calls st item :
  let g1 := getNodeIndex st (ip_address (session_analytics item)) in
  let g2 := getNodeIndex g1.1 apiType in
  let g3 := getNodeIndex g2.1 (hostname item) in
  let g4 := getNodeIndex g3.1 (path item) in
  let g5 := getNodeIndex g4.1 (method item) in
  addItem st item =
  getLinkIndex
    (getLinkIndex
       (getLinkIndex (getLinkIndex g5.1 g1.2 g2.2) g2.2 g3.2) g3.2 g4.2)
    g4.2 g5.2.
Proof.
  unfold addItem.
  destruct (getNodeIndex st _) as [st1 v1]. cbn [fst snd].
  destruct (getNodeIndex st1 _) as [st2 v2]. cbn [fst snd].
  destruct (getNodeIndex st2 _) as [st3 v3]. cbn [fst snd].
  destruct (getNodeIndex st3 _) as [st4 v4]. cbn [fst snd].
  destruct (getNodeIndex st4 _) as [st5 v5]. reflexivity.
Qed.

Lemma getNodeIndex_links st label :
  links (getNodeIndex st label).1 = links st /\
  linkIndex (getNodeIndex st label).1 = linkIndex st.
Proof. unfold getNodeIndex. by destruct (obj_get _ _). Qed.

Lemma getLinkIndex_nodes st s t :
  nodes (getLinkIndex st s t) = nodes st /\
  nodeIndex (getLinkIndex st s t) = nodeIndex st.
Proof. unfold getLinkIndex. cbv zeta. by destruct (obj_get _ _) as [|[]]. Qed.

(** ** Node names *)

(** Every node is registered in [nodeIndex] under its name at its own
    position, and its name is one of [labels] and not an inherited
    property name. *)
Lemma getNodeIndex_named st labels label :
  (forall i nd, nodes st !! i = Some nd ->
     nodeIndex st !! node_name nd = Some i /\
     isPrototypeKey (node_name nd) = false /\ In (node_name nd) labels) ->
  forall i nd, nodes (getNodeIndex st label).1 !! i = Some nd ->
     nodeIndex (getNodeIndex st label).1 !! node_name nd = Some i /\
     isPrototypeKey (node_name nd) = false /\
     In (node_name nd) (labels ++ [label]).
Proof.
  intros H i nd. unfold getNodeIndex.
  destruct (obj_get (nodeIndex st) label) as [|v] eqn:E; cbn [fst nodes nodeIndex].
  - destruct (obj_get_Undefined _ _ E) as [Hnone Hproto].
    intros [Hi|[Hlen Hi]]%lookup_app_Some.
    + destruct (H i nd Hi) as (H1 & H2 & H3).
      split; [|split; [done|apply in_or_app; by left]].
      rewrite lookup_insert_ne; [done|]. intros Heq. congruence.
    + destruct (i - length (nodes st))%nat as [|k] eqn:Ek; [|done].
      injection Hi as <-. cbn [node_name].
      split; [|split; [done|apply in_or_app; right; by left]].
      rewrite lookup_insert_eq. f_equal. lia.
  - intros Hi. destruct (H i nd Hi) as (H1 & H2 & H3).
    split; [done|split; [done|apply in_or_app; by left]].
Qed.

Lemma addItem_named st labels item :
  (forall i nd, nodes st !! i = Some nd ->
     nodeIndex st !! node_name nd = Some i /\
     isPrototypeKey (node_name nd) = false /\ In (node_name nd) labels) ->
  forall i nd, nodes (addItem st item) !! i = Some nd ->
     nodeIndex (addItem st item) !! node_name nd = Some i /\
     isPrototypeKey (node_name nd) = false /\
     In (node_name nd) (labels ++ labelsOf item).
Proof.
  intros H. rewrite addItem_calls. cbv zeta.
  repeat match goal with
  | |- context [nodes (getLinkIndex ?s ?a ?b)] =>
      rewrite (proj1 (getLinkIndex_nodes s a b)),
              (proj2 (getLinkIndex_nodes s a b))
  end.
  unfold labelsOf.
  change (labels ++ [?a; ?b; ?c; ?d; ?e])
    with (labels ++ [a] ++ [b] ++ [c] ++ [d] ++ [e]).
  rewrite !app_assoc.
  by do 5 apply getNodeIndex_named.
Qed.

Lemma fold_addItem_named rs st labels :
  (forall i nd, nodes st !! i = Some nd ->
     nodeIndex st !! node_name nd = Some i /\
     isPrototypeKey (node_name nd) = false /\ In (node_name nd) labels) ->
  forall i nd, nodes (fold_left addItem rs st) !! i = Some nd ->
     nodeIndex (fold_left addItem rs st) !! node_name nd = Some i /\
     isPrototypeKey (node_name nd) = false /\
     In (node_name nd) (labels ++ flat_map labelsOf rs).
Proof.
  revert st labels. induction rs as [|r rs IH]; intros st labels H;
    cbn [fold_left flat_map].
  - rewrite app_nil_r. exact H.
  - rewrite app_assoc. apply IH, addItem_named, H.
Qed.

Lemma chain_labels rs label :
  In label (flat_map labelsOf rs) ->
  exists a b, In (a, b) (flat_map chain rs) /\ (label = a \/ label = b).
Proof.
  intros (r & Hr & Hl)%in_flat_map.
  assert (Hc : forall a b, In (a, b) (chain r) -> In (a, b) (flat_map chain rs)).
  { intros a b Hab. apply in_flat_map. by exists r. }
  unfold labelsOf in Hl. cbn [In] in Hl.
  destruct Hl as [<-|[<-|[<-|[<-|[<-|[]]]]]].
  - eexists _, _. split; [apply Hc; left; reflexivity|by left].
  - eexists _, _. split; [apply Hc; left; reflexivity|by right].
  - eexists _, _. split; [apply Hc; right; left; reflexivity|by right].
  - eexists _, _. split; [apply Hc; right; right; left; reflexivity|by right].
  - eexists _, _.
    split; [apply Hc; right; right; right; left; reflexivity|by right].
Qed.

Lemma NoDup_map_lookup {A B} (f : A -> B) (l : list A) :
  (forall i j x y, l !! i = Some x -> l !! j = Some y -> f x = f y -> i = j) ->
  NoDup (map f l).
Proof.
  intros H. change (map f l) with (f <$> l). apply NoDup_alt.
  intros i j b Hi Hj. rewrite list_lookup_fmap in Hi, Hj.
  destruct (l !! i) as [x|] eqn:Ei; [|done].
  destruct (l !! j) as [y|] eqn:Ej; [|done].
  simpl in Hi, Hj. apply (H i j x y Ei Ej). congruence.
Qed.

(** X10: the nodes of the graph are exactly the labels of the records
    (with the constant type label) that are not inherited property names,
    each of them once; so there are at most [4 * n + 1] nodes for [n]
    records. *)
Theorem sankey_nodes_are_the_labels rs :
  let names := map node_name (sankey_nodes (createSankeyData rs)) in
  NoDup names /\
  (forall label, In label names <->
     In label (flat_map labelsOf rs) /\ isPrototypeKey label = false) /\
  (length names <= 4 * length rs + 1)%nat.
Proof.
  cbv zeta. unfold createSankeyData. cbn [sankey_nodes].
  set (st := fold_left addItem rs emptySankey).
  assert (Hnamed : forall i nd, nodes st !! i = Some nd ->
            nodeIndex st !! node_name nd = Some i /\
            isPrototypeKey (node_name nd) = false /\
            In (node_name nd) (flat_map labelsOf rs)).
  { apply (fold_addItem_named rs emptySankey []). intros i nd Hi.
    unfold emptySankey in Hi. cbn [nodes] in Hi. by rewrite lookup_nil in Hi. }
  assert (Hnd : NoDup (map node_name (nodes st))).
  { apply NoDup_map_lookup. intros i j x y Hi Hj Hxy.
    destruct (Hnamed i x Hi) as (H1 & _). destruct (Hnamed j y Hj) as (H2 & _).
    rewrite Hxy in H1. congruence. }
  split; [exact Hnd|]. split.
  - intros label. split.
    + intros (nd & <- & Hin)%in_map_iff.
      apply list_elem_of_In, list_elem_of_lookup in Hin as [i Hi].
      destruct (Hnamed i nd Hi) as (_ & H2 & H3). done.
    + intros [Hin Hproto].
      pose proof (createSankeyData_inv rs) as Hinv. fold st in Hinv.
      destruct (chain_labels rs label Hin) as (a & b & Hab & Hl).
      destruct (inv_seen _ _ Hinv a b Hab) as [Ha Hb].
      assert (Hdef : obj_get (nodeIndex st) label <> Undefined)
        by (destruct Hl as [->| ->]; done).
      unfold obj_get in Hdef. rewrite Hproto in Hdef.
      destruct (nodeIndex st !! label) as [i|] eqn:Ei; [|done].
      pose proof (inv_find _ _ Hinv label) as Hfind. rewrite Ei in Hfind.
      simpl in Hfind. apply find_some in Hfind as [Hfind _].
      apply in_map_iff. eexists. split; [|exact Hfind]. done.
  - assert (Hincl : incl (map node_name (nodes st))
                      (apiType :: flat_map (fun r => [ip_address (session_analytics r);
                                                       hostname r; path r; method r]) rs)).
    { intros label (nd & <- & Hin)%in_map_iff.
      apply list_elem_of_In, list_elem_of_lookup in Hin as [i Hi].
      destruct (Hnamed i nd Hi) as (_ & _ & H3).
      apply in_flat_map in H3 as (r & Hr & Hl).
      unfold labelsOf in Hl. cbn [In] in Hl.
      destruct Hl as [<-|[<-|[<-|[<-|[<-|[]]]]]];
        [right|by left|right|right|right];
        apply in_flat_map; exists r; (split; [done|]); cbn [In]; tauto. }
    assert (Hlen : (length (map node_name (nodes st)) <=
                    length (apiType :: flat_map
                      (fun r => [ip_address (session_analytics r);
                                 hostname r; path r; method r]) rs))%nat).
    { apply submseteq_length, NoDup_submseteq; [exact Hnd|].
      intros x Hx%list_elem_of_In. by apply list_elem_of_In, Hincl. }
    cbn [length] in Hlen.
    assert (Hflat : forall l : list TxLog,
              length (flat_map (fun r => [ip_address (session_analytics r);
                                          hostname r; path r; method r]) l)
              = (4 * length l)%nat).
    { induction l as [|x l IH]; [done|]. cbn [flat_map length app]. lia. }
    rewrite Hflat in Hlen. lia.
Qed.

(** ** Links *)

Lemma totalWeight_app l1 l2 :
  totalWeight (l1 ++ l2) = totalWeight l1 + totalWeight l2.
Proof.
  unfold totalWeight. induction l1 as [|x l1 IH]; cbn [app fold_right]; lia.
Qed.

Lemma totalWeight_alter ls i l :
  ls !! i = Some l -> totalWeight (alter bumpLink i ls) = totalWeight ls + 1.
Proof.
  revert i. induction ls as [|x ls IH]; intros [|i] Hi; try done.
  - injection Hi as ->. unfold totalWeight. cbn. lia.
  - change (alter bumpLink (S i) (x :: ls)) with (x :: alter bumpLink i ls).
    unfold totalWeight in *. cbn [fold_right]. rewrite (IH i Hi). lia.
Qed.

(** Every registered link index is a position of [links]; each call of
    [getLinkIndex] then adds one to the total weight. *)
Lemma getLinkIndex_total st s t :
  (forall key i, linkIndex st !! key = Some i -> (i < length (links st))%nat) ->
  (forall key i, linkIndex (getLinkIndex st s t) !! key = Some i ->
     (i < length (links (getLinkIndex st s t)))%nat) /\
  totalWeight (links (getLinkIndex st s t)) = totalWeight (links st) + 1.
Proof.
  intros H. destruct (linkIndex st !! linkKey s t) as [i|] eqn:E.
  - rewrite (getLinkIndex_own _ _ _ _ E). cbn [links linkIndex].
    split.
    + intros key j Hj. rewrite length_alter. by eapply H.
    + destruct (lookup_lt_is_Some_2 (links st) i (H _ _ E)) as [l Hl].
      by eapply totalWeight_alter.
  - rewrite (getLinkIndex_new _ _ _ E). cbn [links linkIndex].
    split.
    + intros key j. rewrite length_app. cbn [length].
      destruct (decide (key = linkKey s t)) as [->|Hne].
      * rewrite lookup_insert_eq. intros [= <-]. lia.
      * rewrite lookup_insert_ne by done. intros Hj. specialize (H _ _ Hj). lia.
    + rewrite totalWeight_app. unfold totalWeight at 2. cbn. lia.
Qed.

Lemma addItem_total st item :
  (forall key i, linkIndex st !! key = Some i -> (i < length (links st))%nat) ->
  (forall key i, linkIndex (addItem st item) !! key = Some i ->
     (i < length (links (addItem st item)))%nat) /\
  totalWeight (links (addItem st item)) = totalWeight (links st) + 4.
Proof.
  intros H. rewrite addItem_calls. cbv zeta.
  set (g1 := getNodeIndex st _). set (g2 := getNodeIndex g1.1 _).
  set (g3 := getNodeIndex g2.1 _). set (g4 := getNodeIndex g3.1 _).
  set (g5 := getNodeIndex g4.1 _).
  assert (H5 : links g5.1 = links st /\ linkIndex g5.1 = linkIndex st).
  { unfold g5, g4, g3, g2, g1.
    repeat match goal with
    | |- context [links (getNodeIndex ?s ?l).1] =>
        rewrite (proj1 (getNodeIndex_links s l)),
                (proj2 (getNodeIndex_links s l))
    end. done. }
  destruct H5 as [Hl Hx].
  assert (H0 : forall key i, linkIndex g5.1 !! key = Some i ->
                 (i < length (links g5.1))%nat).
  { rewrite Hl, Hx. exact H. }
  destruct (getLinkIndex_total g5.1 g1.2 g2.2 H0) as [B1 W1].
  destruct (getLinkIndex_total _ g2.2 g3.2 B1) as [B2 W2].
  destruct (getLinkIndex_total _ g3.2 g4.2 B2) as [B3 W3].
  destruct (getLinkIndex_total _ g4.2 g5.2 B3) as [B4 W4].
  split; [exact B4|]. rewrite W4, W3, W2, W1, Hl. lia.
Qed.

Lemma fold_addItem_total rs st :
  (forall key i, linkIndex st !! key = Some i -> (i < length (links st))%nat) ->
  totalWeight (links (fold_left addItem rs st)) =
  totalWeight (links st) + 4 * Z.of_nat (length rs).
Proof.
  revert st. induction rs as [|r rs IH]; intros st H; cbn [fold_left length].
  - lia.
  - destruct (addItem_total st r H) as [B W]. rewrite (IH _ B), W. lia.
Qed.

Lemma linkWeight_single ls l :
  NoDup (map linkEnds ls) -> l ∈ ls ->
  linkWeight ls (source l) (target l) = value l.
Proof.
  unfold linkWeight.
  induction ls as [|x ls IH]; intros Hnd Hl; [by apply elem_of_nil in Hl|].
  cbn [map] in Hnd. apply NoDup_cons in Hnd as [Hx Hnd].
  cbn [fold_right]. apply elem_of_cons in Hl as [->|Hl].
  - rewrite decide_True by done.
    assert (Hz : forall ls', linkEnds x ∉ map linkEnds ls' ->
              fold_right
                (fun l acc =>
                   (if decide (source l = source x /\ target l = target x)
                    then value l else 0) + acc) 0 ls' = 0).
    { induction ls' as [|y ls' IH']; intros Hy; [done|].
      cbn [map] in Hy. apply not_elem_of_cons in Hy as [Hy1 Hy2].
      cbn [fold_right]. rewrite (IH' Hy2).
      rewrite decide_False; [done|]. intros [H1 H2]. apply Hy1.
      unfold linkEnds. by rewrite H1, H2. }
    rewrite (Hz ls Hx). lia.
  - rewrite (IH Hnd Hl). rewrite decide_False; [lia|].
    intros [H1 H2]. apply Hx.
    replace (linkEnds x) with (linkEnds l) by (unfold linkEnds; by rewrite H1, H2).
    change (map linkEnds ls) with (linkEnds <$> ls). by apply list_elem_of_fmap_2.
Qed.

Lemma countPair_pos T a b : In (a, b) T -> 1 <= countPair T a b.
Proof.
  unfold countPair. induction T as [|[x y] T IH]; [done|].
  intros [[= -> ->]|Hin]; cbn [List.filter fst snd].
  - rewrite !String.eqb_refl. cbn [andb length]. lia.
  - specialize (IH Hin).
    destruct (String.eqb x a && String.eqb y b); cbn [length]; lia.
Qed.

Lemma totalWeight_length ls :
  Forall (fun l => 1 <= value l) ls -> Z.of_nat (length ls) <= totalWeight ls.
Proof.
  unfold totalWeight. induction 1 as [|x ls Hx _ IH]; cbn [length fold_right]; lia.
Qed.

(** X11: the links of the graph. No two links join the same two ends;
    every link stands for a transition of the records, whose two labels
    have the source and the target of the link as their values, and its
    value is the number of occurrences of that transition, at least 1; the
    values add up to four per record, so there are at most [4 * n] links
    for [n] records. This holds for every record list, inherited labels
    included. *)
Theorem sankey_links_count_transitions rs :
  let ls := sankey_links (createSankeyData rs) in
  NoDup (map linkEnds ls) /\
  (forall l, In l ls ->
     1 <= value l /\
     exists a b, In (a, b) (flat_map chain rs) /\
       labelValue (createSankeyData rs) a = Some (source l) /\
       labelValue (createSankeyData rs) b = Some (target l) /\
       value l = countPair (flat_map chain rs) a b) /\
  totalWeight ls = 4 * Z.of_nat (length rs) /\
  (length ls <= 4 * length rs)%nat.
Proof.
  cbv zeta. pose proof (labelValue_obj_get rs) as Hlv.
  unfold createSankeyData at 1 2 5 6. cbn [sankey_links].
  pose proof (createSankeyData_inv rs) as Hinv.
  set (st := fold_left addItem rs emptySankey) in *.
  assert (Hnd : NoDup (map linkEnds (links st))).
  { apply NoDup_map_lookup. intros i j x y Hi Hj Hxy.
    pose proof (inv_links _ _ Hinv i x Hi) as H1.
    pose proof (inv_links _ _ Hinv j y Hj) as H2.
    unfold linkEnds in Hxy. injection Hxy as Hs Ht. rewrite Hs, Ht in H1.
    congruence. }
  assert (Hval : forall l, In l (links st) ->
            1 <= value l /\
            exists a b, In (a, b) (flat_map chain rs) /\
              labelValue (createSankeyData rs) a = Some (source l) /\
              labelValue (createSankeyData rs) b = Some (target l) /\
              value l = countPair (flat_map chain rs) a b).
  { intros l Hl%list_elem_of_In.
    destruct (inv_ends_label _ _ Hinv l Hl) as (a & b & Hab & Ha & Hb).
    pose proof (inv_weight _ _ Hinv a b _ _ Ha Hb) as Hw.
    rewrite (linkWeight_single _ _ Hnd Hl) in Hw.
    split; [rewrite Hw; by apply countPair_pos|]. exists a, b.
    rewrite !Hlv, Ha, Hb. done. }
  assert (Htot : totalWeight (links st) = 4 * Z.of_nat (length rs)).
  { unfold st. rewrite fold_addItem_total; [done|].
    intros key i Hi. unfold emptySankey in Hi. cbn [linkIndex] in Hi.
    by rewrite lookup_empty in Hi. }
  split; [exact Hnd|]. split; [exact Hval|]. split; [exact Htot|].
  assert (Hall : Forall (fun l => 1 <= value l) (links st)).
  { apply List.Forall_forall. intros l Hl. by destruct (Hval l Hl). }
  pose proof (totalWeight_length _ Hall). lia.
Qed.

(** ** Appending records *)

Lemma getNodeIndex_prefix st label :
  nodes st `prefix_of` nodes (getNodeIndex st label).1.
Proof.
  unfold getNodeIndex. destruct (obj_get _ _); cbn [fst nodes]; [|done].
  by apply prefix_app_r.
Qed.

Lemma getLinkIndex_grows st s t i l :
  links st !! i = Some l ->
  exists l', links (getLinkIndex st s t) !! i = Some l' /\
    linkEnds l' = linkEnds l /\ value l <= value l'.
Proof.
  intros Hi. unfold getLinkIndex. cbv zeta.
  destruct (obj_get _ _) as [|[j|key]]; cbn [links].
  - exists l. split; [|split; [done|lia]].
    rewrite lookup_app_l; [done|]. by eapply lookup_lt_Some.
  - rewrite list_lookup_alter. case_decide as Hd.
    + subst j. rewrite Hi. cbn. eexists. split; [done|].
      unfold bumpLink, linkEnds. cbn [source target value]. split; [done|lia].
    + exists l. split; [done|split; [done|lia]].
  - exists l. split; [done|split; [done|lia]].
Qed.

Lemma addItem_grows st item :
  nodes st `prefix_of` nodes (addItem st item) /\
  (forall i l, links st !! i = Some l ->
     exists l', links (addItem st item) !! i = Some l' /\
       linkEnds l' = linkEnds l /\ value l <= value l').
Proof.
  rewrite addItem_calls. cbv zeta.
  set (g1 := getNodeIndex st _). set (g2 := getNodeIndex g1.1 _).
  set (g3 := getNodeIndex g2.1 _). set (g4 := getNodeIndex g3.1 _).
  set (g5 := getNodeIndex g4.1 _).
  split.
  - repeat match goal with
    | |- context [nodes (getLinkIndex ?s ?a ?b)] =>
        rewrite (proj1 (getLinkIndex_nodes s a b))
    end.
    etrans; [apply getNodeIndex_prefix|]. fold g1.
    etrans; [apply getNodeIndex_prefix|]. fold g2.
    etrans; [apply getNodeIndex_prefix|]. fold g3.
    etrans; [apply getNodeIndex_prefix|]. fold g4.
    apply getNodeIndex_prefix.
  - intros i l Hi.
    assert (H5 : links g5.1 = links st).
    { unfold g5, g4, g3, g2, g1.
      repeat match goal with
      | |- context [links (getNodeIndex ?s ?l).1] =>
          rewrite (proj1 (getNodeIndex_links s l))
      end. done. }
    rewrite <- H5 in Hi.
    destruct (getLinkIndex_grows g5.1 g1.2 g2.2 i l Hi) as (l1 & H1 & E1 & V1).
    destruct (getLinkIndex_grows _ g2.2 g3.2 i l1 H1) as (l2 & H2 & E2 & V2).
    destruct (getLinkIndex_grows _ g3.2 g4.2 i l2 H2) as (l3 & H3 & E3 & V3).
    destruct (getLinkIndex_grows _ g4.2 g5.2 i l3 H3) as (l4 & H4 & E4 & V4).
    exists l4. split; [done|]. split; [congruence|lia].
Qed.

Lemma fold_addItem_grows rs st :
  nodes st `prefix_of` nodes (fold_left addItem rs st) /\
  (forall i l, links st !! i = Some l ->
     exists l', links (fold_left addItem rs st) !! i = Some l' /\
       linkEnds l' = linkEnds l /\ value l <= value l').
Proof.
  revert st. induction rs as [|r rs IH]; intros st; cbn [fold_left].
  - split; [done|]. intros i l Hi. exists l. split; [done|split; [done|lia]].
  - destruct (addItem_grows st r) as [P1 L1].
    destruct (IH (addItem st r)) as [P2 L2]. split; [by etrans|].
    intros i l Hi. destruct (L1 i l Hi) as (l1 & H1 & E1 & V1).
    destruct (L2 i l1 H1) as (l2 & H2 & E2 & V2).
    exists l2. split; [done|]. split; [congruence|lia].
Qed.

(** X12: more records only extend the graph. The nodes of the first
    records stay where they are, new nodes come after them; every link
    keeps its position and its two ends, and its value does not decrease. *)
Theorem createSankeyData_append rs more :
  let g := createSankeyData rs in
  let g' := createSankeyData (rs ++ more) in
  (exists extra, sankey_nodes g' = sankey_nodes g ++ extra) /\
  (forall i l, sankey_links g !! i = Some l ->
     exists l', sankey_links g' !! i = Some l' /\
       source l' = source l /\ target l' = target l /\ value l <= value l').
Proof.
  cbv zeta. unfold createSankeyData. cbn [sankey_nodes sankey_links].
  rewrite fold_left_app.
  destruct (fold_addItem_grows more (fold_left addItem rs emptySankey)) as [P L].
  split; [exact P|].
  intros i l Hi. destruct (L i l Hi) as (l' & H' & E' & V').
  exists l'. unfold linkEnds in E'. injection E' as Es Et. done.
Qed.

(* ===================================================================== *)
(** * [createRadarChartData]: further properties                          *)
(* ===================================================================== *)

Lemma num_div_finite x y :
  ~ (y == 0)%Q -> num_div (Fin x) (Fin y) = fin (x / y)%Q.
Proof.
  intros Hy. unfold num_div.
  destruct (Qeq_bool y 0) eqn:E; [|done]. by apply Qeq_bool_eq in E.
Qed.

Lemma num_of_nat_nonzero (rs : list TxLog) :
  rs <> [] -> ~ (inject_Z (Z.of_nat (length rs)) == 0)%Q.
Proof.
  intros Hne. destruct rs as [|r rs]; [done|].
  unfold Qeq. cbn [Qnum Qden inject_Z length]. lia.
Qed.

Lemma num_sub_fin e s :
  exists d, num_sub (Fin e) (Fin s) = Fin d /\ (d == e - s)%Q.
Proof.
  eexists. split; [reflexivity|]. rewrite !Qred_correct. reflexivity.
Qed.

(** X13: on a regular input no value of the chart is NaN: a non-empty
    record list, a window of positive length, finite non-zero thresholds
    for RPS and Uptime, a positive Latency threshold. (A value can still
    be an infinity when a quotient overflows.) *)
Theorem radar_values_not_NaN rs s e th qr qu ql :
  rs <> [] -> (s < e)%Q ->
  RPS th = Fin qr -> ~ (qr == 0)%Q ->
  Uptime th = Fin qu -> ~ (qu == 0)%Q ->
  Latency th = Fin ql -> (0 < ql)%Q ->
  Forall (fun m => isNaN (metric_value m) = false)
    (createRadarChartData rs s e th).
Proof.
  intros Hne Hse Hr Hqr Hu Hqu Hl Hql.
  pose proof (num_of_nat_nonzero rs Hne) as Hn.
  destruct th as [bu inv la rp su up]. cbn [RPS Uptime Latency] in Hr, Hu, Hl.
  subst rp up la. unfold createRadarChartData. cbv zeta.
  destruct (num_sub_fin e s) as (d & Hd & Hdq). rewrite Hd.
  assert (Hd0 : ~ (d == 0)%Q).
  { rewrite Hdq. intros H0. apply Qlt_minus_iff in Hse.
    unfold Qminus in H0. rewrite H0 in Hse. by apply Qlt_irrefl in Hse. }
  unfold num_of_nat, num_of_Z.
  rewrite (num_div_finite _ d Hd0).
  repeat apply List.Forall_cons; cbn [metric_value]; try apply List.Forall_nil.
  - cbn [fin num_mul hundred toFixed_value]. by rewrite (num_div_finite _ qr Hqr).
  - unfold num_sub, num_neg, num_add, fin.
    rewrite (num_div_finite _ _ Hn). cbn [fin num_mul hundred].
    unfold fin at 1. by rewrite (num_div_finite _ qu Hqu).
  - by rewrite (num_div_finite _ _ Hn).
  - done.
  - done.
  - destruct (averageLatency_nonempty rs Hne) as [a Ha].
    unfold averageLatency, num_of_nat, num_of_Z in Ha. rewrite Ha.
    unfold num_div. destruct (Qeq_bool a 0) eqn:Ea.
    + assert (Hgt : (ql ?= 0)%Q = Gt) by (by apply Qgt_alt).
      rewrite Hgt. reflexivity.
    + cbn [fin num_mul hundred]. by destruct (num_gt _ _).
Qed.

Lemma radar_values_not_NaN_witness :
  Forall (fun m => isNaN (metric_value m) = false)
    (createRadarChartData [mkTimed 200 50; mkTimed 500 30] 0 10 (mkMetrics hundred)).
Proof.
  apply (radar_values_not_NaN [mkTimed 200 50; mkTimed 500 30] 0 10
           (mkMetrics hundred) 100 100 100); try reflexivity; try discriminate.
Defined.

Lemma countWhere_disjoint (p q : TxLog -> bool) rs :
  (forall r, p r = true -> q r = false) ->
  (countWhere p rs + countWhere q rs <= length rs)%nat.
Proof.
  intros H. unfold countWhere. induction rs as [|r rs IH]; cbn [List.filter length].
  - lia.
  - destruct (p r) eqn:Ep.
    + rewrite (H r Ep). cbn [length]. lia.
    + destruct (q r); cbn [length]; lia.
Qed.

Lemma countWhere_all (p : TxLog -> bool) rs :
  forallb p rs = true -> countWhere p rs = length rs.
Proof.
  unfold countWhere. induction rs as [|r rs IH]; cbn [forallb List.filter]; [done|].
  intros [Hr Hrs]%andb_true_iff. rewrite Hr. cbn [length]. by rewrite IH.
Qed.

Lemma Qdiv_le_compat (a b n : Q) :
  (0 < n)%Q -> (a <= b)%Q -> (a / n * 100 <= b / n * 100)%Q.
Proof.
  intros Hn Hab. apply Qmult_le_compat_r; [|done].
  apply Qmult_le_compat_r; [done|]. apply Qlt_le_weak, Qinv_lt_0_compat, Hn.
Qed.

(** X14: the Success and Uptime values of a non-empty record list, for
    the Uptime threshold 100. A response with status 200 is not an error,
    so 0 <= Success <= Uptime <= 100; and when every status is 200 both
    values are exactly 100. *)
Theorem radar_success_below_uptime rs s e th :
  rs <> [] -> Uptime th = hundred ->
  let out := createRadarChartData rs s e th in
  (exists a b,
     valueOf "Success" out = Some (Fin a) /\ valueOf "Uptime" out = Some (Fin b) /\
     (0 <= a)%Q /\ (a <= b)%Q /\ (b <= 100)%Q) /\
  (forallb (fun item => status (response item) =? 200) rs = true ->
   valueOf "Success" out = Some hundred /\ valueOf "Uptime" out = Some hundred).
Proof.
  intros Hne Hu. cbv zeta.
  pose proof (num_of_nat_nonzero rs Hne) as Hn.
  rewrite success_value, uptime_value, Hu.
  set (k := countWhere (fun item => status (response item) =? 200) rs).
  set (f := countWhere (fun item => 400 <=? status (response item)) rs).
  assert (Hkf : (k + f <= length rs)%nat).
  { apply countWhere_disjoint. intros r Hr. apply Z.eqb_eq in Hr.
    rewrite Hr. reflexivity. }
  assert (H100 : ~ (100 == 0)%Q) by discriminate.
  unfold num_of_nat, num_of_Z, num_sub, num_neg, fin, num_add, hundred.
  assert (Hmul : forall x y, num_mul (Fin x) (Fin y) = Fin (Qred (x * y))) by done.
  repeat first [ rewrite num_div_finite by (exact Hn || exact H100)
               | rewrite Hmul | progress unfold fin ].
  set (n := inject_Z (Z.of_nat (length rs))) in *.
  assert (Hnpos : (0 < n)%Q).
  { unfold n. destruct rs as [|r rs]; [done|].
    unfold Qlt. cbn [Qnum Qden inject_Z length]. lia. }
  assert (Ha : (Qred (Qred (inject_Z (Z.of_nat k) / n) * 100)
                == inject_Z (Z.of_nat k) / n * 100)%Q)
    by (by rewrite !Qred_correct).
  assert (Hb : (Qred (Qred (Qred (Qred (Qred (n + Qred (- inject_Z (Z.of_nat f))) / n)
                                   * 100) / 100) * 100)
                == (n - inject_Z (Z.of_nat f)) / n * 100)%Q).
  { rewrite !Qred_correct. field.
    intros H0. rewrite H0 in Hnpos. by apply Qlt_irrefl in Hnpos. }
  split.
  - eexists _, _. split; [reflexivity|]. split; [reflexivity|].
    rewrite Ha, Hb. split; [|split].
    + apply Qmult_le_0_compat; [|discriminate].
      apply Qmult_le_0_compat.
      * unfold Qle. cbn [Qnum Qden inject_Z]. lia.
      * apply Qlt_le_weak, Qinv_lt_0_compat, Hnpos.
    + apply Qdiv_le_compat; [done|]. unfold n.
      unfold Qminus. rewrite <- inject_Z_opp, <- inject_Z_plus.
      rewrite <- Zle_Qle. lia.
    + apply Qle_trans with (n / n * 100)%Q.
      * apply Qdiv_le_compat; [done|]. unfold n.
        unfold Qminus. rewrite <- inject_Z_opp, <- inject_Z_plus.
        rewrite <- Zle_Qle. lia.
      * apply Qle_lteq. right. field.
        intros H0. rewrite H0 in Hnpos. by apply Qlt_irrefl in Hnpos.
  - intros Hall.
    assert (Hk : k = length rs) by (by apply countWhere_all).
    assert (Hf : f = 0%nat) by lia.
    assert (E1 : Qred (Qred (inject_Z (Z.of_nat k) / n) * 100) = 100%Q).
    { change 100%Q with (Qred 100) at 2. apply Qred_complete.
      rewrite Qred_correct, Hk. fold n. field.
      intros H0. rewrite H0 in Hnpos. by apply Qlt_irrefl in Hnpos. }
    assert (E2 : Qred (Qred (Qred (Qred (Qred (n + Qred (- inject_Z (Z.of_nat f))) / n)
                                    * 100) / 100) * 100) = 100%Q).
    { change 100%Q with (Qred 100) at 4. apply Qred_complete.
      etransitivity; [symmetry; apply Qred_correct|].
      rewrite Hb, Hf. change (inject_Z (Z.of_nat 0)) with 0%Q. field.
      intros H0. rewrite H0 in Hnpos. by apply Qlt_irrefl in Hnpos. }
    by rewrite E1, E2.
Qed.

Lemma radar_success_below_uptime_witness :
  valueOf "Success"
    (createRadarChartData [mkTimed 200 50; mkTimed 200 30] 0 10 (mkMetrics hundred))
  = Some hundred /\
  valueOf "Uptime"
    (createRadarChartData [mkTimed 200 50; mkTimed 200 30] 0 10 (mkMetrics hundred))
  = Some hundred.
Proof.
  refine (proj2 (radar_success_below_uptime [mkTimed 200 50; mkTimed 200 30] 0 10
                   (mkMetrics hundred) _ _) _);
    [discriminate|reflexivity|reflexivity].
Defined.

Lemma sumResponseTime_map rs rs' :
  map response_time rs = map response_time rs' ->
  sumResponseTime rs = sumResponseTime rs'.
Proof.
  unfold sumResponseTime. generalize (Fin 0%Q).
  revert rs'. induction rs as [|r rs IH]; intros [|r' rs'] acc; try done.
  cbn [map fold_left]. intros [= Hr Hrs]. rewrite Hr. by apply IH.
Qed.

Lemma countWhere_map {A} (f : TxLog -> A) (p : A -> bool) rs rs' :
  map f rs = map f rs' ->
  countWhere (fun item => p (f item)) rs = countWhere (fun item => p (f item)) rs'.
Proof.
  unfold countWhere. revert rs'.
  induction rs as [|r rs IH]; intros [|r' rs']; try done.
  cbn [map List.filter]. intros [= Hr Hrs]. rewrite Hr.
  destruct (p (f r')); cbn [length]; by rewrite (IH _ Hrs).
Qed.

(** X15: what each value reads. The Latency value depends on the response
    times and the Latency threshold only: not on the window, not on the
    statuses. The Success and Uptime values depend on the statuses (and
    the Uptime threshold) only. The RPS value depends on the number of
    records, the window and the RPS threshold only. *)
Theorem radar_values_read_only rs rs' s e s' e' th th' :
  (map response_time rs = map response_time rs' -> Latency th = Latency th' ->
   valueOf "Latency" (createRadarChartData rs s e th) =
   valueOf "Latency" (createRadarChartData rs' s' e' th')) /\
  (map (fun item => status (response item)) rs =
   map (fun item => status (response item)) rs' ->
   valueOf "Success" (createRadarChartData rs s e th) =
   valueOf "Success" (createRadarChartData rs' s' e' th') /\
   (Uptime th = Uptime th' ->
    valueOf "Uptime" (createRadarChartData rs s e th) =
    valueOf "Uptime" (createRadarChartData rs' s' e' th'))) /\
  (length rs = length rs' -> RPS th = RPS th' ->
   valueOf "RPS" (createRadarChartData rs s e th) =
   valueOf "RPS" (createRadarChartData rs' s e th')).
Proof.
  split; [|split].
  - intros Hrt Hth. rewrite !latency_value, Hth. unfold averageLatency.
    rewrite (sumResponseTime_map _ _ Hrt).
    apply (f_equal (@length Q)) in Hrt. rewrite !length_map in Hrt.
    by rewrite Hrt.
  - intros Hst.
    pose proof (countWhere_map (fun item => status (response item))
                  (fun x => x =? 200) rs rs' Hst) as H200.
    pose proof (countWhere_map (fun item => status (response item))
                  (fun x => 400 <=? x) rs rs' Hst) as H400.
    cbv beta in H200, H400.
    apply (f_equal (@length Z)) in Hst. rewrite !length_map in Hst.
    split.
    + by rewrite !success_value, H200, Hst.
    + intros Hth. by rewrite !uptime_value, H400, Hst, Hth.
  - intros Hlen Hth. rewrite !rps_value, Hth. unfold scaledRate. by rewrite Hlen.
Qed.

(* ===================================================================== *)
(** * The handler: the window and the reply                               *)
(* ===================================================================== *)

Lemma setHours_eq t h : setHours t h = t + (h - getHours t) * msPerHour.
Proof.
  unfold setHours, MakeDate, getMinutes, getSeconds, getMilliseconds, getHours,
    TimeWithinDay, Day, msPerDay, msPerHour.
  assert (Hms : t mod 1000 = (t mod 86400000) mod 1000)
    by (Z.div_mod_to_equations; lia).
  rewrite Hms. pose proof (Z.div_mod t 86400000 ltac:(lia)) as Ht.
  pose proof (Z.mod_pos_bound t 86400000 ltac:(lia)) as Hw.
  set (w := t mod 86400000) in *. clearbody w.
  assert (Hsplit : w = (w / 3600000) * 3600000 + ((w / 60000) mod 60) * 60000 +
                       ((w / 1000) mod 60) * 1000 + w mod 1000)
    by (Z.div_mod_to_equations; lia).
  lia.
Qed.

Lemma setDate_shift t n : setDate t n = t + (n - getDate t) * msPerDay.
Proof.
  rewrite setDate_eq. pose proof (Day_TimeWithinDay t) as Ht.
  unfold MakeDate, getDate, msPerDay in *. lia.
Qed.

Lemma setMonth1_eq t k :
  setMonth1 t (getMonth t - k) =
  MakeDate (MonthStart (MonthIndex (Day t) - k) + getDate t - 1) (TimeWithinDay t).
Proof.
  unfold setMonth1, setMonth, MakeDay.
  replace (12 * getFullYear t + (getMonth t - k)) with (MonthIndex (Day t) - k);
    [done|].
  unfold getFullYear, getMonth. Z.div_mod_to_equations. lia.
Qed.

Lemma periodIs_true period literal :
  periodIs period literal = true <-> period = Some literal.
Proof.
  unfold periodIs. destruct period as [p|]; [|done].
  rewrite String.eqb_eq. split; [by intros ->|by intros [= ->]].
Qed.

Lemma selectWindow_not_custom parseFloat query currentDate now :
  periodIs (q_period query) "custom" = false ->
  selectWindow parseFloat query currentDate now =
  Window (Fin (secondsOf (windowStart (q_period query) currentDate)))
         (Fin (secondsOf now)).
Proof.
  intros Hc. unfold selectWindow, windowStart. cbv zeta. rewrite Hc.
  by repeat destruct (periodIs _ _).
Qed.

Lemma secondsOf_lt a b : a < b -> (secondsOf a < secondsOf b)%Q.
Proof.
  intros H. unfold secondsOf, Qlt, Qdiv, Qmult, Qinv, inject_Z.
  cbn [Qnum Qden]. lia.
Qed.

Lemma secondsOf_le_ts a r :
  Qle_bool (secondsOf a) (inject_Z (ts r)) = true -> a <= ts r * 1000.
Proof.
  intros H%Qle_bool_iff. revert H.
  unfold secondsOf, Qle, Qdiv, Qmult, Qinv, inject_Z. cbn [Qnum Qden]. lia.
Qed.

(** X16: the reply is a 400 exactly for a custom period without both
    dates (an absent or empty [startDate] or [endDate]); the message is
    fixed, and neither the clock nor the stored data matter. *)
Theorem handler_bad_request parseFloat query collection settings c0 c1 c2 c3 msg :
  handler parseFloat query collection settings c0 c1 c2 c3 = Some (Status400 msg)
  <->
  q_period query = Some "custom" /\
  truthy (q_startDate query) && truthy (q_endDate query) = false /\
  msg = "Custom period requires startDate and endDate".
Proof.
  unfold handler.
  destruct (periodIs (q_period query) "custom") eqn:Hc.
  - pose proof (proj1 (periodIs_true _ _) Hc) as Hp.
    unfold selectWindow. cbv zeta. rewrite Hp. cbn [periodIs String.eqb Ascii.eqb Bool.eqb].
    destruct (truthy (q_startDate query)), (truthy (q_endDate query));
      cbn [negb orb andb].
    + split; [|by intros (_ & ? & _)].
      destruct (parseFloat (stringOf (q_startDate query))),
        (parseFloat (stringOf (q_endDate query))), settings; done.
    + split; [by intros [= <-]|by intros (_ & _ & ->)].
    + split; [by intros [= <-]|by intros (_ & _ & ->)].
    + split; [by intros [= <-]|by intros (_ & _ & ->)].
  - rewrite (selectWindow_not_custom _ _ _ _ Hc).
    split.
    + by destruct settings.
    + intros (Hp & _). apply periodIs_true in Hp. congruence.
Qed.

(** X17: for every period but custom the window starts before the
    clock reading it is computed from, so it has a positive length when
    the clock does not run backwards; hourly, daily and weekly windows
    start exactly 5 hours, 5 days and 35 days before that reading, the
    others the same day of the month and time of day 5 months (monthly) or
    1 month before, counted from the first of that month. *)
Theorem window_before_clock parseFloat query c0 c1 :
  periodIs (q_period query) "custom" = false ->
  c0 <= c1 ->
  let start := windowStart (q_period query) c0 in
  selectWindow parseFloat query c0 c1 =
    Window (Fin (secondsOf start)) (Fin (secondsOf c1)) /\
  (secondsOf start < secondsOf c1)%Q /\
  match alignment (periodArg (q_period query)) with
  | Hourly => start = c0 - 5 * msPerHour
  | Daily => start = c0 - 5 * msPerDay
  | Weekly => start = c0 - 35 * msPerDay
  | Monthly =>
      let back := if periodIs (q_period query) "monthly" then 5 else 1 in
      Day start = MonthStart (MonthIndex (Day c0) - back) + getDate c0 - 1 /\
      TimeWithinDay start = TimeWithinDay c0
  end.
Proof.
  intros Hc Hle. cbv zeta.
  split; [by apply selectWindow_not_custom|].
  assert (Hm : forall k, 0 < k ->
            Day (setMonth1 c0 (getMonth c0 - k)) =
              MonthStart (MonthIndex (Day c0) - k) + getDate c0 - 1 /\
            TimeWithinDay (setMonth1 c0 (getMonth c0 - k)) = TimeWithinDay c0 /\
            setMonth1 c0 (getMonth c0 - k) < c0).
  { intros k Hk. rewrite setMonth1_eq.
    pose proof (TimeWithinDay_bounds c0) as Hb.
    rewrite (Day_MakeDate _ _ Hb), (TimeWithinDay_MakeDate _ _ Hb).
    split; [done|split; [done|]].
    pose proof (MonthStart_lt (MonthIndex (Day c0) - k) (MonthIndex (Day c0))
                  ltac:(lia)) as Hlt.
    pose proof (Day_TimeWithinDay c0) as Ht.
    unfold MakeDate, getDate, msPerDay in *. lia. }
  unfold windowStart, alignment, periodArg, periodIs in *.
  destruct (q_period query) as [p|].
  - destruct (String.eqb p "hourly") eqn:E1.
    { rewrite setHours_eq. split; [apply secondsOf_lt|]; unfold msPerHour; lia. }
    destruct (String.eqb p "daily") eqn:E2.
    { rewrite setDate_shift. split; [apply secondsOf_lt|]; unfold msPerDay; lia. }
    destruct (String.eqb p "weekly") eqn:E3.
    { rewrite setDate_shift. split; [apply secondsOf_lt|]; unfold msPerDay; lia. }
    destruct (String.eqb p "monthly") eqn:E4.
    + destruct (Hm 5 ltac:(lia)) as (H1 & H2 & H3).
      split; [apply secondsOf_lt; lia|done].
    + destruct (Hm 1 ltac:(lia)) as (H1 & H2 & H3).
      split; [apply secondsOf_lt; lia|done].
  - cbn. destruct (Hm 1 ltac:(lia)) as (H1 & H2 & H3).
    split; [apply secondsOf_lt; lia|done].
Qed.

Lemma window_before_clock_witness :
  selectWindow (fun _ => NaN)
    {| q_period := Some "hourly"; q_host := None; q_startDate := None;
       q_endDate := None |} 1710505800000 1710505800000 =
  Window (Fin (secondsOf (1710505800000 - 5 * msPerHour)))
         (Fin (secondsOf 1710505800000)).
Proof.
  pose proof (window_before_clock (fun _ => NaN)
    {| q_period := Some "hourly"; q_host := None; q_startDate := None;
       q_endDate := None |} 1710505800000 1710505800000 eq_refl
    ltac:(discriminate)) as H.
  cbv zeta in H. destruct H as (H1 & _ & H3).
  cbn [alignment periodArg q_period] in H3. rewrite <- H3. exact H1.
Defined.

Lemma periodStart_ge_oldest a now k :
  In k [4; 3; 2; 1; 0] -> periodStart a now 4 <= periodStart a now k.
Proof.
  intros Hk. cbn [In] in Hk.
  destruct (Z.eq_dec k 4) as [->|Hne]; [lia|].
  pose proof (periodStart_lt a now k 4 ltac:(lia)). lia.
Qed.

(** X18: for the hourly, daily and weekly periods the window of the
    query starts before the first of the five buckets, whenever
    [organizeData] reads the clock (not before the handler did): the lower
    bound of the query drops no record that a bucket would count. *)
Theorem window_covers_buckets period c0 c2 :
  In period ["hourly"; "daily"; "weekly"] -> c0 <= c2 ->
  Forall (fun p => windowStart (Some period) c0 < p)
    (getPreviousPeriods c2 period 5) /\
  (forall p e r, In p (getPreviousPeriods c2 period 5) ->
     inBucket p e r = true ->
     Qle_bool (secondsOf (windowStart (Some period) c0)) (inject_Z (ts r)) = true).
Proof.
  intros Hp Hle.
  assert (Hold : windowStart (Some period) c0 <
                 periodStart (alignment period) c2 4).
  { cbn [In] in Hp. destruct Hp as [<-|[<-|[<-|[]]]];
      unfold windowStart; cbn [periodIs String.eqb Ascii.eqb Bool.eqb];
      cbn [alignment String.eqb Ascii.eqb Bool.eqb periodStart].
    - rewrite setHours_eq. unfold msPerHour. Z.div_mod_to_equations. lia.
    - rewrite setDate_shift. unfold Day, msPerDay. Z.div_mod_to_equations. lia.
    - rewrite setDate_shift. unfold weekStartDay, Day, msPerDay.
      Z.div_mod_to_equations. lia. }
  assert (Hall : forall p, In p (getPreviousPeriods c2 period 5) ->
            windowStart (Some period) c0 < p).
  { intros p. rewrite getPreviousPeriods_five.
    intros (k & <- & Hk)%in_map_iff.
    pose proof (periodStart_ge_oldest (alignment period) c2 k Hk). lia. }
  split; [by apply List.Forall_forall|].
  intros p e r Hin [Hlo _]%inBucket_iff. specialize (Hall p Hin).
  apply Qle_bool_iff.
  unfold secondsOf, Qle, Qdiv, Qmult, Qinv, inject_Z. cbn [Qnum Qden]. lia.
Qed.

Lemma window_covers_buckets_witness :
  Forall (fun p => windowStart (Some "weekly") 1710505800000 < p)
    (getPreviousPeriods 1710505800001 "weekly" 5).
Proof.
  refine (proj1 (window_covers_buckets "weekly" 1710505800000 1710505800001 _ _)).
  - right. right. left. reflexivity.
  - discriminate.
Defined.

(** X19: the monthly window keeps the day of the month of the clock and
    goes back five months, while the first bucket starts on the first of
    the month four months back. The window starts before that bucket
    exactly when the month five months back has the day of the month of
    the clock; otherwise [setMonth] runs over into the month of the first
    bucket and the window starts inside it. On 31 July 2024, 12:00, the
    window starts on 2 March 12:00 and the first bucket on 1 March. *)
Theorem monthly_window_and_first_bucket :
  (forall c0,
     windowStart (Some "monthly") c0 < nth 0 (getPreviousPeriods c0 "monthly" 5) 0
     <->
     getDate c0 <= MonthStart (MonthIndex (Day c0) - 4) -
                   MonthStart (MonthIndex (Day c0) - 5)) /\
  windowStart (Some "monthly") 1722427200000 = 1709380800000 /\
  nth 0 (getPreviousPeriods 1722427200000 "monthly" 5) 0 = 1709251200000.
Proof.
  split; [|split; reflexivity].
  intros c0. rewrite getPreviousPeriods_five.
  cbn [map nth alignment String.eqb Ascii.eqb Bool.eqb periodStart].
  unfold windowStart. cbn [periodIs String.eqb Ascii.eqb Bool.eqb].
  rewrite setMonth1_eq. pose proof (TimeWithinDay_bounds c0) as Hb.
  unfold MakeDate, msPerDay in *. lia.
Qed.

Lemma countWhere_none (p : TxLog -> bool) rs :
  (forall r, In r rs -> p r = false) -> countWhere p rs = 0%nat.
Proof.
  unfold countWhere. induction rs as [|r rs IH]; intros H; [done|].
  cbn [List.filter]. rewrite (H r (or_introl eq_refl)).
  apply IH. intros x Hx. apply H. by right.
Qed.

Lemma bucketOf_before key s e rs :
  (forall r, In r rs -> e <= ts r * 1000) ->
  req (bucketOf key s e rs) = 0 /\ error (bucketOf key s e rs) = 0.
Proof.
  intros H.
  assert (Hout : forall r, In r rs -> inBucket s e r = false).
  { intros r Hr. specialize (H r Hr).
    destruct (inBucket s e r) eqn:E; [|done].
    apply inBucket_iff in E. lia. }
  unfold bucketOf. cbn [req error].
  rewrite !countWhere_none; [done| |done].
  intros r Hr. by rewrite (Hout r Hr).
Qed.

Lemma find_lower_bound collection s e host r :
  In r (TX_LOGS_find collection (buildQuery (secondsOf s) e host)) -> s <= ts r * 1000.
Proof.
  unfold TX_LOGS_find. intros [_ Hm]%filter_In. unfold matchesQuery in Hm.
  cbn [buildQuery ts_gte] in Hm.
  apply andb_true_iff in Hm as [Hm _]. apply andb_true_iff in Hm as [Hm _].
  by apply secondsOf_le_ts.
Qed.

(** X20: a request without a period, or with one that is none of the five
    known values, is answered with five monthly buckets over a window of
    one month: when [organizeData] reads the clock in the month in which
    the handler did, the first three buckets are empty whatever the
    collection holds. *)
Theorem default_period_three_empty_buckets parseFloat query collection hm
    c0 c1 c2 c3 :
  existsb (periodIs (q_period query))
    ["hourly"; "daily"; "weekly"; "monthly"; "custom"] = false ->
  MonthIndex (Day c2) = MonthIndex (Day c0) ->
  exists area sankey radial,
    handler parseFloat query collection (Some hm) c0 c1 c2 c3 =
      Some (Charts area sankey radial) /\
    length area = 5%nat /\
    forall i b, (i < 3)%nat -> nth_error area i = Some b ->
      req b = 0 /\ error b = 0.
Proof.
  intros Hp Hm. cbn [existsb] in Hp. rewrite !orb_false_iff in Hp.
  destruct Hp as (P1 & P2 & P3 & P4 & P5 & _).
  unfold handler. rewrite (selectWindow_not_custom _ _ _ _ P5).
  unfold windowStart. rewrite P1, P2, P3, P4. cbv zeta.
  eexists _, _, _. split; [reflexivity|].
  split; [apply organizeData_length|].
  assert (Ha : alignment (periodArg (q_period query)) = Monthly).
  { unfold alignment, periodArg, periodIs in *.
    destruct (q_period query) as [p|]; [|done]. by rewrite P1, P2, P3. }
  rewrite organizeData_five, Ha. cbn [periodStart]. rewrite Hm.
  set (W := setMonth1 c0 (getMonth c0 - 1)).
  assert (HW : MonthStart (MonthIndex (Day c0) - 1) * msPerDay <= W).
  { unfold W. rewrite setMonth1_eq.
    pose proof (TimeWithinDay_bounds c0). pose proof (getDate_pos c0).
    unfold MakeDate, msPerDay in *. lia. }
  pose proof (MonthStart_lt (MonthIndex (Day c0) - 3) (MonthIndex (Day c0) - 2)
                ltac:(lia)).
  pose proof (MonthStart_lt (MonthIndex (Day c0) - 2) (MonthIndex (Day c0) - 1)
                ltac:(lia)).
  intros i b Hi Hb.
  destruct i as [|[|[|i]]]; [| | |lia]; cbn [nth_error] in Hb;
    injection Hb as <-; apply bucketOf_before; intros r Hr;
    apply find_lower_bound in Hr; fold W in Hr; unfold msPerDay in *; lia.
Qed.

Lemma default_period_three_empty_buckets_witness :
  exists area sankey radial,
    handler (fun _ => NaN)
      {| q_period := None; q_host := None; q_startDate := None;
         q_endDate := None |}
      [mkLog 1709000000 200; mkLog 1710000000 500] (Some (mkMetrics hundred))
      1710505800000 1710505800000 1710505800000 1710505800000 =
      Some (Charts area sankey radial) /\
    length area = 5%nat /\
    forall i b, (i < 3)%nat -> nth_error area i = Some b ->
      req b = 0 /\ error b = 0.
Proof.
  apply (default_period_three_empty_buckets (fun _ => NaN)
    {| q_period := None; q_host := None; q_startDate := None; q_endDate := None |}
    [mkLog 1709000000 200; mkLog 1710000000 500] (mkMetrics hundred)
    1710505800000 1710505800000 1710505800000 1710505800000);
    reflexivity.
Defined.
